(** * Hong Kong monthly temperature matrix view (src/main.js)

    A shallow embedding of the data pipeline and of the scene that
    [main.js] builds with D3, together with the properties of the
    natural-language specification.

    Conventions of the embedding.
    - A JavaScript number is an IEEE 754 binary64 value: [number] is the
      Standard Library's [spec_float], with the arithmetic of [SpecFloat]
      at precision 53 and maximal exponent 1024.  [NaN] is a value of
      that type ([+"abc"] is [NaN]).
    - [undefined] is [None].
    - A [Date] object is represented by the three observations the
      program makes of it: its time value (what [a.date - b.date]
      subtracts), [getFullYear()] and [getMonth()].
    - An array that is only read is a [list]; where the program updates
      an array in place (module [Heap]) arrays live in a store.
    - D3 itself is not part of the repository; the few library functions
      the program calls ([d3.max], [d3.min], [d3.group], [d3.range],
      band, linear and sequential scales) are modelled after the
      library's behaviour, the colour interpolator is a parameter. *)

From Stdlib Require Import ZArith NArith List String Ascii Lia SpecFloat.
From Stdlib Require Import Sorting.Sorted Sorting.Permutation.
From stdpp Require Import gmap list strings.

Set Warnings "-clear-no-such-hyp".

Open Scope Z_scope.

(* ===================================================================== *)
(** ** JavaScript numbers                                                 *)
(* ===================================================================== *)

Module Number.

Definition number : Type := spec_float.

Definition prec : Z := 53.
Definition emax : Z := 1024.

Definition add : number -> number -> number := SFadd prec emax.
Definition sub : number -> number -> number := SFsub prec emax.
Definition mul : number -> number -> number := SFmul prec emax.
Definition div : number -> number -> number := SFdiv prec emax.

(** [x < y], [x <= y], [x >= y], [x === y] on numbers; every
    comparison with [NaN] is [false]. *)
Definition ltb : number -> number -> bool := SFltb.
Definition leb : number -> number -> bool := SFleb.
Definition gtb (x y : number) : bool := SFltb y x.
Definition geb (x y : number) : bool := SFleb y x.
Definition eqb : number -> number -> bool := SFeqb.

Definition isNaN (x : number) : bool :=
  match x with S754_nan => true | _ => false end.

(** The number denoted by an integer literal or an array length. *)
Definition of_Z (z : Z) : number := binary_normalize prec emax z 0 false.

(** [Math.max(x, y)] for two numbers. *)
Definition Math_max (x y : number) : number :=
  if isNaN x || isNaN y then S754_nan
  else if ltb x y then y else x.

(** A number that is not [NaN]. *)
Definition numeric (x : number) : Prop := isNaN x = false.

End Number.

Export Number.

Declare Scope number_scope.
Delimit Scope number_scope with num.
Bind Scope number_scope with number.
Infix "+" := add : number_scope.
Infix "-" := sub : number_scope.
Infix "*" := mul : number_scope.
Infix "/" := div : number_scope.

(* ===================================================================== *)
(** ** 1. Constants and configuration (main.js, section 1)                *)
(* ===================================================================== *)

Definition CELL_WIDTH : Z := 100.
Definition CELL_HEIGHT : Z := 70.
Definition YEARS_COUNT : nat := 10.
Definition MONTHS_COUNT : nat := 12.
Definition TEMP_MIN : Z := 0.
Definition TEMP_MAX : Z := 40.

(** main.js, section 1: the margins and the size of the canvas. *)
Record Margin : Type := mkMargin {
  margin_top : Z;
  margin_right : Z;
  margin_bottom : Z;
  margin_left : Z
}.

Definition MARGIN : Margin :=
  {| margin_top := 50; margin_right := 120; margin_bottom := 20;
     margin_left := 90 |}.

Definition WIDTH : Z :=
  CELL_WIDTH * Z.of_nat YEARS_COUNT + margin_left MARGIN + margin_right MARGIN.

Definition HEIGHT : Z :=
  CELL_HEIGHT * Z.of_nat MONTHS_COUNT + margin_top MARGIN + margin_bottom MARGIN.

(* ===================================================================== *)
(** ** Data model                                                         *)
(* ===================================================================== *)

(** A [Date]: the time value in milliseconds and the local calendar
    year and month index (0-11) the host reports for it.  The dates
    [d3.timeParse("%Y-%m-%d")] builds are valid and their year is never
    negative, hence [Z] for the time value and [N] for the year. *)
Record JsDate : Type := mkDate {
  valueOf : Z;
  getFullYear : N;
  getMonth : N
}.

(** One parsed row: [{ date, max, min }]. *)
Record DailyRecord : Type := mkDay {
  date : JsDate;
  max : number;
  min : number
}.

(** The object [summariseMonth] returns. *)
Record MonthSummary : Type := mkSummary {
  monthlyMax : option number;
  monthlyMin : option number;
  days : list DailyRecord
}.

(* ===================================================================== *)
(** ** Library functions used by the aggregator                           *)
(* ===================================================================== *)

(** [d3.max(values, accessor)]: one pass, replacing the running maximum
    when [max < value], or when there is none yet and [value >= value]
    (which rules out [NaN]). *)
Definition d3_max_step (acc : option number) (value : number) : option number :=
  match acc with
  | Some m => if ltb m value then Some value else acc
  | None => if geb value value then Some value else None
  end.

Definition d3_max {A} (values : list A) (valueof : A -> number) : option number :=
  fold_left (fun acc v => d3_max_step acc (valueof v)) values None.

(** [d3.min(values, accessor)], the mirror image with [min > value]. *)
Definition d3_min_step (acc : option number) (value : number) : option number :=
  match acc with
  | Some m => if gtb m value then Some value else acc
  | None => if geb value value then Some value else None
  end.

Definition d3_min {A} (values : list A) (valueof : A -> number) : option number :=
  fold_left (fun acc v => d3_min_step acc (valueof v)) values None.

(** [Array.prototype.sort(comparefn)].  ECMAScript requires the sort to
    be stable; for a comparator that is a consistent order the result
    is therefore determined, and it is computed here by insertion:
    [x], which comes before every element of [l] in the input, is put
    in front of the first [y] with [comparefn(x, y) <= 0]. *)
Section ArraySort.
Context {A : Type} (comparefn : A -> A -> Z).

Fixpoint sort_insert (x : A) (l : list A) : list A :=
  match l with
  | [] => [x]
  | y :: l' => if comparefn x y <=? 0 then x :: l else y :: sort_insert x l'
  end.

Fixpoint Array_sort (l : list A) : list A :=
  match l with
  | [] => []
  | x :: l' => sort_insert x (Array_sort l')
  end.
End ArraySort.

(** The comparator [(a, b) => a.date - b.date]: the difference of the
    two time values (the sort only looks at its sign, which the
    subtraction of doubles shares with that of integers). *)
Definition by_date (a b : DailyRecord) : Z :=
  valueOf (date a) - valueOf (date b).

(* ===================================================================== *)
(** ** 2. Aggregation (main.js, summariseMonth)                           *)
(* ===================================================================== *)

(** The value [summariseMonth] returns for an array with contents
    [days]; the in-place update of that array is in module [Heap]. *)
Definition summariseMonth (days : list DailyRecord) : MonthSummary :=
  {| monthlyMax := d3_max days max;
     monthlyMin := d3_min days min;
     days := Array_sort by_date days |}.

(* ===================================================================== *)
(** ** Arrays in a store: what summariseMonth does to its argument        *)
(* ===================================================================== *)

(** [days.sort(...)] sorts the array object it is called on and returns
    that same object.  To speak about it, arrays of daily records are
    kept in a store indexed by references. *)
Module Heap.

Abbreviation ref := positive.
Abbreviation store := (gmap positive (list DailyRecord)).

(** The summary object with its [days] field holding a reference. *)
Record SummaryObj : Type := mkSummaryObj {
  obj_monthlyMax : option number;
  obj_monthlyMin : option number;
  obj_days : ref
}.

(** [summariseMonth(days)]: the three fields are evaluated in order;
    the sort overwrites the contents of [days] and yields [days].
    ([None] stands for a reference that is not in the store, which the
    program never holds.) *)
Definition summariseMonth (h : store) (days : ref) : option (store * SummaryObj) :=
  match h !! days with
  | None => None
  | Some l =>
      let mx := d3_max l max in
      let mn := d3_min l min in
      let h' := <[days := Array_sort by_date l]> h in
      Some (h', mkSummaryObj mx mn days)
  end.

(** [[...monthData]]: a new array with the same elements. *)
Definition spread (h : store) (a : ref) : option (store * ref) :=
  match h !! a with
  | None => None
  | Some l => let b := fresh (dom h) in Some (<[b := l]> h, b)
  end.

(** The call in drawCells: [summariseMonth([...monthData])]. *)
Definition summarise_copy (h : store) (monthData : ref) : option (store * SummaryObj) :=
  match spread h monthData with
  | None => None
  | Some (h1, b) => summariseMonth h1 b
  end.

End Heap.

(* ===================================================================== *)
(** ** 2. Data loading (main.js, loadData)                                *)
(* ===================================================================== *)

(** [Number::toString] of a non-negative integer: its decimal digits,
    most significant first, no leading zero. *)
Fixpoint digits_of (fuel : nat) (n : N) : list N :=
  match fuel with
  | O => []
  | S f => if (n <? 10)%N then [n]
           else digits_of f (n / 10)%N ++ [(n mod 10)%N]
  end.

Definition decimal_digits (n : N) : list N :=
  digits_of (S (N.to_nat (N.log2 n))) n.

Definition digit_char (d : N) : ascii := ascii_of_N (48 + d).

Definition Number_toString (n : N) : string :=
  string_of_list_ascii (map digit_char (decimal_digits n)).

(** The comparison [Array.prototype.sort] uses when it is given no
    comparator: both elements are converted to strings, which are
    compared by code units. *)
Definition default_compare (x y : N) : Z :=
  let xs := Number_toString x in
  let ys := Number_toString y in
  if String.ltb xs ys then -1
  else if String.ltb ys xs then 1
  else 0.

(** [new Set(values)] and its spread: the distinct values in the order
    of their first occurrence. *)
Definition Set_add (s : list N) (x : N) : list N :=
  if bool_decide (x ∈ s) then s else s ++ [x].

Definition Set_from (values : list N) : list N :=
  fold_left Set_add values [].

(** [array.slice(-k)]: the last [k] elements, all of them when there
    are fewer. *)
Definition slice_last {A} (k : nat) (l : list A) : list A :=
  drop (length l - k) l.

(** [y >= startYear], where [startYear] is [undefined] for an empty
    array of years (the comparison is then [false]). *)
Definition ge_start (y : N) (startYear : option N) : bool :=
  match startYear with
  | Some s => (s <=? y)%N
  | None => false
  end.

(** One level of [d3.group]: values with the same key are collected,
    in input order, under that key. *)
Definition group_push {A} (key : A -> N) (groups : gmap N (list A)) (value : A)
  : gmap N (list A) :=
  match groups !! key value with
  | Some g => <[key value := g ++ [value]]> groups
  | None => <[key value := [value]]> groups
  end.

Definition group_by {A} (key : A -> N) (values : list A) : gmap N (list A) :=
  fold_left (group_push key) values ∅.

(** [d3.group(values, key1, key2)]: group by the first key, then each
    group by the second. *)
Definition d3_group {A} (values : list A) (key1 key2 : A -> N)
  : gmap N (gmap N (list A)) :=
  group_by key2 <$> group_by key1 values.

Definition year_of (d : DailyRecord) : N := getFullYear (date d).
Definition month_of (d : DailyRecord) : N := getMonth (date d).

Record Loaded : Type := mkLoaded {
  nested : gmap N (gmap N (list DailyRecord));
  years : list N
}.

(** [loadData], from the parsed rows on: reading the CSV file and
    parsing its rows is the host's and the library's part, and the rows
    are those whose date parsed (on any other, [d.date.getFullYear()]
    throws and nothing is drawn). *)
Definition allYears (data : list DailyRecord) : list N :=
  Array_sort default_compare (Set_from (map year_of data)).

Definition loadData (data : list DailyRecord) : Loaded :=
  let years := slice_last YEARS_COUNT (allYears data) in
  let startYear := head years in
  let filtered := List.filter (fun d => ge_start (year_of d) startYear) data in
  let nested := d3_group filtered year_of month_of in
  {| nested := nested; years := years |}.

(* ===================================================================== *)
(** ** 3. Scales (d3-scale, as configured by main.js)                     *)
(* ===================================================================== *)

(** Number literals that are not integers: [0.05] is the double nearest
    to 5/100, which is what the correctly rounded quotient yields. *)
Definition lit_0_05 : number := Eval vm_compute in (of_Z 5 / of_Z 100)%num.
Definition lit_0_5 : number := Eval vm_compute in (of_Z 1 / of_Z 2)%num.

Definition is_zero (x : number) : bool :=
  match x with S754_zero _ => true | _ => false end.

(** A number used as a condition: [0], [-0] and [NaN] count as false. *)
Definition truthy (x : number) : bool := negb (is_zero x || isNaN x).

(** *** Band scales *)

(** [d3.scaleBand().domain(d).range([r0, r1]).padding(p)]. *)
Record ScaleBand : Type := mkBand {
  band_domain : list N;
  band_range : number * number;
  band_paddingInner : number;
  band_paddingOuter : number;
  band_align : number
}.

(** [Math.min(x, y)] for two numbers. *)
Definition Math_min (x y : number) : number :=
  if isNaN x || isNaN y then S754_nan
  else if ltb y x then y else x.

(** The domain setter keeps the first occurrence of every value;
    [padding(p)] sets the outer padding to [p] and the inner one to
    [Math.min(1, p)]; the alignment keeps its default 0.5. *)

Definition scaleBand (domain : list N) (range : number * number) (padding : number)
  : ScaleBand :=
  {| band_domain := Set_from domain;
     band_range := range;
     band_paddingInner := Math_min (of_Z 1) padding;
     band_paddingOuter := padding;
     band_align := lit_0_5 |}.

Section BandRescale.
Variable s : ScaleBand.

Definition band_n : number := of_Z (Z.of_nat (length (band_domain s))).
Definition band_reverse : bool := ltb (snd (band_range s)) (fst (band_range s)).
Definition band_lo : number :=
  if band_reverse then snd (band_range s) else fst (band_range s).
Definition band_hi : number :=
  if band_reverse then fst (band_range s) else snd (band_range s).

(** [step = (stop - start) / Math.max(1, n - paddingInner + paddingOuter * 2)] *)
Definition band_step : number :=
  ((band_hi - band_lo)
   / Math_max (of_Z 1)
       (band_n - band_paddingInner s + band_paddingOuter s * of_Z 2))%num.

(** [start += (stop - start - step * (n - paddingInner)) * align] *)
Definition band_start : number :=
  (band_lo
   + (band_hi - band_lo - band_step * (band_n - band_paddingInner s))
     * band_align s)%num.

(** [scale.bandwidth()]: [step * (1 - paddingInner)]. *)
Definition bandwidth : number :=
  (band_step * (of_Z 1 - band_paddingInner s))%num.

(** The slots [start + step * i], reversed for a decreasing range. *)
Definition band_values : list number :=
  let vs := map (fun i => (band_start + band_step * of_Z (Z.of_nat i))%num)
                (seq 0 (length (band_domain s))) in
  if band_reverse then rev vs else vs.
End BandRescale.

(** The index the ordinal scale keeps for a domain value. *)
Fixpoint index_of (x : N) (l : list N) : option nat :=
  match l with
  | [] => None
  | y :: l' => if (x =? y)%N then Some O else S <$> index_of x l'
  end.

(** [scale(d)]: the slot of [d], [undefined] for a value outside the
    domain. *)
Definition band_apply (s : ScaleBand) (d : N) : option number :=
  match index_of d (band_domain s) with
  | Some i => band_values s !! i
  | None => None
  end.

(** *** Linear scales *)

(** [d3.scaleLinear().domain([d0, d1]).range([r0, r1])]. *)
Record ScaleLinear : Type := mkLinear {
  lin_domain : number * number;
  lin_range : number * number
}.

(** [normalize(a, b)(x)]: [(x - a) / (b - a)], or the constant 0.5 for
    an empty interval. *)
Definition lin_normalize (a b x : number) : number :=
  let w := (b - a)%num in
  if truthy w then ((x - a) / w)%num
  else if isNaN w then S754_nan else lit_0_5.

(** [interpolateNumber(a, b)(t)]: [a * (1 - t) + b * t]. *)
Definition interpolateNumber (a b t : number) : number :=
  (a * (of_Z 1 - t) + b * t)%num.

(** [scale(x)] for a number [x]; [undefined] on [NaN]. *)
Definition linear_apply (s : ScaleLinear) (x : number) : option number :=
  if isNaN x then None
  else
    let '(d0, d1) := lin_domain s in
    let '(r0, r1) := lin_range s in
    Some (if ltb d1 d0
          then interpolateNumber r1 r0 (lin_normalize d1 d0 x)
          else interpolateNumber r0 r1 (lin_normalize d0 d1 x)).

(** *** Sequential scales *)

(** [d3.scaleSequential().domain([x0, x1]).interpolator(f)]; the
    interpolator is kept apart, as a parameter of [sequential_apply]. *)
Record ScaleSequential : Type := mkSequential {
  seq_domain : number * number
}.

(** [scale(x)]: [undefined] for [undefined] and [NaN], otherwise the
    interpolator at [(x - x0) * k10] with [k10 = 1 / (x1 - x0)] (no
    clamping), and at 0.5 when the domain is a single point. *)
Definition sequential_k10 (s : ScaleSequential) : number :=
  let '(x0, x1) := seq_domain s in
  if eqb x0 x1 then of_Z 0 else (of_Z 1 / (x1 - x0))%num.

Definition sequential_apply {C} (interpolator : number -> C)
  (s : ScaleSequential) (x : option number) : option C :=
  match x with
  | None => None
  | Some v =>
      if isNaN v then None
      else Some (interpolator
                   (if eqb (sequential_k10 s) (of_Z 0) then lit_0_5
                    else ((v - fst (seq_domain s)) * sequential_k10 s)%num))
  end.

(** main.js, buildColourScale. *)
Definition buildColourScale : ScaleSequential :=
  {| seq_domain := (of_Z TEMP_MIN, of_Z TEMP_MAX) |}.

(* ===================================================================== *)
(** ** The scene                                                          *)
(* ===================================================================== *)

(** What the program appends to the main [<g>] group.  Attributes that
    are numbers stay numbers; an attribute set to [undefined] is absent
    ([None]); the pointer handlers of the tooltip are not part of the
    scene. *)

Definition MONTH_NAMES : list string :=
  [ "January"; "February"; "March"; "April"; "May"; "June";
    "July"; "August"; "September"; "October"; "November"; "December" ]%string.

(** [d3.range(n)]: [0, 1, ..., n - 1]. *)
Definition d3_range (n : nat) : list N := map N.of_nat (seq 0 n).

Inductive Orient : Type := Top | Left.

(** An axis group: class, orientation, the scale it was called with,
    its tick size and the text of its ticks (the domain line is
    removed). *)
Record Axis : Type := mkAxis {
  axis_class : string;
  axis_orient : Orient;
  axis_scale : ScaleBand;
  axis_tickSize : Z;
  axis_labels : list string
}.

(** An element of the array [cells]: [{ year, month, ...summary }]; the
    spread fields are reached through [summary]. *)
Record Cell : Type := mkCell {
  year : N;
  month : N;
  summary : MonthSummary
}.

(** A [<rect class="cell">]: [rect_fill] is the value of the fill
    attribute (once a running transition, if any, has ended) and
    [rect_fill_transition] the duration in milliseconds of the
    transition that last set it, [None] when it was set directly. *)
Record Rect : Type := mkRect {
  rect_class : string;
  rect_width : number;
  rect_height : number;
  rect_rx : Z;
  rect_fill : option string;
  rect_fill_transition : option Z
}.

Inductive Curve : Type := curveMonotoneX.

(** A [<path>] of a mini chart: class, bound datum, and its geometry,
    the curve drawn through the points the line generator computes. *)
Record Path : Type := mkPath {
  path_class : string;
  path_datum : list DailyRecord;
  path_curve : Curve;
  path_points : list (number * number)
}.

(** A [<g class="cell-group">] with its bound datum, its translation
    and its children. *)
Record CellGroup : Type := mkGroup {
  group_class : string;
  group_datum : Cell;
  group_translate : option number * option number;
  group_rect : Rect;
  group_paths : list Path
}.

Record Stop : Type := mkStop {
  stop_offset_percent : number;
  stop_color : option string
}.

Record Text : Type := mkText {
  text_class : string;
  text_x : Z;
  text_y : Z;
  text_content : string
}.

(** The legend: the gradient with its stops, the bar and two labels. *)
Record Legend : Type := mkLegend {
  gradient_id : string;
  gradient_from : string * string;
  gradient_to : string * string;
  gradient_stops : list Stop;
  bar_x : Z;
  bar_y : Z;
  bar_width : Z;
  bar_height : Z;
  bar_rx : Z;
  bar_fill : string;
  legend_labels : list Text
}.

Record Scales : Type := mkScales {
  xScale : ScaleBand;
  yScale : ScaleBand
}.

(** The state of the page: the global [showMax], the text of
    [#mode-label strong], the scales and colour scale the handlers
    close over, and the contents of the main group. *)
Record World : Type := mkWorld {
  showMax : bool;
  mode_label : string;
  scales : Scales;
  colour : ScaleSequential;
  svg_axes : list Axis;
  svg_cells : list CellGroup;
  svg_legend : option Legend
}.

(* ===================================================================== *)
(** ** 4. Drawing functions                                               *)
(* ===================================================================== *)

(** main.js, createSvg: the [<svg>] of [WIDTH] by [HEIGHT] and, in it,
    the main group translated by the left and top margins. *)
Record Svg : Type := mkSvg {
  svg_width : Z;
  svg_height : Z;
  svg_translate : Z * Z
}.

Definition createSvg : Svg :=
  {| svg_width := WIDTH;
     svg_height := HEIGHT;
     svg_translate := (margin_left MARGIN, margin_top MARGIN) |}.

(** main.js, drawAxes: the two band scales and the two axis groups. *)
Definition make_xScale (years : list N) : ScaleBand :=
  scaleBand years
    (of_Z 0, of_Z (CELL_WIDTH * Z.of_nat (length years)))
    lit_0_05.

Definition make_yScale : ScaleBand :=
  scaleBand (d3_range MONTHS_COUNT)
    (of_Z 0, of_Z (CELL_HEIGHT * Z.of_nat MONTHS_COUNT))
    lit_0_05.

Definition month_name (i : N) : string :=
  default "undefined"%string (MONTH_NAMES !! N.to_nat i).

Definition drawAxes (years : list N) : list Axis * Scales :=
  let xs := make_xScale years in
  let ys := make_yScale in
  ([ mkAxis "axis" Top xs 0 (map Number_toString (band_domain xs));
     mkAxis "axis" Left ys 0 (map month_name (band_domain ys)) ],
   mkScales xs ys).

(** main.js, drawCells: the array [cells].  A group that exists is an
    array, hence truthy; its summary is that of the copy
    [[...monthData]], whose contents are those of [monthData]. *)
Definition month_cell (nested : gmap N (gmap N (list DailyRecord)))
  (year month : N) : list Cell :=
  match nested !! year ≫= (fun months => months !! month) with
  | Some monthData => [mkCell year month (summariseMonth monthData)]
  | None => []
  end.

Definition build_cells (nested : gmap N (gmap N (list DailyRecord)))
  (years : list N) : list Cell :=
  flat_map (fun year => flat_map (month_cell nested year) (d3_range MONTHS_COUNT))
           years.

(** main.js, drawMiniCharts: the local scales of one cell. *)
Definition mini_padding : Z := 4.

Definition xMini (w : number) (days : list DailyRecord) : ScaleLinear :=
  {| lin_domain := (of_Z 0, of_Z (Z.of_nat (length days) - 1));
     lin_range := (of_Z mini_padding, (w - of_Z mini_padding)%num) |}.

Definition yMini (h : number) : ScaleLinear :=
  {| lin_domain := (of_Z TEMP_MIN, of_Z TEMP_MAX);
     lin_range := ((h - of_Z mini_padding)%num, of_Z mini_padding) |}.

(** A coordinate handed to the path builder goes through unary [+]:
    [undefined] becomes [NaN]. *)
Definition to_number (x : option number) : number := default S754_nan x.

(** [d3.line().x((_, i) => xMini(i)).y(day => yMini(field(day)))]
    applied to [days]. *)
Definition line_points (xs ys : ScaleLinear) (field : DailyRecord -> number)
  (days : list DailyRecord) : list (number * number) :=
  imap (fun i day =>
          (to_number (linear_apply xs (of_Z (Z.of_nat i))),
           to_number (linear_apply ys (field day))))
       days.

(** The paths appended to one cell group; none when [days] is empty. *)
Definition mini_chart (w h : number) (d : Cell) : list Path :=
  let ds := days (summary d) in
  match ds with
  | [] => []
  | _ :: _ =>
      let xs := xMini w ds in
      let ys := yMini h in
      [ mkPath "line-min" ds curveMonotoneX (line_points xs ys min ds);
        mkPath "line-max" ds curveMonotoneX (line_points xs ys max ds) ]
  end.

Definition drawMiniCharts (groups : list CellGroup) (w h : number) : list CellGroup :=
  map (fun g => mkGroup (group_class g) (group_datum g) (group_translate g)
                  (group_rect g)
                  (group_paths g ++ mini_chart w h (group_datum g)))
      groups.

(** [d3.interpolateYlOrRd], from a number to a CSS colour: the part of
    the library the program is parameterised by. *)
Class Interpolator : Type := interpolateYlOrRd : number -> string.

Section Colour.
Context {interpolator : Interpolator}.

(** [colour(x)] for the scale built by buildColourScale. *)
Definition apply_colour (c : ScaleSequential) (x : option number) : option string :=
  sequential_apply interpolateYlOrRd c x.

(** [colour(showMax ? d.monthlyMax : d.monthlyMin)] *)
Definition cell_fill (c : ScaleSequential) (showMax : bool) (d : Cell) : option string :=
  apply_colour c (if showMax then monthlyMax (summary d) else monthlyMin (summary d)).

(** main.js, drawCells: one group per element of [cells] (the join is
    made on a selection that is still empty), a rectangle in each, and
    the mini charts. *)
Definition cell_group (showMax : bool) (sc : Scales) (c : ScaleSequential)
  (d : Cell) : CellGroup :=
  {| group_class := "cell-group";
     group_datum := d;
     group_translate := (band_apply (xScale sc) (year d),
                         band_apply (yScale sc) (month d));
     group_rect := {| rect_class := "cell";
                      rect_width := bandwidth (xScale sc);
                      rect_height := bandwidth (yScale sc);
                      rect_rx := 2;
                      rect_fill := cell_fill c showMax d;
                      rect_fill_transition := None |};
     group_paths := [] |}.

Definition drawCells (showMax : bool)
  (nested : gmap N (gmap N (list DailyRecord))) (years : list N)
  (sc : Scales) (c : ScaleSequential) : list CellGroup :=
  let cells := build_cells nested years in
  let cellGroups := map (cell_group showMax sc c) cells in
  drawMiniCharts cellGroups (bandwidth (xScale sc)) (bandwidth (yScale sc)).

(** main.js, drawLegend. *)
Definition legend_steps : nat := 10.

Definition legend_stop (c : ScaleSequential) (i : nat) : Stop :=
  let t := (of_Z (Z.of_nat i) / of_Z (Z.of_nat legend_steps))%num in
  {| stop_offset_percent := (t * of_Z 100)%num;
     stop_color :=
       apply_colour c
         (Some (of_Z TEMP_MIN + (of_Z TEMP_MAX - of_Z TEMP_MIN) * t)%num) |}.

Definition drawLegend (c : ScaleSequential) (years : list N) : Legend :=
  let legendHeight := CELL_HEIGHT * Z.of_nat MONTHS_COUNT in
  let legendWidth := 18 in
  let x := CELL_WIDTH * Z.of_nat (length years) + 30 in
  {| gradient_id := "temp-gradient";
     gradient_from := ("0%", "0%")%string;
     gradient_to := ("0%", "100%")%string;
     gradient_stops := map (legend_stop c) (seq 0 (legend_steps + 1));
     bar_x := x;
     bar_y := 0;
     bar_width := legendWidth;
     bar_height := legendHeight;
     bar_rx := 3;
     bar_fill := "url(#temp-gradient)";
     legend_labels :=
       [ mkText "legend-label" (x + legendWidth + 5) 10
           (Number_toString (Z.to_N TEMP_MIN) +:+ " °C");
         mkText "legend-label" (x + legendWidth + 5) legendHeight
           (Number_toString (Z.to_N TEMP_MAX) +:+ " °C") ] |}.

(* ===================================================================== *)
(** ** 5. Interaction (main.js, toggleMode)                               *)
(* ===================================================================== *)

(** The rectangle after [.transition().duration(400).attr("fill", v)]. *)
Definition transition_fill (duration : Z) (v : option string) (r : Rect) : Rect :=
  {| rect_class := rect_class r;
     rect_width := rect_width r;
     rect_height := rect_height r;
     rect_rx := rect_rx r;
     rect_fill := v;
     rect_fill_transition := Some duration |}.

(** Every element of class "cell" is the rectangle of a cell group and
    carries that group's datum. *)
Definition recolour (c : ScaleSequential) (showMax : bool) (g : CellGroup) : CellGroup :=
  {| group_class := group_class g;
     group_datum := group_datum g;
     group_translate := group_translate g;
     group_rect := transition_fill 400 (cell_fill c showMax (group_datum g))
                     (group_rect g);
     group_paths := group_paths g |}.

Definition toggleMode (w : World) : World :=
  let showMax' := negb (showMax w) in
  {| showMax := showMax';
     mode_label := if showMax' then "Maximum" else "Minimum";
     scales := scales w;
     colour := colour w;
     svg_axes := svg_axes w;
     svg_cells := map (recolour (colour w) showMax') (svg_cells w);
     svg_legend := svg_legend w |}.

(* ===================================================================== *)
(** ** 6. Main entry point                                                *)
(* ===================================================================== *)

(** [main()], given the parsed rows and the text the page shows in
    [#mode-label strong] when it is loaded; [showMax] starts as [true]. *)
Definition main (data : list DailyRecord) (label0 : string) : World :=
  let ld := loadData data in
  let c := buildColourScale in
  let '(axes, sc) := drawAxes (years ld) in
  {| showMax := true;
     mode_label := label0;
     scales := sc;
     colour := c;
     svg_axes := axes;
     svg_cells := drawCells true (nested ld) (years ld) sc c;
     svg_legend := Some (drawLegend c (years ld)) |}.

(** The page after [n] clicks on cells. *)
Definition after_clicks (n : nat) (data : list DailyRecord) (label0 : string)
  : World :=
  Nat.iter n toggleMode (main data label0).

(** Every rectangle is filled with the colour of the active field. *)
Definition fill_follows_mode (w : World) : Prop :=
  Forall (fun g => rect_fill (group_rect g)
                   = cell_fill (colour w) (showMax w) (group_datum g))
         (svg_cells w).

End Colour.

(** main.js, drawCells, the mouseover handler of a cell rectangle: the
    tooltip is made opaque and its html set.  The html is kept in
    parts: the text of its [<strong>] heading, the label before the
    colon and the value printed after it. *)
Record Tooltip : Type := mkTooltip {
  tooltip_opacity : Z;
  html_heading : string;
  html_label : string;
  html_value : option number
}.

(** [s.padStart(n, c)] for a pad string of one character. *)
Definition padStart (targetLength : nat) (c : ascii) (s : string) : string :=
  string_of_list_ascii (repeat c (targetLength - String.length s)) +:+ s.

Definition mouseover (w : World) (d : Cell) : Tooltip :=
  let label := (if showMax w then "Max" else "Min")%string in
  let value := if showMax w then monthlyMax (summary d)
               else monthlyMin (summary d) in
  {| tooltip_opacity := 1;
     html_heading :=
       Number_toString (year d) +:+ "-"
       +:+ padStart 2 "0" (Number_toString (month d + 1));
     html_label := label;
     html_value := value |}.

(** The part of a cell group that is not its fill: classes, bound
    datum, position, size and corner radius, and the mini-chart paths. *)
Definition group_layout (g : CellGroup)
  : string * Cell * (option number * option number)
    * (string * number * number * Z) * list Path :=
  (group_class g, group_datum g, group_translate g,
   (rect_class (group_rect g), rect_width (group_rect g),
    rect_height (group_rect g), rect_rx (group_rect g)),
   group_paths g).

(* ===================================================================== *)
(** ** Vocabulary of the specification                                    *)
(* ===================================================================== *)

(** [m] is the greatest (least) element of [vs]. *)
Definition is_maximum (m : number) (vs : list number) : Prop :=
  m ∈ vs /\ forall v, v ∈ vs -> leb v m = true.

Definition is_minimum (m : number) (vs : list number) : Prop :=
  m ∈ vs /\ forall v, v ∈ vs -> leb m v = true.

(** Ascending by date. *)
Definition date_le (a b : DailyRecord) : Prop :=
  valueOf (date a) <= valueOf (date b).

(** The records of [l] that carry the time value [t], in order. *)
Definition same_date (t : Z) (l : list DailyRecord) : list DailyRecord :=
  List.filter (fun d => valueOf (date d) =? t) l.

(** A record with temperatures that are numbers, as the rows of the
    temperature file are. *)
Definition numeric_record (d : DailyRecord) : Prop :=
  numeric (max d) /\ numeric (min d).

(** The rows of [values] for year [y] and month index [m], in order. *)
Definition records_of (y m : N) (values : list DailyRecord) : list DailyRecord :=
  List.filter (fun d => (month_of d =? m)%N)
    (List.filter (fun d => (year_of d =? y)%N) values).

(** The rows [loadData] keeps: those from the first selected year on. *)
Definition filtered (data : list DailyRecord) : list DailyRecord :=
  List.filter (fun d => ge_start (year_of d) (head (years (loadData data)))) data.

(** The year and month a cell stands for. *)
Definition cell_key (d : Cell) : N * N := (year d, month d).

(** The integer a number stands for, when it is one: [m * 2^e] with
    its sign. *)
Definition to_Z (x : number) : Z :=
  match x with
  | S754_finite s m e =>
      let v := if e <? 0 then Z.pos m / 2 ^ (- e) else Z.pos m * 2 ^ e in
      if s then - v else v
  | _ => 0
  end.

(** Lexicographic comparison of digit sequences. *)
Fixpoint lex_compare (l1 l2 : list N) : comparison :=
  match l1, l2 with
  | [], [] => Eq
  | [], _ :: _ => Lt
  | _ :: _, [] => Gt
  | a :: t1, b :: t2 =>
      match (a ?= b)%N with
      | Eq => lex_compare t1 t2
      | c => c
      end
  end.

(** The number of decimal digits of a year. *)
Definition num_digits (n : N) : nat := length (decimal_digits n).

(** Strictly ascending years. *)
Definition ascending (l : list N) : Prop := StronglySorted N.lt l.

(** [selected] is the window of the [k] most recent of the years [all]:
    it has [k] of them, or all when there are fewer, and every year
    left out is older than every year selected. *)
Definition most_recent (k : nat) (selected all : list N) : Prop :=
  length selected = Nat.min k (length all) /\
  (forall y, y ∈ selected -> y ∈ all) /\
  (forall y z, y ∈ selected -> z ∈ all -> z ∉ selected -> (z < y)%N).

(** All the rows carry years with as many decimal digits. *)
Definition same_digit_count (data : list DailyRecord) : Prop :=
  forall d d', d ∈ data -> d' ∈ data ->
    num_digits (year_of d) = num_digits (year_of d').

(** The number a sequence of decimal digits stands for. *)
Definition digits_value (l : list N) : N :=
  fold_left (fun a d => (10 * a + d)%N) l 0%N.

(** The order in which the default sort puts two years: that of their
    decimal strings. *)
Definition string_le (x y : N) : Prop := default_compare x y <= 0.

(** The keys of the grid in row-major order: every year of [ys] with
    the twelve month indices. *)
Definition grid_keys (ys : list N) : list (N * N) :=
  flat_map (fun y => map (fun m => (y, m)) (d3_range MONTHS_COUNT)) ys.

(** A row whose year is in [ys] and whose month index is one of the
    twelve the grid has. *)
Definition in_grid (ys : list N) (d : DailyRecord) : bool :=
  bool_decide (year_of d ∈ ys) && bool_decide (month_of d ∈ d3_range MONTHS_COUNT).

(** The rows of all cells, in the order of the cells. *)
Definition cell_rows (cells : list Cell) : list DailyRecord :=
  flat_map (fun c => days (summary c)) cells.

(** The numbers of the twelve months as the tooltip prints them. *)
Definition month_numbers : list string :=
  [ "01"; "02"; "03"; "04"; "05"; "06";
    "07"; "08"; "09"; "10"; "11"; "12" ]%string.

(** The arguments at which the legend's stops evaluate the
    interpolator: stop [i] asks the colour scale for the colour of
    [TEMP_MIN + (TEMP_MAX - TEMP_MIN) * (i / 10)]. *)
Definition legend_arguments : list number :=
  map (fun i =>
         let t := (of_Z (Z.of_nat i) / of_Z (Z.of_nat legend_steps))%num in
         ((of_Z TEMP_MIN + (of_Z TEMP_MAX - of_Z TEMP_MIN) * t
           - fst (seq_domain buildColourScale))
          * sequential_k10 buildColourScale)%num)
      (seq 0 (legend_steps + 1)).

(** Numbers in strictly ascending order, as a test. *)
Fixpoint strictly_increasing (l : list number) : bool :=
  match l with
  | [] => true
  | x :: t => forallb (fun y => ltb x y) t && strictly_increasing t
  end.

(** Bands of width [bw] that start at the slots [l]: each ends at or
    before the next slot and at or before [hi]. *)
Fixpoint bands_disjoint (bw hi : number) (l : list number) : bool :=
  match l with
  | [] => true
  | x :: t =>
      leb (x + bw)%num hi
      && forallb (fun y => leb (x + bw)%num y) t
      && bands_disjoint bw hi t
  end.

(** The bands of a band scale lie in its range, one after the other,
    and have a positive width. *)
Definition bands_in_range (s : ScaleBand) : bool :=
  forallb (fun x => leb (fst (band_range s)) x) (band_values s)
  && bands_disjoint (bandwidth s) (snd (band_range s)) (band_values s)
  && (ltb (of_Z 0) (bandwidth s) || Nat.eqb (length (band_domain s)) 0).

(* ===================================================================== *)
(** ** Sample data                                                        *)
(* ===================================================================== *)

(** The rows [2023-01-01,10,2] and [2023-01-02,14,4] of section 8 of
    the specification, on a host whose local time is UTC. *)
Definition jan1 : DailyRecord :=
  mkDay (mkDate 1672531200000 2023 0) (of_Z 10) (of_Z 2).
Definition jan2 : DailyRecord :=
  mkDay (mkDate 1672617600000 2023 0) (of_Z 14) (of_Z 4).

(** A row for February and the cells of the two months. *)
Definition feb1 : DailyRecord :=
  mkDay (mkDate 1675209600000 2023 1) (of_Z 18) (of_Z 12).
Definition cell_jan : Cell := mkCell 2023 0 (summariseMonth [jan2; jan1]).
Definition cell_feb : Cell := mkCell 2023 1 (summariseMonth [feb1]).

(** A store with one array, the two rows in reverse order. *)
Definition sample_store : Heap.store := {[ 1%positive := [jan2; jan1] ]}.

(** A two-colour stand-in for the interpolator: the light end of the
    palette below one half, the dark end from there on. *)
Definition two_colours : Interpolator :=
  fun t => if ltb t lit_0_5 then "rgb(255, 255, 204)"%string
           else "rgb(128, 0, 38)"%string.

(** A row for the first of January of year [y], 20 and 10 degrees; the
    time value counts 365-day years from 1970, which is all the order
    of these rows needs. *)
Definition new_year (y : N) : DailyRecord :=
  mkDay (mkDate ((Z.of_N y - 1970) * 31536000000) y 0) (of_Z 20) (of_Z 10).

(** One row per year, in the order given. *)
Definition yearly (ys : list N) : list DailyRecord := map new_year ys.

Definition years_2010_2023 : list N :=
  [2010; 2011; 2012; 2013; 2014; 2015; 2016; 2017; 2018; 2019;
   2020; 2021; 2022; 2023]%N.

Definition years_990_1000 : list N :=
  [990; 991; 992; 993; 994; 995; 996; 997; 998; 999; 1000]%N.

(** Rows for 999 and 1000, one each. *)
Definition years_999_1000 : list N := [999; 1000]%N.

(** A row whose temperatures did not parse. *)
Definition nan_row : DailyRecord :=
  mkDay (mkDate 1675296000000 2023 1) S754_nan S754_nan.

(** The cell group the page shows for the rows of January 2023 when
    they are its only rows and the interpolator is [two_colours]. *)
Definition group_jan : CellGroup :=
  let sc := mkScales (make_xScale [2023]%N) make_yScale in
  {| group_class := "cell-group";
     group_datum := cell_jan;
     group_translate := (band_apply (xScale sc) 2023, band_apply (yScale sc) 0);
     group_rect := mkRect "cell" (bandwidth (xScale sc)) (bandwidth (yScale sc))
                     2 (Some "rgb(255, 255, 204)"%string) None;
     group_paths := mini_chart (bandwidth (xScale sc)) (bandwidth (yScale sc))
                      cell_jan |}.

(* ===================================================================== *)
(** ** Proof automation                                                   *)
(* ===================================================================== *)

(** Closed decidable goals, by evaluation. *)
Ltac by_decision :=
  match goal with |- ?P => apply (bool_decide_unpack P); vm_compute; exact I end.

(** Membership in a list that is written out. *)
Ltac in_list :=
  apply list_elem_of_In; simpl; repeat (first [left; reflexivity | right]).

(** Comparisons of exponents and mantissas, as facts for [lia]. *)
Ltac compare_facts :=
  repeat match goal with
  | H : (_ ?= _)%Z = Eq |- _ => apply Z.compare_eq_iff in H; subst
  | H : (?a ?= ?b)%Z = Lt |- _ => assert (a < b)%Z by exact H; clear H
  | H : (?a ?= ?b)%Z = Gt |- _ =>
      assert (b < a)%Z by (apply Z.compare_gt_iff; exact H); clear H
  | H : Pos.compare_cont Eq _ _ = Eq |- _ => apply Pos.compare_eq_iff in H; subst
  | H : Pos.compare_cont Eq ?a ?b = Lt |- _ =>
      assert (a < b)%positive by exact H; clear H
  | H : Pos.compare_cont Eq ?a ?b = Gt |- _ =>
      assert (b < a)%positive by (apply Pos.compare_gt_iff; exact H); clear H
  end.

(** Case analysis on the comparisons in the goal. *)
Ltac compare_cases :=
  repeat match goal with
  | |- context [(?a ?= ?b)%Z] => destruct (a ?= b)%Z eqn:?
  | |- context [Pos.compare_cont Eq ?a ?b] =>
      destruct (Pos.compare_cont Eq a b) eqn:?
  end.

(** The order of numbers, by cases on their representation. *)
Ltac float_order :=
  unfold leb, ltb, gtb, geb, SFleb, SFltb, SFcompare in *;
  repeat match goal with
  | x : number |- _ => destruct x as [[]|[]| |[] ? ?]
  end;
  simpl in *; try congruence;
  repeat match goal with
  | H : _ = true |- _ => revert H
  | H : _ = false |- _ => revert H
  end;
  compare_cases; simpl; intros; try congruence;
  compare_facts; try congruence; try lia.

(* ===================================================================== *)
(** * Properties                                                          *)
(* ===================================================================== *)

(** ** Order of numbers *)

Lemma compare_nan_iff (x y : number) :
  SFcompare x y = None <-> isNaN x = true \/ isNaN y = true.
Proof.
  destruct x as [sx|sx| |sx mx ex], y as [sy|sy| |sy my ey]; simpl;
    split; intros H; try discriminate; auto; destruct H; discriminate.
Qed.

Lemma leb_refl (x : number) : numeric x -> leb x x = true.
Proof.
  unfold numeric. intros Hx. float_order.
Qed.

Lemma leb_ltb_trans (u m v : number) :
  leb u m = true -> ltb m v = true -> leb u v = true.
Proof.
  intros H1 H2. float_order.
Qed.

Lemma ltb_leb_trans (v m u : number) :
  ltb v m = true -> leb m u = true -> leb v u = true.
Proof.
  intros H1 H2. float_order.
Qed.

Lemma not_ltb_leb (x y : number) :
  numeric x -> numeric y -> ltb x y = false -> leb y x = true.
Proof.
  unfold numeric. intros Hx Hy H. float_order.
Qed.

(** ** d3.max and d3.min *)

Lemma d3_max_fold (rest seen : list number) (acc : option number) :
  Forall numeric rest ->
  match acc with
  | None => seen = []
  | Some m => m ∈ seen /\ numeric m /\ forall v, v ∈ seen -> leb v m = true
  end ->
  match fold_left d3_max_step rest acc with
  | None => seen ++ rest = []
  | Some m => m ∈ seen ++ rest /\ forall v, v ∈ seen ++ rest -> leb v m = true
  end.
Proof.
  revert seen acc. induction rest as [|x rest IH]; intros seen acc Hnum Hacc.
  - simpl. rewrite app_nil_r. destruct acc as [m|]; intuition.
  - apply Forall_cons in Hnum as [Hx Hrest].
    replace (seen ++ x :: rest) with ((seen ++ [x]) ++ rest)
      by (rewrite <- app_assoc; reflexivity).
    cbn [fold_left]. apply IH; [exact Hrest|].
    destruct acc as [m|]; unfold d3_max_step.
    + destruct Hacc as (Hin & Hm & Hub).
      destruct (ltb m x) eqn:Hlt.
      * split; [set_solver|]. split; [exact Hx|].
        intros v Hv. apply elem_of_app in Hv as [Hv|Hv].
        -- exact (leb_ltb_trans v m x (Hub v Hv) Hlt).
        -- apply list_elem_of_singleton in Hv. subst v. now apply leb_refl.
      * split; [set_solver|]. split; [exact Hm|].
        intros v Hv. apply elem_of_app in Hv as [Hv|Hv]; [auto|].
        apply list_elem_of_singleton in Hv. subst v.
        exact (not_ltb_leb m x Hm Hx Hlt).
    + subst seen.
      replace (geb x x) with true by (symmetry; exact (leb_refl x Hx)).
      split; [set_solver|]. split; [exact Hx|].
      intros v Hv. apply list_elem_of_singleton in Hv. subst v. now apply leb_refl.
Qed.

Lemma d3_min_fold (rest seen : list number) (acc : option number) :
  Forall numeric rest ->
  match acc with
  | None => seen = []
  | Some m => m ∈ seen /\ numeric m /\ forall v, v ∈ seen -> leb m v = true
  end ->
  match fold_left d3_min_step rest acc with
  | None => seen ++ rest = []
  | Some m => m ∈ seen ++ rest /\ forall v, v ∈ seen ++ rest -> leb m v = true
  end.
Proof.
  revert seen acc. induction rest as [|x rest IH]; intros seen acc Hnum Hacc.
  - simpl. rewrite app_nil_r. destruct acc as [m|]; intuition.
  - apply Forall_cons in Hnum as [Hx Hrest].
    replace (seen ++ x :: rest) with ((seen ++ [x]) ++ rest)
      by (rewrite <- app_assoc; reflexivity).
    cbn [fold_left]. apply IH; [exact Hrest|].
    destruct acc as [m|]; unfold d3_min_step.
    + destruct Hacc as (Hin & Hm & Hlb).
      destruct (gtb m x) eqn:Hgt.
      * split; [set_solver|]. split; [exact Hx|].
        intros v Hv. apply elem_of_app in Hv as [Hv|Hv].
        -- exact (ltb_leb_trans x m v Hgt (Hlb v Hv)).
        -- apply list_elem_of_singleton in Hv. subst v. now apply leb_refl.
      * split; [set_solver|]. split; [exact Hm|].
        intros v Hv. apply elem_of_app in Hv as [Hv|Hv]; [auto|].
        apply list_elem_of_singleton in Hv. subst v.
        exact (not_ltb_leb x m Hx Hm Hgt).
    + subst seen.
      replace (geb x x) with true by (symmetry; exact (leb_refl x Hx)).
      split; [set_solver|]. split; [exact Hx|].
      intros v Hv. apply list_elem_of_singleton in Hv. subst v. now apply leb_refl.
Qed.

Lemma d3_max_fold_map {A} (values : list A) (valueof : A -> number) :
  d3_max values valueof = fold_left d3_max_step (map valueof values) None.
Proof.
  unfold d3_max. generalize (@None number).
  induction values as [|x l IH]; intros acc; simpl; [reflexivity|apply IH].
Qed.

Lemma d3_min_fold_map {A} (values : list A) (valueof : A -> number) :
  d3_min values valueof = fold_left d3_min_step (map valueof values) None.
Proof.
  unfold d3_min. generalize (@None number).
  induction values as [|x l IH]; intros acc; simpl; [reflexivity|apply IH].
Qed.

Lemma d3_max_is_maximum {A} (values : list A) (valueof : A -> number) :
  values <> [] ->
  Forall (fun v => numeric (valueof v)) values ->
  exists m, d3_max values valueof = Some m /\ is_maximum m (map valueof values).
Proof.
  intros Hne Hnum. rewrite d3_max_fold_map.
  pose proof (d3_max_fold (map valueof values) [] None) as H.
  simpl in H. rewrite Forall_map in H. specialize (H Hnum eq_refl).
  destruct (fold_left d3_max_step (map valueof values) None) as [m|].
  - exists m. split; [reflexivity|exact H].
  - destruct values; [congruence|discriminate].
Qed.

Lemma d3_min_is_minimum {A} (values : list A) (valueof : A -> number) :
  values <> [] ->
  Forall (fun v => numeric (valueof v)) values ->
  exists m, d3_min values valueof = Some m /\ is_minimum m (map valueof values).
Proof.
  intros Hne Hnum. rewrite d3_min_fold_map.
  pose proof (d3_min_fold (map valueof values) [] None) as H.
  simpl in H. rewrite Forall_map in H. specialize (H Hnum eq_refl).
  destruct (fold_left d3_min_step (map valueof values) None) as [m|].
  - exists m. split; [reflexivity|exact H].
  - destruct values; [congruence|discriminate].
Qed.

(** Values that are [NaN] are passed over: the result is that for the
    values that are numbers. *)
Lemma d3_max_step_NaN (acc : option number) : d3_max_step acc S754_nan = acc.
Proof. destruct acc as [[[]|[]| |[] ? ?]|]; reflexivity. Qed.

Lemma d3_min_step_NaN (acc : option number) : d3_min_step acc S754_nan = acc.
Proof. destruct acc as [[[]|[]| |[] ? ?]|]; reflexivity. Qed.

Lemma isNaN_true (x : number) : isNaN x = true -> x = S754_nan.
Proof. destruct x; simpl; congruence. Qed.

Lemma d3_max_ignores_NaN {A} (values : list A) (valueof : A -> number) :
  d3_max values valueof
  = d3_max (List.filter (fun v => negb (isNaN (valueof v))) values) valueof.
Proof.
  unfold d3_max. generalize (@None number).
  induction values as [|x l IH]; intros acc; [reflexivity|].
  cbn [fold_left List.filter]. destruct (isNaN (valueof x)) eqn:E; cbn [negb].
  - apply isNaN_true in E. rewrite E, d3_max_step_NaN. apply IH.
  - cbn [fold_left]. apply IH.
Qed.

Lemma d3_min_ignores_NaN {A} (values : list A) (valueof : A -> number) :
  d3_min values valueof
  = d3_min (List.filter (fun v => negb (isNaN (valueof v))) values) valueof.
Proof.
  unfold d3_min. generalize (@None number).
  induction values as [|x l IH]; intros acc; [reflexivity|].
  cbn [fold_left List.filter]. destruct (isNaN (valueof x)) eqn:E; cbn [negb].
  - apply isNaN_true in E. rewrite E, d3_min_step_NaN. apply IH.
  - cbn [fold_left]. apply IH.
Qed.

(** ** Array.prototype.sort *)

Section SortFacts.
Context {A : Type}.

Lemma sort_insert_perm (c : A -> A -> Z) (x : A) (l : list A) :
  sort_insert c x l ≡ₚ x :: l.
Proof.
  induction l as [|y l IH]; simpl; [reflexivity|].
  destruct (c x y <=? 0); [reflexivity|].
  rewrite IH. apply Permutation_swap.
Qed.

Lemma Array_sort_perm (c : A -> A -> Z) (l : list A) :
  Array_sort c l ≡ₚ l.
Proof.
  induction l as [|x l IH]; simpl; [reflexivity|].
  rewrite sort_insert_perm. now rewrite IH.
Qed.

Lemma Array_sort_length (c : A -> A -> Z) (l : list A) :
  length (Array_sort c l) = length l.
Proof. apply Permutation_length, Array_sort_perm. Qed.

(** Two comparators with the same sign on the elements of the array
    sort it alike. *)
Lemma sort_insert_ext (c1 c2 : A -> A -> Z) (x : A) (l : list A) :
  (forall y, y ∈ l -> (c1 x y <=? 0) = (c2 x y <=? 0)) ->
  sort_insert c1 x l = sort_insert c2 x l.
Proof.
  induction l as [|y l IH]; intros H; simpl; [reflexivity|].
  rewrite (H y) by set_solver.
  destruct (c2 x y <=? 0); [reflexivity|].
  f_equal. apply IH. intros z Hz. apply H. set_solver.
Qed.

Lemma Array_sort_ext (c1 c2 : A -> A -> Z) (l : list A) :
  (forall x y, x ∈ l -> y ∈ l -> (c1 x y <=? 0) = (c2 x y <=? 0)) ->
  Array_sort c1 l = Array_sort c2 l.
Proof.
  induction l as [|x l IH]; intros H; simpl; [reflexivity|].
  rewrite IH by (intros; apply H; set_solver).
  apply sort_insert_ext. intros y Hy. apply H; [set_solver|].
  rewrite Array_sort_perm in Hy. set_solver.
Qed.

(** Comparators of the form [key(a) - key(b)]. *)
Variable key : A -> Z.
Let by_key (a b : A) : Z := key a - key b.
Let key_le (a b : A) : Prop := key a <= key b.

Lemma sort_insert_sorted (x : A) (l : list A) :
  StronglySorted key_le l -> StronglySorted key_le (sort_insert by_key x l).
Proof.
  induction 1 as [|y l Hs IH Hall]; simpl.
  - repeat constructor.
  - unfold by_key at 1. destruct (Z.leb_spec (key x - key y) 0) as [Hle|Hgt].
    + constructor; [now constructor|].
      constructor; [unfold key_le; lia|].
      eapply Forall_impl; [exact Hall|]. unfold key_le. intros; simpl in *; lia.
    + constructor; [exact IH|].
      rewrite sort_insert_perm. constructor; [unfold key_le; lia|exact Hall].
Qed.

Lemma Array_sort_sorted (l : list A) :
  StronglySorted key_le (Array_sort by_key l).
Proof.
  induction l as [|x l IH]; simpl; [constructor|now apply sort_insert_sorted].
Qed.

(** Stability: the elements with a given key keep their input order. *)
Lemma sort_insert_filter (k : Z) (x : A) (l : list A) :
  List.filter (fun a => key a =? k) (sort_insert by_key x l)
  = List.filter (fun a => key a =? k) (x :: l).
Proof.
  induction l as [|y l IH]; [reflexivity|].
  simpl sort_insert. unfold by_key at 1.
  destruct (Z.leb_spec (key x - key y) 0) as [Hle|Hgt]; [reflexivity|].
  change (List.filter ?f (y :: ?t)) with (if f y then y :: List.filter f t else List.filter f t).
  rewrite IH. simpl.
  destruct (Z.eqb_spec (key x) k), (Z.eqb_spec (key y) k); try reflexivity; lia.
Qed.

Lemma Array_sort_stable (k : Z) (l : list A) :
  List.filter (fun a => key a =? k) (Array_sort by_key l)
  = List.filter (fun a => key a =? k) l.
Proof.
  induction l as [|x l IH]; [reflexivity|].
  simpl Array_sort. rewrite sort_insert_filter. simpl. now rewrite IH.
Qed.

(** A sorted, stable rearrangement is unique: any list that is sorted
    by key and keeps every class of equal keys in input order is the
    one computed by insertion. *)
Lemma sorted_stable_unique (l1 l2 : list A) :
  StronglySorted key_le l1 -> StronglySorted key_le l2 ->
  (forall k, List.filter (fun a => key a =? k) l1
             = List.filter (fun a => key a =? k) l2) ->
  l1 = l2.
Proof.
  intros H1. revert l2. induction H1 as [|x l1 Hs1 IH Hall1]; intros l2 H2 Hf.
  - destruct l2 as [|y l2]; [reflexivity|].
    specialize (Hf (key y)). simpl in Hf. rewrite Z.eqb_refl in Hf. discriminate.
  - destruct H2 as [|y l2 Hs2 Hall2].
    + specialize (Hf (key x)). simpl in Hf. rewrite Z.eqb_refl in Hf. discriminate.
    + assert (Hxy : key x = key y).
      { pose proof (Hf (key x)) as Hx. pose proof (Hf (key y)) as Hy.
        simpl in Hx, Hy. rewrite Z.eqb_refl in Hx, Hy.
        destruct (Z.eqb_spec (key y) (key x)) as [E|NE]; [lia|].
        destruct (Z.eqb_spec (key x) (key y)) as [E'|NE']; [lia|].
        assert (Hin1 : In x (List.filter (fun a => key a =? key x) l2))
          by (rewrite <- Hx; left; reflexivity).
        assert (Hin2 : In y (List.filter (fun a => key a =? key y) l1))
          by (rewrite Hy; left; reflexivity).
        apply filter_In in Hin1 as [Hin1 _]. apply filter_In in Hin2 as [Hin2 _].
        rewrite Forall_forall in Hall1, Hall2.
        apply list_elem_of_In in Hin1, Hin2.
        specialize (Hall1 _ Hin2). specialize (Hall2 _ Hin1).
        unfold key_le in *. lia. }
      assert (x = y).
      { specialize (Hf (key x)). simpl in Hf.
        rewrite Z.eqb_refl, <- Hxy, Z.eqb_refl in Hf. congruence. }
      subst y. f_equal. apply IH; [exact Hs2|].
      intros k. specialize (Hf k). simpl in Hf.
      destruct (key x =? k); congruence.
Qed.

End SortFacts.

(** Two ascending lists of integers with the same elements are equal. *)
Lemma sorted_perm_eq (l1 l2 : list Z) :
  StronglySorted Z.le l1 -> StronglySorted Z.le l2 -> l1 ≡ₚ l2 -> l1 = l2.
Proof.
  intros H1. revert l2. induction H1 as [|a l1 Hs1 IH Hall1]; intros l2 H2 Hp.
  - apply Permutation_nil in Hp. now subst.
  - destruct H2 as [|b l2 Hs2 Hall2].
    + symmetry in Hp. apply Permutation_nil in Hp. discriminate.
    + assert (a = b).
      { rewrite Forall_forall in Hall1, Hall2.
        assert (Ha : a ∈ b :: l2) by (rewrite <- Hp; apply list_elem_of_here).
        assert (Hb : b ∈ a :: l1) by (rewrite Hp; apply list_elem_of_here).
        apply elem_of_cons in Ha as [?|Ha']; [assumption|].
        apply elem_of_cons in Hb as [?|Hb']; [congruence|].
        specialize (Hall1 _ Hb'). specialize (Hall2 _ Ha'). lia. }
      subst b. f_equal. apply IH; [exact Hs2|].
      eapply Permutation_cons_inv; exact Hp.
Qed.

Lemma StronglySorted_map {A B} (f : A -> B) (R : B -> B -> Prop) (l : list A) :
  StronglySorted (fun a b => R (f a) (f b)) l -> StronglySorted R (map f l).
Proof.
  induction 1 as [|x l Hs IH Hall]; simpl; constructor; [exact IH|].
  rewrite Forall_map. exact Hall.
Qed.

(* ===================================================================== *)
(** ** Aggregation                                                        *)
(* ===================================================================== *)

Lemma summariseMonth_sorted (ds : list DailyRecord) :
  StronglySorted date_le (days (summariseMonth ds)).
Proof. apply (Array_sort_sorted (fun d => valueOf (date d))). Qed.

Lemma summariseMonth_perm (ds : list DailyRecord) :
  days (summariseMonth ds) ≡ₚ ds.
Proof. apply Array_sort_perm. Qed.

Lemma summariseMonth_stable (t : Z) (ds : list DailyRecord) :
  same_date t (days (summariseMonth ds)) = same_date t ds.
Proof. apply (Array_sort_stable (fun d => valueOf (date d))). Qed.

Lemma summariseMonth_dates_of_perm (ds ds' : list DailyRecord) :
  ds' ≡ₚ ds ->
  map (fun d => valueOf (date d)) (days (summariseMonth ds'))
  = map (fun d => valueOf (date d)) (days (summariseMonth ds)).
Proof.
  intros Hp. apply sorted_perm_eq.
  - apply StronglySorted_map, summariseMonth_sorted.
  - apply StronglySorted_map, summariseMonth_sorted.
  - apply Permutation_map. now rewrite !summariseMonth_perm.
Qed.

(** Outside the data model: when some temperatures are [NaN], the
    monthly maximum is that of the rows whose [max] is a number, and
    there is none when no row has one. *)
Lemma summariseMonth_max_of_numbers (ds : list DailyRecord) :
  let numbers := List.filter (fun d => negb (isNaN (max d))) ds in
  match monthlyMax (summariseMonth ds) with
  | Some m => is_maximum m (map max numbers)
  | None => numbers = []
  end.
Proof.
  intros numbers. cbn [monthlyMax summariseMonth].
  rewrite d3_max_ignores_NaN. fold numbers.
  destruct numbers as [|d l] eqn:E; [reflexivity|].
  destruct (d3_max_is_maximum (d :: l) max) as (m & -> & Hm);
    [discriminate| |exact Hm].
  rewrite <- E. apply Forall_forall. intros x Hx.
  apply list_elem_of_In, filter_In in Hx as [_ Hx].
  unfold numeric. now destruct (isNaN (max x)).
Qed.

Lemma summariseMonth_min_of_numbers (ds : list DailyRecord) :
  let numbers := List.filter (fun d => negb (isNaN (min d))) ds in
  match monthlyMin (summariseMonth ds) with
  | Some m => is_minimum m (map min numbers)
  | None => numbers = []
  end.
Proof.
  intros numbers. cbn [monthlyMin summariseMonth].
  rewrite d3_min_ignores_NaN. fold numbers.
  destruct numbers as [|d l] eqn:E; [reflexivity|].
  destruct (d3_min_is_minimum (d :: l) min) as (m & -> & Hm);
    [discriminate| |exact Hm].
  rewrite <- E. apply Forall_forall. intros x Hx.
  apply list_elem_of_In, filter_In in Hx as [_ Hx].
  unfold numeric. now destruct (isNaN (min x)).
Qed.

(** The rows of the specification's example, given in reverse order. *)
Example summariseMonth_january :
  summariseMonth [jan2; jan1]
  = {| monthlyMax := Some (of_Z 14);
       monthlyMin := Some (of_Z 2);
       days := [jan1; jan2] |}.
Proof. reflexivity. Qed.

(** [d3.max] passes over [NaN]: a row whose temperature did not parse
    does not count, and there is no maximum when no row counts. *)
Example d3_max_skips_NaN :
  d3_max [S754_nan; of_Z 5; of_Z 3] (fun v => v) = Some (of_Z 5) /\
  d3_max [S754_nan] (fun v => v) = None.
Proof. split; reflexivity. Qed.

(** C1, as the code has it.  For a non-empty array of daily records,
    [summariseMonth] returns as [monthlyMax] the greatest of the daily
    [max] values that are numbers, and [undefined] when none is; as
    [monthlyMin] the least of the daily [min] values that are numbers,
    and [undefined] when none is.  So when all temperatures are
    numbers, [monthlyMax] is the greatest of the daily [max] values and
    [monthlyMin] the least of the daily [min] values.  Its [days] holds
    the records of the input in ascending order of date, and the
    sequence of dates it shows is the same for every permutation of
    the input. *)
Theorem summariseMonth_correct (ds : list DailyRecord) :
  ds <> [] ->
  match monthlyMax (summariseMonth ds) with
  | Some m =>
      is_maximum m (map max (List.filter (fun d => negb (isNaN (max d))) ds))
  | None => Forall (fun d => isNaN (max d) = true) ds
  end /\
  match monthlyMin (summariseMonth ds) with
  | Some m =>
      is_minimum m (map min (List.filter (fun d => negb (isNaN (min d))) ds))
  | None => Forall (fun d => isNaN (min d) = true) ds
  end /\
  (Forall numeric_record ds ->
   (exists m, monthlyMax (summariseMonth ds) = Some m
              /\ is_maximum m (map max ds)) /\
   (exists m, monthlyMin (summariseMonth ds) = Some m
              /\ is_minimum m (map min ds))) /\
  StronglySorted date_le (days (summariseMonth ds)) /\
  days (summariseMonth ds) ≡ₚ ds /\
  (forall ds', ds' ≡ₚ ds ->
     StronglySorted date_le (days (summariseMonth ds')) /\
     map (fun d => valueOf (date d)) (days (summariseMonth ds'))
     = map (fun d => valueOf (date d)) (days (summariseMonth ds))).
Proof.
  intros Hne.
  assert (Hnone : forall (f : DailyRecord -> number),
            List.filter (fun d => negb (isNaN (f d))) ds = [] ->
            Forall (fun d => isNaN (f d) = true) ds).
  { intros f. clear Hne. induction ds as [|d ds IH]; [constructor|].
    simpl. destruct (isNaN (f d)) eqn:E; simpl; [|discriminate].
    intros H. constructor; [exact E|now apply IH]. }
  split; [|split; [|split; [|split; [|split; [|split]]]]].
  - pose proof (summariseMonth_max_of_numbers ds) as H. cbn zeta in H.
    destruct (monthlyMax (summariseMonth ds)); [exact H|now apply Hnone].
  - pose proof (summariseMonth_min_of_numbers ds) as H. cbn zeta in H.
    destruct (monthlyMin (summariseMonth ds)); [exact H|now apply Hnone].
  - intros Hnum. split.
    + apply d3_max_is_maximum; [exact Hne|].
      eapply Forall_impl; [exact Hnum|]. now intros d [? _].
    + apply d3_min_is_minimum; [exact Hne|].
      eapply Forall_impl; [exact Hnum|]. now intros d [_ ?].
  - apply summariseMonth_sorted.
  - apply summariseMonth_perm.
  - apply summariseMonth_sorted.
  - now apply summariseMonth_dates_of_perm.
Qed.

Lemma summariseMonth_correct_witness :
  [jan2; jan1] <> [] /\
  Forall numeric_record [jan2; jan1] /\
  monthlyMax (summariseMonth [jan2; jan1]) = Some (of_Z 14) /\
  monthlyMin (summariseMonth [jan2; jan1]) = Some (of_Z 2) /\
  days (summariseMonth [jan2; jan1]) = [jan1; jan2] /\
  (exists m, monthlyMax (summariseMonth [jan2; jan1]) = Some m
             /\ is_maximum m (map max [jan2; jan1])).
Proof.
  assert (Hne : [jan2; jan1] <> []) by discriminate.
  assert (Hnum : Forall numeric_record [jan2; jan1])
    by (repeat constructor).
  split; [exact Hne|]. split; [exact Hnum|].
  split; [reflexivity|]. split; [reflexivity|]. split; [reflexivity|].
  exact (proj1 (proj1 (proj2 (proj2
    (summariseMonth_correct [jan2; jan1] Hne))) Hnum)).
Defined.

(** The claim as the specification words it fails on rows whose
    temperatures did not parse, which loadData keeps: for the single
    row [nan_row] there is no [monthlyMax] and no [monthlyMin]; for
    [jan1] and [nan_row] together the [monthlyMax] 10 and the
    [monthlyMin] 2 are not compared with every daily value, so they
    are not the greatest and the least of them. *)
Lemma summariseMonth_NaN_rows :
  [nan_row] <> [] /\
  monthlyMax (summariseMonth [nan_row]) = None /\
  monthlyMin (summariseMonth [nan_row]) = None /\
  ~ (exists m, monthlyMax (summariseMonth [nan_row]) = Some m
               /\ is_maximum m (map max [nan_row])) /\
  ~ (exists m, monthlyMin (summariseMonth [nan_row]) = Some m
               /\ is_minimum m (map min [nan_row])) /\
  monthlyMax (summariseMonth [jan1; nan_row]) = Some (of_Z 10) /\
  monthlyMin (summariseMonth [jan1; nan_row]) = Some (of_Z 2) /\
  ~ is_maximum (of_Z 10) (map max [jan1; nan_row]) /\
  ~ is_minimum (of_Z 2) (map min [jan1; nan_row]).
Proof.
  split; [discriminate|]. split; [reflexivity|]. split; [reflexivity|].
  split; [intros (m & H & _); discriminate H|].
  split; [intros (m & H & _); discriminate H|].
  split; [reflexivity|]. split; [reflexivity|].
  split; intros [_ H].
  - specialize (H S754_nan). discriminate H. simpl. in_list.
  - specialize (H S754_nan). discriminate H. simpl. in_list.
Qed.

(* ===================================================================== *)
(** ** The array handed to summariseMonth                                 *)
(* ===================================================================== *)

(** [summariseMonth] replaces the contents of the array it is given by
    their sorted rearrangement, returns that array as [days], and
    touches no other array. *)
Lemma heap_summariseMonth_spec (h : Heap.store) (a : Heap.ref)
  (l : list DailyRecord) :
  h !! a = Some l ->
  exists h' s,
    Heap.summariseMonth h a = Some (h', s) /\
    Heap.obj_days s = a /\
    Heap.obj_monthlyMax s = monthlyMax (summariseMonth l) /\
    Heap.obj_monthlyMin s = monthlyMin (summariseMonth l) /\
    h' !! a = Some (days (summariseMonth l)) /\
    forall b, b <> a -> h' !! b = h !! b.
Proof.
  intros Ha. unfold Heap.summariseMonth. rewrite Ha.
  eexists _, _. split; [reflexivity|]. simpl.
  repeat split; try reflexivity.
  - apply lookup_insert_eq.
  - intros b Hb. now apply lookup_insert_ne.
Qed.

(** The claim as the specification words it fails: the array passed in
    is reordered by the call. *)
Lemma summariseMonth_mutates_argument :
  exists h' s,
    Heap.summariseMonth sample_store 1%positive = Some (h', s) /\
    sample_store !! 1%positive = Some [jan2; jan1] /\
    h' !! 1%positive = Some [jan1; jan2] /\
    h' !! 1%positive <> sample_store !! 1%positive.
Proof.
  assert (H : sample_store !! 1%positive = Some [jan2; jan1])
    by apply lookup_singleton_eq.
  destruct (heap_summariseMonth_spec sample_store 1%positive _ H)
    as (h' & s & Hs & _ & _ & _ & Hsorted & _).
  exists h', s. split; [exact Hs|]. split; [exact H|].
  split; [exact Hsorted|]. rewrite Hsorted, H. vm_compute. discriminate.
Qed.

(** C3, as the code has it.  [summariseMonth] sorts the array it is
    given in place: that array then holds its records in ascending
    order of date, is what [days] refers to, and no other array is
    touched.
    drawCells calls it on a fresh copy [[...monthData]], so after the
    call the grouped array [monthData], like every array that existed
    before, has the same elements in the same order, while the copy
    holds the sorted records; the sort is a stable rearrangement of the
    input. *)
Theorem summarise_copy_preserves_caller (h : Heap.store)
  (monthData : Heap.ref) (l : list DailyRecord) :
  h !! monthData = Some l ->
  (exists h1 s1,
     Heap.summariseMonth h monthData = Some (h1, s1) /\
     Heap.obj_days s1 = monthData /\
     h1 !! monthData = Some (days (summariseMonth l)) /\
     (forall b, b <> monthData -> h1 !! b = h !! b)) /\
  (exists h' s,
     Heap.summarise_copy h monthData = Some (h', s) /\
     h' !! monthData = Some l /\
     (forall b, b ∈ dom h -> h' !! b = h !! b) /\
     (Heap.obj_days s ∉ dom h) /\
     h' !! Heap.obj_days s = Some (days (summariseMonth l))) /\
  days (summariseMonth l) ≡ₚ l /\
  (forall t, same_date t (days (summariseMonth l)) = same_date t l).
Proof.
  intros Hl. split; [|split; [|split]].
  - destruct (heap_summariseMonth_spec h monthData l Hl)
      as (h1 & s1 & Hs & Hd & _ & _ & Hsorted & Hother).
    exists h1, s1. auto.
  - unfold Heap.summarise_copy, Heap.spread. rewrite Hl.
    set (b := fresh (dom h)).
    assert (Hb : b ∉ dom h) by apply is_fresh.
    assert (Hold : forall c, c ∈ dom h -> c <> b)
      by (intros c Hc ->; contradiction).
    destruct (heap_summariseMonth_spec (<[b := l]> h) b l)
      as (h' & s & Hs & Hd & _ & _ & Hsorted & Hother);
      [apply lookup_insert_eq|].
    exists h', s. split; [exact Hs|]. rewrite Hd.
    split; [|split; [|split; [exact Hb|exact Hsorted]]].
    + assert (Hm : monthData <> b) by (apply Hold, elem_of_dom; eauto).
      rewrite Hother by exact Hm. rewrite lookup_insert_ne by auto. exact Hl.
    + intros c Hc. rewrite Hother by now apply Hold.
      apply lookup_insert_ne. intros E. now apply (Hold c Hc).
  - apply summariseMonth_perm.
  - intros t. apply summariseMonth_stable.
Qed.

Lemma summarise_copy_preserves_caller_witness :
  sample_store !! 1%positive = Some [jan2; jan1] /\
  exists h' s,
    Heap.summarise_copy sample_store 1%positive = Some (h', s) /\
    h' !! 1%positive = Some [jan2; jan1] /\
    (forall b, b ∈ dom sample_store -> h' !! b = sample_store !! b) /\
    (Heap.obj_days s ∉ dom sample_store) /\
    h' !! Heap.obj_days s = Some (days (summariseMonth [jan2; jan1])).
Proof.
  assert (H : sample_store !! 1%positive = Some [jan2; jan1])
    by apply lookup_singleton_eq.
  split; [exact H|].
  exact (proj1 (proj2
    (summarise_copy_preserves_caller sample_store 1%positive [jan2; jan1] H))).
Defined.

(* ===================================================================== *)
(** ** Data loading                                                       *)
(* ===================================================================== *)

(** ** Decimal digits *)

Lemma digits_of_fuel (f1 f2 : nat) (n : N) :
  (n < 2 ^ N.of_nat (S f1))%N -> (n < 2 ^ N.of_nat (S f2))%N ->
  digits_of (S f1) n = digits_of (S f2) n.
Proof.
  revert f2 n. induction f1 as [|f1 IH]; intros f2 n H1 H2.
  - change (2 ^ N.of_nat 1)%N with 2%N in H1. simpl.
    destruct (N.ltb_spec n 10); [reflexivity|lia].
  - change (digits_of (S (S f1)) n)
      with (if (n <? 10)%N then [n]
            else digits_of (S f1) (n / 10)%N ++ [(n mod 10)%N]).
    change (digits_of (S f2) n)
      with (if (n <? 10)%N then [n]
            else digits_of f2 (n / 10)%N ++ [(n mod 10)%N]).
    destruct (N.ltb_spec n 10) as [Hlt|Hge]; [reflexivity|].
    destruct f2 as [|f2].
    { change (2 ^ N.of_nat 1)%N with 2%N in H2. lia. }
    rewrite Nat2N.inj_succ, N.pow_succ_r' in H1, H2.
    assert (Hd : (n / 10 <= n / 2)%N) by (apply N.div_le_compat_l; lia).
    assert (Hh1 : (n / 2 < 2 ^ N.of_nat (S f1))%N)
      by (apply N.Div0.div_lt_upper_bound; lia).
    assert (Hh2 : (n / 2 < 2 ^ N.of_nat (S f2))%N)
      by (apply N.Div0.div_lt_upper_bound; lia).
    f_equal. apply IH; lia.
Qed.

Lemma log2_fuel (n : N) : (n < 2 ^ N.of_nat (S (N.to_nat (N.log2 n))))%N.
Proof.
  rewrite Nat2N.inj_succ, N2Nat.id.
  destruct (N.eq_dec n 0%N) as [->|Hn]; [reflexivity|].
  apply N.log2_spec. lia.
Qed.

Lemma decimal_digits_small (n : N) : (n < 10)%N -> decimal_digits n = [n].
Proof.
  intros H. unfold decimal_digits. simpl.
  destruct (N.ltb_spec n 10); [reflexivity|lia].
Qed.

Lemma decimal_digits_step (n : N) :
  (10 <= n)%N ->
  decimal_digits n = decimal_digits (n / 10) ++ [(n mod 10)%N].
Proof.
  intros H. unfold decimal_digits at 1. simpl.
  destruct (N.ltb_spec n 10); [lia|].
  f_equal.
  assert (Hlog : (1 <= N.log2 n)%N).
  { change 1%N with (N.log2 2). apply N.log2_le_mono. lia. }
  destruct (N.to_nat (N.log2 n)) as [|k] eqn:Hk; [lia|].
  apply digits_of_fuel; [|apply log2_fuel].
  pose proof (log2_fuel n) as Hf. rewrite Hk in Hf.
  rewrite Nat2N.inj_succ, N.pow_succ_r' in Hf.
  assert (n / 10 <= n / 2)%N by (apply N.div_le_compat_l; lia).
  assert (n / 2 < 2 ^ N.of_nat (S k))%N
    by (apply N.Div0.div_lt_upper_bound; lia).
  lia.
Qed.

Lemma decimal_digits_nonempty (n : N) : decimal_digits n <> [].
Proof.
  unfold decimal_digits. simpl. destruct (n <? 10)%N; [discriminate|].
  intros H. apply app_eq_nil in H as [_ H]. discriminate.
Qed.

Lemma decimal_digits_bound (n : N) : Forall (fun d => (d < 10)%N) (decimal_digits n).
Proof.
  induction n as [n IH] using (well_founded_induction N.lt_wf_0).
  destruct (N.ltb_spec n 10) as [Hlt|Hge].
  - rewrite decimal_digits_small by exact Hlt. now constructor.
  - rewrite decimal_digits_step by exact Hge.
    apply Forall_app. split.
    + apply IH. apply N.div_lt; lia.
    + constructor; [|constructor]. apply N.mod_lt. lia.
Qed.

Lemma lex_compare_snoc (l1 l2 : list N) (a b : N) :
  length l1 = length l2 ->
  lex_compare (l1 ++ [a]) (l2 ++ [b])
  = match lex_compare l1 l2 with Eq => (a ?= b)%N | c => c end.
Proof.
  revert l2. induction l1 as [|x l1 IH]; intros [|y l2] Hlen; try discriminate.
  - simpl. destruct (a ?= b)%N; reflexivity.
  - simpl in *. destruct (x ?= y)%N; try reflexivity. apply IH. lia.
Qed.

Lemma compare_div_mod (a b : N) :
  (a ?= b)%N
  = match (a / 10 ?= b / 10)%N with
    | Eq => (a mod 10 ?= b mod 10)%N
    | c => c
    end.
Proof.
  pose proof (N.div_mod' a 10) as Ha. pose proof (N.div_mod' b 10) as Hb.
  assert (a mod 10 < 10)%N by (apply N.mod_lt; lia).
  assert (b mod 10 < 10)%N by (apply N.mod_lt; lia).
  generalize dependent (a mod 10)%N. generalize dependent (b mod 10)%N.
  generalize dependent (a / 10)%N. generalize dependent (b / 10)%N.
  intros qb qa rb Hb Hrb ra Ha Hra.
  destruct (N.compare_spec qa qb) as [E|L|G].
  - destruct (N.compare_spec ra rb);
      [apply N.compare_eq_iff|apply N.compare_lt_iff|apply N.compare_gt_iff]; lia.
  - apply N.compare_lt_iff. lia.
  - apply N.compare_gt_iff. lia.
Qed.

Lemma num_digits_small (n : N) : (n < 10)%N <-> num_digits n = 1%nat.
Proof.
  unfold num_digits. split; intros H.
  - now rewrite decimal_digits_small.
  - destruct (N.ltb_spec n 10) as [Hlt|Hge]; [exact Hlt|].
    rewrite decimal_digits_step, length_app in H by exact Hge. simpl in H.
    pose proof (decimal_digits_nonempty (n / 10)) as Hne.
    destruct (decimal_digits (n / 10)); [congruence|simpl in H; lia].
Qed.

(** Numbers with as many digits compare like their digit sequences. *)
Lemma digits_compare (a b : N) :
  num_digits a = num_digits b ->
  lex_compare (decimal_digits a) (decimal_digits b) = (a ?= b)%N.
Proof.
  revert b. induction a as [a IH] using (well_founded_induction N.lt_wf_0).
  intros b Hlen.
  destruct (N.ltb_spec a 10) as [Ha|Ha].
  - assert (Hb : (b < 10)%N).
    { apply num_digits_small. rewrite <- Hlen. now apply num_digits_small. }
    rewrite !decimal_digits_small by assumption. simpl.
    destruct (a ?= b)%N; reflexivity.
  - assert (Hb : (10 <= b)%N).
    { destruct (N.ltb_spec b 10) as [Hb|Hb]; [|exact Hb].
      apply num_digits_small in Hb. rewrite <- Hlen in Hb.
      apply num_digits_small in Hb. lia. }
    unfold num_digits in Hlen.
    rewrite (decimal_digits_step a), (decimal_digits_step b) in * by assumption.
    rewrite !length_app in Hlen. simpl in Hlen.
    rewrite lex_compare_snoc by lia.
    rewrite IH; [symmetry; apply compare_div_mod| |unfold num_digits; lia].
    apply N.div_lt; lia.
Qed.

Lemma digit_char_compare (a b : N) :
  (a < 10)%N -> (b < 10)%N ->
  Ascii.compare (digit_char a) (digit_char b) = (a ?= b)%N.
Proof.
  intros Ha Hb. unfold Ascii.compare, digit_char.
  rewrite !N_ascii_embedding by lia.
  destruct (N.compare_spec a b);
    [apply N.compare_eq_iff|apply N.compare_lt_iff|apply N.compare_gt_iff]; lia.
Qed.

Lemma string_compare_digits (l1 l2 : list N) :
  Forall (fun d => (d < 10)%N) l1 -> Forall (fun d => (d < 10)%N) l2 ->
  String.compare (string_of_list_ascii (map digit_char l1))
                 (string_of_list_ascii (map digit_char l2))
  = lex_compare l1 l2.
Proof.
  intros H1. revert l2. induction H1 as [|x l1 Hx H1 IH]; intros l2 H2.
  - destruct H2; reflexivity.
  - destruct H2 as [|y l2 Hy H2]; [reflexivity|].
    simpl. rewrite digit_char_compare by assumption.
    destruct (x ?= y)%N; try reflexivity. now apply IH.
Qed.

Lemma toString_compare (x y : N) :
  num_digits x = num_digits y ->
  String.compare (Number_toString x) (Number_toString y) = (x ?= y)%N.
Proof.
  intros H. unfold Number_toString.
  rewrite string_compare_digits by apply decimal_digits_bound.
  now apply digits_compare.
Qed.

(** On numbers with as many digits the default comparison has the sign
    of the difference. *)
Lemma default_compare_numeric (x y : N) :
  num_digits x = num_digits y ->
  (default_compare x y <=? 0) = (Z.of_N x - Z.of_N y <=? 0).
Proof.
  intros H. unfold default_compare, String.ltb.
  rewrite (toString_compare x y H), (toString_compare y x (eq_sym H)).
  rewrite (N.compare_antisym x y).
  destruct (N.compare_spec x y) as [E|L|G]; simpl; symmetry;
    [apply Z.leb_le|apply Z.leb_le|apply Z.leb_gt]; lia.
Qed.

(** ** Distinct years and the window *)

Lemma Set_add_elem (s : list N) (x y : N) :
  y ∈ Set_add s x <-> y ∈ s \/ y = x.
Proof.
  unfold Set_add. case_bool_decide; [|set_solver].
  split; [auto|]. intros [?| ->]; assumption.
Qed.

Lemma fold_Set_add_elem (l acc : list N) (y : N) :
  y ∈ fold_left Set_add l acc <-> y ∈ acc \/ y ∈ l.
Proof.
  revert acc. induction l as [|x l IH]; intros acc; simpl.
  - set_solver.
  - rewrite IH, Set_add_elem. set_solver.
Qed.

Lemma Set_from_elem (l : list N) (y : N) : y ∈ Set_from l <-> y ∈ l.
Proof. unfold Set_from. rewrite fold_Set_add_elem. set_solver. Qed.

Lemma fold_Set_add_NoDup (l acc : list N) :
  NoDup acc -> NoDup (fold_left Set_add l acc).
Proof.
  revert acc. induction l as [|x l IH]; intros acc Hacc; simpl; [exact Hacc|].
  apply IH. unfold Set_add. case_bool_decide; [exact Hacc|].
  apply NoDup_app. repeat split; [exact Hacc| |apply NoDup_singleton].
  intros y Hy Hy'. apply list_elem_of_singleton in Hy'. now subst.
Qed.

Lemma Set_from_NoDup (l : list N) : NoDup (Set_from l).
Proof. apply fold_Set_add_NoDup. constructor. Qed.

Lemma allYears_elem (data : list DailyRecord) (y : N) :
  y ∈ allYears data <-> exists d, d ∈ data /\ year_of d = y.
Proof.
  unfold allYears. rewrite Array_sort_perm, Set_from_elem, list_elem_of_fmap.
  split; intros (d & H1 & H2); exists d; auto.
Qed.

Lemma allYears_NoDup (data : list DailyRecord) : NoDup (allYears data).
Proof.
  unfold allYears. rewrite Array_sort_perm. apply Set_from_NoDup.
Qed.

Lemma sorted_NoDup_ascending (l : list N) :
  StronglySorted (fun a b => Z.of_N a <= Z.of_N b) l -> NoDup l -> ascending l.
Proof.
  induction 1 as [|x l Hs IH Hall]; intros Hnd; [constructor|].
  apply NoDup_cons in Hnd as [Hx Hnd]. constructor; [now apply IH|].
  rewrite Forall_forall in *. intros y Hy. specialize (Hall y Hy).
  assert (x <> y) by (intros ->; contradiction). lia.
Qed.

Lemma ascending_app (l1 l2 : list N) :
  ascending (l1 ++ l2) ->
  ascending l2 /\ forall x y, x ∈ l1 -> y ∈ l2 -> (x < y)%N.
Proof.
  induction l1 as [|a l1 IH]; simpl; intros H.
  - split; [exact H|]. intros x y Hx. inversion Hx.
  - apply StronglySorted_inv in H as [Hs Hall].
    destruct (IH Hs) as [H2 Hlt]. split; [exact H2|].
    intros x y Hx Hy. apply elem_of_cons in Hx as [->|Hx]; [|now apply Hlt].
    rewrite Forall_forall in Hall. apply Hall. set_solver.
Qed.

Lemma slice_last_most_recent (k : nat) (l : list N) :
  ascending l -> ascending (slice_last k l) /\ most_recent k (slice_last k l) l.
Proof.
  intros Hasc. unfold slice_last.
  rewrite <- (take_drop (length l - k) l) in Hasc.
  apply ascending_app in Hasc as [Hs Hlt]. split; [exact Hs|].
  repeat split.
  - rewrite length_drop. lia.
  - intros y Hy. rewrite <- (take_drop (length l - k) l). set_solver.
  - intros y z Hy Hz Hnz. apply Hlt; [|exact Hy].
    rewrite <- (take_drop (length l - k) l) in Hz. set_solver.
Qed.

Lemma allYears_numeric (data : list DailyRecord) :
  same_digit_count data ->
  allYears data
  = Array_sort (fun a b => Z.of_N a - Z.of_N b) (Set_from (map year_of data)).
Proof.
  intros Hsame. apply Array_sort_ext. intros x y Hx Hy.
  apply default_compare_numeric.
  apply Set_from_elem, list_elem_of_fmap in Hx as (d & -> & Hd).
  apply Set_from_elem, list_elem_of_fmap in Hy as (d' & -> & Hd').
  now apply Hsame.
Qed.

Lemma allYears_ascending (data : list DailyRecord) :
  same_digit_count data -> ascending (allYears data).
Proof.
  intros Hsame. apply sorted_NoDup_ascending; [|apply allYears_NoDup].
  rewrite allYears_numeric by exact Hsame.
  apply (Array_sort_sorted Z.of_N).
Qed.

(** With at most [YEARS_COUNT] distinct years, all of them are kept. *)
Lemma loadData_few_years (data : list DailyRecord) :
  (length (allYears data) <= YEARS_COUNT)%nat ->
  years (loadData data) = allYears data /\
  forall y, y ∈ years (loadData data) <-> exists d, d ∈ data /\ year_of d = y.
Proof.
  intros Hlen. assert (E : years (loadData data) = allYears data).
  { simpl. unfold slice_last.
    replace (length (allYears data) - YEARS_COUNT)%nat with 0%nat by lia.
    reflexivity. }
  split; [exact E|]. intros y. rewrite E. apply allYears_elem.
Qed.

(** The example of the specification: rows for 2010 to 2023. *)
Lemma loadData_2010_2023 :
  years (loadData (yearly years_2010_2023))
  = [2014; 2015; 2016; 2017; 2018; 2019; 2020; 2021; 2022; 2023]%N.
Proof. vm_compute. reflexivity. Qed.

Lemma same_digit_count_yearly (ys : list N) (k : nat) :
  forallb (fun y => Nat.eqb (num_digits y) k) ys = true ->
  same_digit_count (yearly ys).
Proof.
  intros H d d' Hd Hd'. rewrite forallb_forall in H.
  unfold yearly in *. apply list_elem_of_fmap in Hd as (y & -> & Hy).
  apply list_elem_of_fmap in Hd' as (y' & -> & Hy').
  apply list_elem_of_In in Hy, Hy'.
  apply H, Nat.eqb_eq in Hy. apply H, Nat.eqb_eq in Hy'.
  unfold year_of, new_year. simpl. congruence.
Qed.

(** C10.  [loadData] orders the distinct years with the default
    [sort], which compares them as strings.  When all years have the
    same number of decimal digits the result is in ascending numeric
    order and [slice(-YEARS_COUNT)] selects the most recent years; for
    the years 990 to 1000, whose digit counts differ, the order is not
    ascending and the window is not that of the most recent years. *)
Theorem loadData_default_sort (data : list DailyRecord) :
  same_digit_count data ->
  (ascending (allYears data) /\
   (forall y, y ∈ allYears data <-> exists d, d ∈ data /\ year_of d = y) /\
   years (loadData data) = slice_last YEARS_COUNT (allYears data) /\
   ascending (years (loadData data)) /\
   most_recent YEARS_COUNT (years (loadData data)) (allYears data))
  /\
  (exists data' : list DailyRecord,
     ~ same_digit_count data' /\
     num_digits 999 <> num_digits 1000 /\
     allYears data'
     = [1000; 990; 991; 992; 993; 994; 995; 996; 997; 998; 999]%N /\
     ~ ascending (allYears data') /\
     years (loadData data')
     = [990; 991; 992; 993; 994; 995; 996; 997; 998; 999]%N /\
     ~ most_recent YEARS_COUNT (years (loadData data')) (allYears data')).
Proof.
  intros Hsame. split.
  - pose proof (allYears_ascending data Hsame) as Hasc.
    destruct (slice_last_most_recent YEARS_COUNT _ Hasc) as [H1 H2].
    repeat split; try assumption; try apply H2; try apply allYears_elem.
  - exists (yearly years_990_1000).
    assert (Hall : allYears (yearly years_990_1000)
                   = [1000; 990; 991; 992; 993; 994; 995; 996; 997; 998; 999]%N)
      by (vm_compute; reflexivity).
    assert (Hyears : years (loadData (yearly years_990_1000))
                     = [990; 991; 992; 993; 994; 995; 996; 997; 998; 999]%N)
      by (vm_compute; reflexivity).
    split; [|split; [|split; [exact Hall|split; [|split; [exact Hyears|]]]]].
    + intros H. specialize (H (new_year 999) (new_year 1000)).
      assert (Hd : num_digits 999 = num_digits 1000).
      { apply H; in_list. }
      vm_compute in Hd. discriminate.
    + vm_compute. discriminate.
    + rewrite Hall. intros H. apply StronglySorted_inv in H as [_ H].
      apply Forall_inv in H. lia.
    + rewrite Hall, Hyears. intros (_ & _ & H).
      specialize (H 990%N 1000%N).
      assert (1000 < 990)%N; [|lia]. apply H; by_decision.
Qed.

Lemma loadData_default_sort_witness :
  same_digit_count (yearly years_2010_2023) /\
  ascending (allYears (yearly years_2010_2023)) /\
  most_recent YEARS_COUNT (years (loadData (yearly years_2010_2023)))
    (allYears (yearly years_2010_2023)).
Proof.
  assert (H : same_digit_count (yearly years_2010_2023))
    by (apply (same_digit_count_yearly _ 4); vm_compute; reflexivity).
  split; [exact H|].
  pose proof (proj1 (loadData_default_sort (yearly years_2010_2023) H)) as P.
  split; [apply P|apply P].
Defined.

(** C2 at the rows for the years 990 to 1000: the ten years selected
    are 990 to 999, in this order, although 1000 is among the years of
    the input; they are not the ten most recent ones. *)
Theorem loadData_window_990_1000 :
  years (loadData (yearly years_990_1000))
  = [990; 991; 992; 993; 994; 995; 996; 997; 998; 999]%N /\
  (exists d, d ∈ yearly years_990_1000 /\ year_of d = 1000%N) /\
  (1000%N ∉ years (loadData (yearly years_990_1000))) /\
  ~ most_recent YEARS_COUNT (years (loadData (yearly years_990_1000)))
      years_990_1000.
Proof.
  assert (Hyears : years (loadData (yearly years_990_1000))
                   = [990; 991; 992; 993; 994; 995; 996; 997; 998; 999]%N)
    by (vm_compute; reflexivity).
  assert (Hout : 1000%N ∉ years (loadData (yearly years_990_1000)))
    by (rewrite Hyears; by_decision).
  split; [exact Hyears|]. split; [|split; [exact Hout|]].
  - exists (new_year 1000). split; [|reflexivity].
    in_list.
  - intros (_ & _ & H). specialize (H 990%N 1000%N).
    assert (1000 < 990)%N; [|lia].
    apply H; [rewrite Hyears; by_decision|by_decision|exact Hout].
Qed.

(* ===================================================================== *)
(** ** Grouping and the array of cells                                    *)
(* ===================================================================== *)

Lemma group_push_lookup {A} (key : A -> N) (acc : gmap N (list A)) (v : A) (k : N) :
  group_push key acc v !! k
  = if (key v =? k)%N then Some (default [] (acc !! k) ++ [v]) else acc !! k.
Proof.
  unfold group_push. destruct (N.eqb_spec (key v) k) as [E|Hne].
  - subst k. destruct (acc !! key v) as [g|]; now rewrite lookup_insert_eq.
  - destruct (acc !! key v) as [g|]; now rewrite lookup_insert_ne.
Qed.

Lemma group_fold_lookup {A} (key : A -> N) (values : list A)
  (acc : gmap N (list A)) (k : N) :
  fold_left (group_push key) values acc !! k
  = match acc !! k, List.filter (fun v => (key v =? k)%N) values with
    | None, [] => None
    | o, l => Some (default [] o ++ l)
    end.
Proof.
  revert acc. induction values as [|v values IH]; intros acc.
  - simpl. destruct (acc !! k) as [g|]; [now rewrite app_nil_r|reflexivity].
  - cbn [fold_left List.filter]. rewrite IH, group_push_lookup.
    destruct (key v =? k)%N.
    + destruct (acc !! k) as [g|]; cbn; [rewrite <- app_assoc|]; reflexivity.
    + reflexivity.
Qed.

(** A group holds the values with its key, in input order; there is no
    group for a key that no value has. *)
Lemma group_by_lookup {A} (key : A -> N) (values : list A) (k : N) :
  group_by key values !! k
  = match List.filter (fun v => (key v =? k)%N) values with
    | [] => None
    | l => Some l
    end.
Proof.
  unfold group_by. rewrite group_fold_lookup, lookup_empty. reflexivity.
Qed.

Lemma d3_group_lookup (values : list DailyRecord) (y m : N) :
  d3_group values year_of month_of !! y ≫= (fun months => months !! m)
  = match records_of y m values with
    | [] => None
    | l => Some l
    end.
Proof.
  unfold d3_group, records_of. rewrite lookup_fmap, group_by_lookup.
  destruct (List.filter (fun d => (year_of d =? y)%N) values) as [|d l] eqn:E.
  - reflexivity.
  - cbn [fmap option_fmap option_map mbind option_bind].
    apply group_by_lookup.
Qed.

Lemma records_of_elem (y m : N) (values : list DailyRecord) (d : DailyRecord) :
  d ∈ records_of y m values <-> d ∈ values /\ year_of d = y /\ month_of d = m.
Proof.
  unfold records_of. rewrite !list_elem_of_In, !filter_In, !N.eqb_eq. tauto.
Qed.

Lemma month_cell_elem (nested : gmap N (gmap N (list DailyRecord)))
  (y m : N) (c : Cell) :
  c ∈ month_cell nested y m <->
  exists monthData,
    nested !! y ≫= (fun months => months !! m) = Some monthData /\
    c = mkCell y m (summariseMonth monthData).
Proof.
  unfold month_cell.
  destruct (nested !! y ≫= (fun months => months !! m)) as [l|].
  - rewrite list_elem_of_singleton. split.
    + intros ->. eauto.
    + intros (l' & E & ->). congruence.
  - split; [intros H; inversion H|intros (l' & E & _); discriminate].
Qed.

Lemma build_cells_elem (nested : gmap N (gmap N (list DailyRecord)))
  (ys : list N) (c : Cell) :
  c ∈ build_cells nested ys <->
  year c ∈ ys /\ month c ∈ d3_range MONTHS_COUNT /\
  exists monthData,
    nested !! year c ≫= (fun months => months !! month c) = Some monthData /\
    summary c = summariseMonth monthData.
Proof.
  unfold build_cells. rewrite list_elem_of_In, in_flat_map. split.
  - intros (y & Hy & Hc). apply in_flat_map in Hc as (m & Hm & Hc).
    apply list_elem_of_In, month_cell_elem in Hc as (l & E & ->). simpl.
    rewrite !list_elem_of_In. eauto.
  - intros (Hy & Hm & l & E & Hs). exists (year c).
    rewrite <- list_elem_of_In. split; [exact Hy|].
    apply in_flat_map. exists (month c). rewrite <- !list_elem_of_In.
    split; [exact Hm|]. apply month_cell_elem. exists l. split; [exact E|].
    destruct c; simpl in *; congruence.
Qed.

Lemma summariseMonth_nonempty (l : list DailyRecord) :
  l <> [] -> days (summariseMonth l) <> [].
Proof.
  intros Hne E. apply Hne. apply length_zero_iff_nil.
  rewrite <- (Array_sort_length by_date l).
  change (Array_sort by_date l) with (days (summariseMonth l)).
  now rewrite E.
Qed.

Lemma loadData_nested (data : list DailyRecord) :
  nested (loadData data) = d3_group (filtered data) year_of month_of.
Proof. reflexivity. Qed.

(** A cell of the array stands for a year of the window and a month
    that has rows; its summary is that of these rows. *)
Lemma loadData_cells (data : list DailyRecord) (c : Cell) :
  c ∈ build_cells (nested (loadData data)) (years (loadData data)) <->
  year c ∈ years (loadData data) /\
  month c ∈ d3_range MONTHS_COUNT /\
  records_of (year c) (month c) (filtered data) <> [] /\
  summary c = summariseMonth (records_of (year c) (month c) (filtered data)).
Proof.
  rewrite build_cells_elem, loadData_nested.
  split.
  - intros (Hy & Hm & l & E & Hs). rewrite d3_group_lookup in E.
    destruct (records_of (year c) (month c) (filtered data)) as [|d l'] eqn:R;
      [discriminate|].
    injection E as <-. repeat split; try assumption. discriminate.
  - intros (Hy & Hm & Hne & Hs). repeat split; try assumption.
    exists (records_of (year c) (month c) (filtered data)).
    split; [|exact Hs]. rewrite d3_group_lookup.
    destruct (records_of (year c) (month c) (filtered data)); congruence.
Qed.

Lemma filtered_elem (data : list DailyRecord) (d : DailyRecord) :
  d ∈ filtered data -> d ∈ data.
Proof.
  unfold filtered. rewrite !list_elem_of_In, filter_In. tauto.
Qed.

(* ===================================================================== *)
(** ** Integers as numbers                                                *)
(* ===================================================================== *)

Lemma digits2_pos_lower (m : positive) :
  2 ^ (Z.pos (digits2_pos m) - 1) <= Z.pos m.
Proof.
  induction m as [m IH|m IH|]; simpl digits2_pos; [| |simpl; lia].
  - rewrite Pos2Z.inj_succ. change (Z.pos m~1) with (2 * Z.pos m + 1).
    replace (Z.succ (Z.pos (digits2_pos m)) - 1)
      with (Z.succ (Z.pos (digits2_pos m) - 1)) by lia.
    rewrite Z.pow_succ_r by lia.
    generalize dependent (2 ^ (Z.pos (digits2_pos m) - 1)). intros; lia.
  - rewrite Pos2Z.inj_succ. change (Z.pos m~0) with (2 * Z.pos m).
    replace (Z.succ (Z.pos (digits2_pos m)) - 1)
      with (Z.succ (Z.pos (digits2_pos m) - 1)) by lia.
    rewrite Z.pow_succ_r by lia.
    generalize dependent (2 ^ (Z.pos (digits2_pos m) - 1)). intros; lia.
Qed.

Lemma digits2_pos_bound (m : positive) :
  Z.pos m < 2 ^ 53 -> Z.pos (digits2_pos m) <= 53.
Proof.
  intros Hm. pose proof (digits2_pos_lower m) as Hl.
  destruct (Z_le_gt_dec (Z.pos (digits2_pos m)) 53) as [?|Hgt]; [assumption|].
  assert (2 ^ 53 <= 2 ^ (Z.pos (digits2_pos m) - 1))
    by (apply Z.pow_le_mono_r; lia).
  lia.
Qed.

Lemma iter_xO_value (m k : positive) :
  Z.pos (Pos.iter xO m k) = Z.pos m * 2 ^ Z.pos k.
Proof.
  induction k as [|k IH] using Pos.peano_ind.
  - simpl. lia.
  - rewrite Pos.iter_succ.
    change (Z.pos (Pos.iter xO m k)~0) with (2 * Z.pos (Pos.iter xO m k)).
    rewrite IH, Pos2Z.inj_succ, Z.pow_succ_r by lia. lia.
Qed.

Lemma iter_xO_digits (m k : positive) :
  digits2_pos (Pos.iter xO m k) = (digits2_pos m + k)%positive.
Proof.
  induction k as [|k IH] using Pos.peano_ind.
  - simpl. lia.
  - rewrite Pos.iter_succ. simpl. rewrite IH. lia.
Qed.

(** A mantissa of 53 bits with an exponent between -52 and 0 is kept as
    it is by rounding. *)
Lemma binary_round_aux_exact (s : bool) (m : positive) (e : Z) :
  digits2_pos m = 53%positive -> -52 <= e <= 0 ->
  binary_round_aux prec emax s (Z.pos m) e loc_Exact = S754_finite s m e.
Proof.
  intros Hd He. unfold binary_round_aux, shr_fexp, fexp, emin, prec, emax.
  cbn [Zdigits2 shr_record_of_loc]. rewrite Hd.
  replace (Z.max (53 + e - 53) (3 - 1024 - 53) - e) with 0 by lia.
  cbn [shr shr_m loc_of_shr_record round_nearest_even Zdigits2
       shr_record_of_loc].
  rewrite Hd.
  replace (Z.max (53 + e - 53) (3 - 1024 - 53) - e) with 0 by lia.
  cbn [shr shr_m].
  destruct (Z.leb_spec e (1024 - 53)); [reflexivity|lia].
Qed.

(** The number for a positive integer below [2^53]: the integer itself,
    shifted to a mantissa of 53 bits. *)
Lemma of_Z_pos (s : bool) (m : positive) :
  Z.pos m < 2 ^ 53 ->
  exists (m' : positive) (e : Z),
    binary_round prec emax s m 0 = S754_finite s m' e /\
    -52 <= e <= 0 /\ Z.pos m' = Z.pos m * 2 ^ (- e).
Proof.
  intros Hm. pose proof (digits2_pos_bound m Hm) as Hd.
  unfold binary_round, shl_align, fexp, emin, prec, emax.
  replace (Z.max (Z.pos (digits2_pos m) + 0 - 53) (3 - 1024 - 53) - 0)
    with (Z.pos (digits2_pos m) - 53) by lia.
  destruct (Z.pos (digits2_pos m) - 53) as [|p|p] eqn:E; [|lia|].
  - exists m, 0. split; [|split; [lia|simpl; lia]].
    apply (binary_round_aux_exact s m 0); lia.
  - replace (Z.max (Z.pos (digits2_pos m) + 0 - 53) (3 - 1024 - 53))
      with (Z.neg p) by lia.
    exists (Pos.iter xO m p), (Z.neg p). split; [|split; [lia|]].
    + apply binary_round_aux_exact; [|lia]. rewrite iter_xO_digits. lia.
    + rewrite iter_xO_value. reflexivity.
Qed.

Lemma to_Z_exact (s : bool) (m m' : positive) (e : Z) :
  -52 <= e <= 0 -> Z.pos m' = Z.pos m * 2 ^ (- e) ->
  to_Z (S754_finite s m' e) = if s then - Z.pos m else Z.pos m.
Proof.
  intros He Hv. unfold to_Z.
  assert (Hval : (if e <? 0 then Z.pos m' / 2 ^ (- e) else Z.pos m' * 2 ^ e)
                 = Z.pos m).
  { destruct (Z.ltb_spec e 0).
    - rewrite Hv. apply Z.div_mul, Z.pow_nonzero; lia.
    - assert (e = 0) by lia. subst e. rewrite Hv. simpl. lia. }
  now rewrite Hval.
Qed.

(** Integers of magnitude below [2^53] are numbers, exactly. *)
Lemma to_Z_of_Z (z : Z) : - 2 ^ 53 < z < 2 ^ 53 -> to_Z (of_Z z) = z.
Proof.
  intros Hz. destruct z as [|m|m]; [reflexivity| |].
  - destruct (of_Z_pos false m) as (m' & e & E & He & Hv); [lia|].
    unfold of_Z. cbn [binary_normalize]. rewrite E.
    now rewrite (to_Z_exact false m m' e).
  - destruct (of_Z_pos true m) as (m' & e & E & He & Hv); [lia|].
    unfold of_Z. cbn [binary_normalize]. rewrite E.
    now rewrite (to_Z_exact true m m' e).
Qed.

Lemma of_Z_inj (a b : Z) :
  - 2 ^ 53 < a < 2 ^ 53 -> - 2 ^ 53 < b < 2 ^ 53 -> of_Z a = of_Z b -> a = b.
Proof.
  intros Ha Hb E. rewrite <- (to_Z_of_Z a Ha), <- (to_Z_of_Z b Hb). now rewrite E.
Qed.

(* ===================================================================== *)
(** ** Scales as drawAxes builds them                                     *)
(* ===================================================================== *)

Lemma fold_Set_add_fresh (l acc : list N) :
  NoDup (acc ++ l) -> fold_left Set_add l acc = acc ++ l.
Proof.
  revert acc. induction l as [|x l IH]; intros acc Hnd; simpl.
  - now rewrite app_nil_r.
  - assert (Hx : x ∉ acc).
    { apply NoDup_app in Hnd as (_ & Hd & _). intros Hin.
      apply (Hd x Hin). apply list_elem_of_here. }
    unfold Set_add at 2. rewrite bool_decide_eq_false_2 by exact Hx.
    rewrite IH; rewrite <- app_assoc; [reflexivity|exact Hnd].
Qed.

(** A list without repetition is the array of its own distinct values. *)
Lemma Set_from_distinct (l : list N) : NoDup l -> Set_from l = l.
Proof. intros H. unfold Set_from. now rewrite fold_Set_add_fresh. Qed.

Lemma years_NoDup (data : list DailyRecord) : NoDup (years (loadData data)).
Proof.
  simpl. unfold slice_last.
  apply (sublist_NoDup _ _ (allYears_NoDup data)), sublist_drop.
Qed.

Lemma xScale_domain (data : list DailyRecord) :
  band_domain (make_xScale (years (loadData data))) = years (loadData data).
Proof. apply Set_from_distinct, years_NoDup. Qed.

Lemma yScale_domain :
  band_domain make_yScale = [0; 1; 2; 3; 4; 5; 6; 7; 8; 9; 10; 11]%N.
Proof. reflexivity. Qed.

Lemma index_of_elem (x : N) (l : list N) :
  x ∈ l -> exists i, index_of x l = Some i /\ (i < length l)%nat.
Proof.
  induction l as [|y l IH]; intros Hin; [inversion Hin|].
  simpl. destruct (N.eqb_spec x y) as [->|Hne].
  - exists 0%nat. split; [reflexivity|lia].
  - apply elem_of_cons in Hin as [?|Hin]; [contradiction|].
    destruct (IH Hin) as (i & -> & Hi). exists (S i). split; [reflexivity|lia].
Qed.

Lemma band_values_length (s : ScaleBand) :
  length (band_values s) = length (band_domain s).
Proof.
  unfold band_values. destruct (band_reverse s);
    rewrite ?length_rev, length_map, length_seq; reflexivity.
Qed.

(** A band scale has a slot for every value of its domain. *)
Lemma band_apply_defined (s : ScaleBand) (d : N) :
  d ∈ band_domain s -> is_Some (band_apply s d).
Proof.
  intros Hin. unfold band_apply.
  destruct (index_of_elem d _ Hin) as (i & -> & Hi).
  apply lookup_lt_is_Some. now rewrite band_values_length.
Qed.

(* ===================================================================== *)
(** ** The grid                                                           *)
(* ===================================================================== *)

Lemma NoDup_flat_map {A B} (f : A -> list B) (l : list A) :
  NoDup l ->
  (forall x, NoDup (f x)) ->
  (forall x y b, x ∈ l -> y ∈ l -> b ∈ f x -> b ∈ f y -> x = y) ->
  NoDup (flat_map f l).
Proof.
  induction 1 as [|x l Hx Hnd IH]; intros Hf Hdisj; simpl; [constructor|].
  apply NoDup_app. split; [apply Hf|]. split.
  - intros b Hb Hb'. apply list_elem_of_In, in_flat_map in Hb' as (y & Hy & Hby).
    apply list_elem_of_In in Hy, Hby.
    assert (x = y) by (apply (Hdisj x y b); set_solver). subst. contradiction.
  - apply IH; [exact Hf|]. intros; eapply Hdisj; eauto; set_solver.
Qed.

Lemma month_cell_key (nested : gmap N (gmap N (list DailyRecord)))
  (y m : N) (c : Cell) :
  c ∈ month_cell nested y m -> cell_key c = (y, m).
Proof. intros (l & _ & ->)%month_cell_elem. reflexivity. Qed.

Lemma d3_range_NoDup (n : nat) : NoDup (d3_range n).
Proof.
  unfold d3_range. apply NoDup_fmap_2_strong; [|apply NoDup_seq].
  intros; lia.
Qed.

(** No two cells of the array stand for the same year and month. *)
Lemma build_cells_keys_NoDup (nested : gmap N (gmap N (list DailyRecord)))
  (ys : list N) :
  NoDup ys -> NoDup (map cell_key (build_cells nested ys)).
Proof.
  intros Hys. unfold build_cells.
  apply NoDup_fmap_2_strong.
  - intros c c' Hc Hc' Hk.
    apply build_cells_elem in Hc as (_ & _ & l & E & Hs).
    apply build_cells_elem in Hc' as (_ & _ & l' & E' & Hs').
    unfold cell_key in Hk. injection Hk as Hy Hm.
    rewrite Hy, Hm, E' in E. injection E as <-.
    destruct c, c'; simpl in *; congruence.
  - apply NoDup_flat_map; [exact Hys| |].
    + intros y. apply NoDup_flat_map; [apply d3_range_NoDup| |].
      * intros m. unfold month_cell.
        destruct (nested !! y ≫= _); [apply NoDup_singleton|constructor].
      * intros m m' c _ _ Hc Hc'.
        apply month_cell_key in Hc, Hc'. congruence.
    + intros y y' c _ _ Hc Hc'.
      apply list_elem_of_In, in_flat_map in Hc as (m & _ & Hc).
      apply list_elem_of_In, in_flat_map in Hc' as (m' & _ & Hc').
      apply list_elem_of_In, month_cell_key in Hc, Hc'. congruence.
Qed.

Section Scene.
Context {interpolator : Interpolator}.

(** What drawCells leaves for one cell: the group with its rectangle
    and its mini chart. *)
Lemma drawCells_map (sm : bool) (nested : gmap N (gmap N (list DailyRecord)))
  (ys : list N) (sc : Scales) (c : ScaleSequential) :
  drawCells sm nested ys sc c
  = map (fun d =>
           mkGroup "cell-group" d
             (band_apply (xScale sc) (year d), band_apply (yScale sc) (month d))
             (mkRect "cell" (bandwidth (xScale sc)) (bandwidth (yScale sc)) 2
                (cell_fill c sm d) None)
             (mini_chart (bandwidth (xScale sc)) (bandwidth (yScale sc)) d))
        (build_cells nested ys).
Proof.
  unfold drawCells, drawMiniCharts. rewrite map_map. reflexivity.
Qed.

Lemma recolour_layout (c : ScaleSequential) (sm : bool) (g : CellGroup) :
  group_layout (recolour c sm g) = group_layout g.
Proof. reflexivity. Qed.

Lemma toggleMode_layout (w : World) :
  map group_layout (svg_cells (toggleMode w)) = map group_layout (svg_cells w).
Proof.
  simpl. rewrite map_map. apply map_ext. intros g. apply recolour_layout.
Qed.

Lemma after_clicks_S (n : nat) (data : list DailyRecord) (label0 : string) :
  after_clicks (S n) data label0 = toggleMode (after_clicks n data label0).
Proof. reflexivity. Qed.

(** Clicks change neither the scales, nor the colour scale, nor the
    axes, nor the legend, nor the layout of the cells. *)
Lemma after_clicks_frame (n : nat) (data : list DailyRecord) (label0 : string) :
  scales (after_clicks n data label0) = scales (main data label0) /\
  colour (after_clicks n data label0) = colour (main data label0) /\
  svg_axes (after_clicks n data label0) = svg_axes (main data label0) /\
  svg_legend (after_clicks n data label0) = svg_legend (main data label0) /\
  map group_layout (svg_cells (after_clicks n data label0))
  = map group_layout (svg_cells (main data label0)).
Proof.
  induction n as [|n IH]; [repeat split|].
  rewrite after_clicks_S, toggleMode_layout. exact IH.
Qed.

Lemma after_clicks_showMax (n : nat) (data : list DailyRecord) (label0 : string) :
  showMax (after_clicks n data label0) = Nat.even n.
Proof.
  induction n as [|n IH]; [reflexivity|].
  rewrite after_clicks_S. cbn [showMax toggleMode]. rewrite IH.
  rewrite Nat.even_succ, <- Nat.negb_even. reflexivity.
Qed.

Lemma main_fill (data : list DailyRecord) (label0 : string) :
  fill_follows_mode (main data label0).
Proof.
  unfold fill_follows_mode. cbn [svg_cells main drawAxes colour showMax].
  rewrite drawCells_map. apply Forall_map, Forall_forall. reflexivity.
Qed.

Lemma toggleMode_fill (w : World) : fill_follows_mode (toggleMode w).
Proof.
  unfold fill_follows_mode. cbn [svg_cells toggleMode colour showMax].
  apply Forall_map, Forall_forall. reflexivity.
Qed.

Lemma after_clicks_fill (n : nat) (data : list DailyRecord) (label0 : string) :
  fill_follows_mode (after_clicks n data label0).
Proof.
  destruct n; [apply main_fill|rewrite after_clicks_S; apply toggleMode_fill].
Qed.


Lemma Forall2_of_maps {A B C} (f : A -> C) (g : B -> C) (l : list A) (k : list B) :
  map f l = map g k -> Forall2 (fun x y => f x = g y) l k.
Proof.
  revert k. induction l as [|x l IH]; intros [|y k] E; try discriminate.
  - constructor.
  - injection E as E1 E2. constructor; [exact E1|now apply IH].
Qed.

Lemma Forall2_and_r {A B} (P : A -> B -> Prop) (Q : B -> Prop)
  (l : list A) (k : list B) :
  Forall2 P l k -> Forall Q k -> Forall2 (fun x y => P x y /\ Q y) l k.
Proof.
  induction 1 as [|x y l k Hxy Hlk IH]; intros HQ; [constructor|].
  apply Forall_cons in HQ as [Hy HQ]. constructor; [split; assumption|now apply IH].
Qed.

Lemma main_scales (data : list DailyRecord) (label0 : string) :
  scales (main data label0)
  = mkScales (make_xScale (years (loadData data))) make_yScale.
Proof. reflexivity. Qed.

Lemma main_cells (data : list DailyRecord) (label0 : string) :
  svg_cells (main data label0)
  = drawCells true (nested (loadData data)) (years (loadData data))
      (mkScales (make_xScale (years (loadData data))) make_yScale)
      buildColourScale.
Proof. reflexivity. Qed.

(** The data bound to the cell groups are the elements of [cells], in
    order, whatever the number of clicks. *)
Lemma after_clicks_datums (n : nat) (data : list DailyRecord) (label0 : string) :
  map group_datum (svg_cells (after_clicks n data label0))
  = build_cells (nested (loadData data)) (years (loadData data)).
Proof.
  induction n as [|n IH].
  - change (after_clicks 0 data label0) with (main data label0).
    rewrite main_cells, drawCells_map, map_map. apply map_id.
  - rewrite after_clicks_S. cbn [svg_cells toggleMode]. rewrite map_map.
    rewrite <- IH. apply map_ext. reflexivity.
Qed.

Lemma after_clicks_layout (n : nat) (data : list DailyRecord) (label0 : string) :
  let sc := mkScales (make_xScale (years (loadData data))) make_yScale in
  Forall2
    (fun d g =>
       group_class g = "cell-group"%string /\
       group_datum g = d /\
       group_translate g
       = (band_apply (xScale sc) (year d), band_apply (yScale sc) (month d)) /\
       rect_class (group_rect g) = "cell"%string /\
       rect_width (group_rect g) = bandwidth (xScale sc) /\
       rect_height (group_rect g) = bandwidth (yScale sc) /\
       rect_rx (group_rect g) = 2 /\
       group_paths g
       = mini_chart (bandwidth (xScale sc)) (bandwidth (yScale sc)) d)
    (build_cells (nested (loadData data)) (years (loadData data)))
    (svg_cells (after_clicks n data label0)).
Proof.
  intros sc.
  destruct (after_clicks_frame n data label0) as (_ & _ & _ & _ & Hl).
  rewrite main_cells, drawCells_map, map_map in Hl.
  symmetry in Hl. apply Forall2_of_maps in Hl.
  eapply Forall2_impl; [exact Hl|]. intros d g E. cbn beta in E.
  unfold group_layout in E. cbn [group_class group_datum group_translate
    group_rect group_paths rect_class rect_width rect_height rect_rx] in E.
  pose proof (f_equal (fun t => fst (fst (fst (fst t)))) E) as E1.
  pose proof (f_equal (fun t => snd (fst (fst (fst t)))) E) as E2.
  pose proof (f_equal (fun t => snd (fst (fst t))) E) as E3.
  pose proof (f_equal (fun t => fst (fst (fst (snd (fst t))))) E) as E4.
  pose proof (f_equal (fun t => snd (fst (fst (snd (fst t))))) E) as E5.
  pose proof (f_equal (fun t => snd (fst (snd (fst t)))) E) as E6.
  pose proof (f_equal (fun t => snd (snd (fst t))) E) as E7.
  pose proof (f_equal snd E) as E8.
  cbn [fst snd] in E1, E2, E3, E4, E5, E6, E7, E8.
  repeat split; symmetry; assumption.
Qed.

(** The page for the two rows of January 2023: one cell, filled with
    the colour of 14 degrees; after a click, with that of 2 degrees and
    the label "Minimum". *)
Example january_page :
  map (fun g => (cell_key (group_datum g), rect_fill (group_rect g)))
      (svg_cells (main [jan2; jan1] "Maximum"))
  = [((2023%N, 0%N), apply_colour buildColourScale (Some (of_Z 14)))] /\
  map (fun g => (cell_key (group_datum g), rect_fill (group_rect g)))
      (svg_cells (toggleMode (main [jan2; jan1] "Maximum")))
  = [((2023%N, 0%N), apply_colour buildColourScale (Some (of_Z 2)))] /\
  mode_label (toggleMode (main [jan2; jan1] "Maximum")) = "Minimum"%string.
Proof. repeat split; vm_compute; reflexivity. Qed.

(** The colour scale of buildColourScale, spelt out: nothing for
    [undefined] and [NaN], otherwise the interpolator at
    [(x - TEMP_MIN) * (1 / (TEMP_MAX - TEMP_MIN))]. *)
Lemma buildColourScale_apply (x : option number) :
  apply_colour buildColourScale x
  = match x with
    | Some v =>
        if isNaN v then None
        else Some (interpolateYlOrRd
                     ((v - of_Z TEMP_MIN)
                      * (of_Z 1 / (of_Z TEMP_MAX - of_Z TEMP_MIN)))%num)
    | None => None
    end.
Proof.
  destruct x as [v|]; [|reflexivity].
  unfold apply_colour, sequential_apply. destruct (isNaN v); reflexivity.
Qed.

Lemma d3_range_elem (n : nat) (m : N) : m ∈ d3_range n <-> (m < N.of_nat n)%N.
Proof.
  unfold d3_range. rewrite list_elem_of_fmap. split.
  - intros (i & -> & Hi). apply list_elem_of_In, in_seq in Hi. lia.
  - intros Hm. exists (N.to_nat m). split; [lia|].
    apply list_elem_of_In, in_seq. lia.
Qed.

Lemma NoDup_map_eq {A B} (f : A -> B) (l : list A) (x y : A) :
  NoDup (map f l) -> x ∈ l -> y ∈ l -> f x = f y -> x = y.
Proof.
  induction l as [|a l IH]; intros Hnd Hx Hy E; [inversion Hx|].
  cbn [map] in Hnd. apply NoDup_cons in Hnd as [Ha Hnd].
  assert (Hf : forall z, z ∈ l -> f a = f z -> False).
  { intros z Hz Ez. apply Ha. rewrite Ez.
    apply list_elem_of_fmap. exists z. now split. }
  apply elem_of_cons in Hx as [->|Hx]; apply elem_of_cons in Hy as [->|Hy].
  - reflexivity.
  - destruct (Hf y Hy E).
  - destruct (Hf x Hx (eq_sym E)).
  - now apply IH.
Qed.

(** C4.  Whatever the number of clicks so far, the cell groups of the
    page are, one for one and in order, the elements of the array
    [cells], and [cells] has exactly one element for every year of the
    window and month index below twelve that has kept rows, with the
    summary of these rows, and no other element; so every such year
    and month has exactly one cell group on the page.  The group of a
    cell is translated to [(xScale(year), yScale(month))], both
    defined, its rectangle is [xScale.bandwidth()] wide and
    [yScale.bandwidth()] high and filled with the colour scale at
    [monthlyMax] when [showMax] holds and at [monthlyMin] otherwise,
    that is with the interpolator at
    [(v - TEMP_MIN) / (TEMP_MAX - TEMP_MIN)] for a field [v] that is a
    number, and with nothing otherwise.
    [xScale] is the band scale with the years of the window as domain,
    range [[0, CELL_WIDTH * years.length]] and padding 0.05, [yScale]
    the one with domain 0..11, range [[0, CELL_HEIGHT * 12]] and
    padding 0.05. *)
Theorem grid_cells (data : list DailyRecord) (label0 : string) (n : nat) :
  let ld := loadData data in
  let w := after_clicks n data label0 in
  let xs := xScale (scales w) in
  let ys := yScale (scales w) in
  (xs = scaleBand (years ld)
          (of_Z 0, of_Z (CELL_WIDTH * Z.of_nat (length (years ld)))) lit_0_05 /\
   band_domain xs = years ld /\
   band_paddingInner xs = lit_0_05 /\ band_paddingOuter xs = lit_0_05) /\
  (ys = scaleBand [0; 1; 2; 3; 4; 5; 6; 7; 8; 9; 10; 11]%N
          (of_Z 0, of_Z (CELL_HEIGHT * 12)) lit_0_05 /\
   band_domain ys = [0; 1; 2; 3; 4; 5; 6; 7; 8; 9; 10; 11]%N /\
   band_paddingInner ys = lit_0_05 /\ band_paddingOuter ys = lit_0_05) /\
  Forall2
    (fun d g =>
       group_datum g = d /\
       group_translate g = (band_apply xs (year d), band_apply ys (month d)) /\
       is_Some (band_apply xs (year d)) /\
       is_Some (band_apply ys (month d)) /\
       rect_width (group_rect g) = bandwidth xs /\
       rect_height (group_rect g) = bandwidth ys /\
       rect_fill (group_rect g)
       = apply_colour (colour w)
           (if showMax w then monthlyMax (summary d) else monthlyMin (summary d)) /\
       rect_fill (group_rect g)
       = match (if showMax w then monthlyMax (summary d)
                else monthlyMin (summary d)) with
         | Some v =>
             if isNaN v then None
             else Some (interpolateYlOrRd
                          ((v - of_Z TEMP_MIN)
                           * (of_Z 1 / (of_Z TEMP_MAX - of_Z TEMP_MIN)))%num)
         | None => None
         end)
    (build_cells (nested ld) (years ld)) (svg_cells w) /\
  NoDup (map cell_key (build_cells (nested ld) (years ld))) /\
  (forall c,
     c ∈ build_cells (nested ld) (years ld) <->
     year c ∈ years ld /\ (month c < 12)%N /\
     records_of (year c) (month c) (filtered data) <> [] /\
     summary c
     = summariseMonth (records_of (year c) (month c) (filtered data))) /\
  (forall y m,
     y ∈ years ld -> (m < 12)%N ->
     records_of y m (filtered data) <> [] ->
     exists g,
       g ∈ svg_cells w /\
       group_datum g
       = mkCell y m (summariseMonth (records_of y m (filtered data))) /\
       forall g', g' ∈ svg_cells w ->
                  cell_key (group_datum g') = (y, m) -> g' = g) /\
  (forall g, g ∈ svg_cells w ->
     year (group_datum g) ∈ years ld /\ (month (group_datum g) < 12)%N /\
     records_of (year (group_datum g)) (month (group_datum g)) (filtered data)
     <> [] /\
     summary (group_datum g)
     = summariseMonth
         (records_of (year (group_datum g)) (month (group_datum g))
            (filtered data))).
Proof.
  intros ld w xs ys.
  destruct (after_clicks_frame n data label0) as (Hsc & _).
  assert (Hxs : xs = make_xScale (years ld))
    by (unfold xs, w; now rewrite Hsc, main_scales).
  assert (Hys : ys = make_yScale)
    by (unfold ys, w; now rewrite Hsc, main_scales).
  assert (Hkeys : NoDup (map cell_key (build_cells (nested ld) (years ld))))
    by apply build_cells_keys_NoDup, years_NoDup.
  assert (Hcells : forall c,
     c ∈ build_cells (nested ld) (years ld) <->
     year c ∈ years ld /\ (month c < 12)%N /\
     records_of (year c) (month c) (filtered data) <> [] /\
     summary c
     = summariseMonth (records_of (year c) (month c) (filtered data))).
  { intros c. unfold ld. rewrite loadData_cells, d3_range_elem. reflexivity. }
  assert (Hdat : map group_datum (svg_cells w)
                 = build_cells (nested ld) (years ld))
    by apply after_clicks_datums.
  split; [|split; [|split; [|split; [exact Hkeys|split; [exact Hcells|split]]]]].
  - rewrite Hxs. split; [reflexivity|]. split; [apply xScale_domain|].
    split; reflexivity.
  - rewrite Hys. split; [reflexivity|]. split; [reflexivity|].
    split; reflexivity.
  - pose proof (after_clicks_layout n data label0) as Hl. cbn zeta in Hl.
    pose proof (after_clicks_fill n data label0) as Hf.
    pose proof (Forall2_and_r _ _ _ _ Hl Hf) as H2.
    assert (Hin : Forall (fun d => d ∈ build_cells (nested ld) (years ld))
                    (build_cells (nested ld) (years ld)))
      by (apply Forall_forall; auto).
    apply Forall2_flip in H2.
    pose proof (Forall2_and_r _ _ _ _ H2 Hin) as H3.
    apply Forall2_flip in H3.
    eapply Forall2_impl; [exact H3|].
    intros d g (((_ & Hdat' & Htr & _ & Hw & Hh & _) & Hfill) & Hd).
    cbn beta in *.
    apply build_cells_elem in Hd as (Hy & Hm & _).
    rewrite Hxs, Hys. split; [exact Hdat'|]. split; [exact Htr|].
    split; [|split; [|split; [exact Hw|split; [exact Hh|]]]].
    + apply band_apply_defined. unfold ld. now rewrite xScale_domain.
    + apply band_apply_defined. exact Hm.
    + assert (Hfill' : rect_fill (group_rect g)
                       = apply_colour (colour w)
                           (if showMax w then monthlyMax (summary d)
                            else monthlyMin (summary d)))
        by (rewrite Hfill, Hdat'; reflexivity).
      split; [exact Hfill'|]. rewrite Hfill'.
      replace (colour w) with buildColourScale
        by (symmetry; apply (after_clicks_frame n data label0)).
      apply buildColourScale_apply.
  - intros y m Hy Hm Hne.
    set (c := mkCell y m (summariseMonth (records_of y m (filtered data)))).
    assert (Hc : c ∈ build_cells (nested ld) (years ld))
      by (apply Hcells; cbn [year month summary c]; auto).
    rewrite <- Hdat in Hc.
    apply list_elem_of_fmap in Hc as (g & Hg & Hin).
    exists g. split; [exact Hin|]. split; [now rewrite <- Hg|].
    intros g' Hin' Hk.
    apply (NoDup_map_eq (fun g => cell_key (group_datum g)) (svg_cells w));
      [|exact Hin'|exact Hin|now rewrite Hk, <- Hg].
    rewrite <- Hdat, map_map in Hkeys. exact Hkeys.
  - intros g Hg. apply Hcells. rewrite <- Hdat.
    apply list_elem_of_fmap. exists g. now split.
Qed.

(* ===================================================================== *)
(** ** The mode toggle                                                    *)
(* ===================================================================== *)

(** C5.  From any state of the page, two calls of toggleMode in a row
    give [showMax] its value back, and the fill the second call
    computes for every cell is the colour of the field that was active
    before the first; on a page built by [main] and clicked any number
    of times, that is the fill every cell had before the two calls. *)
Theorem toggle_twice (w : World) :
  showMax (toggleMode (toggleMode w)) = showMax w /\
  map (fun g => rect_fill (group_rect g)) (svg_cells (toggleMode (toggleMode w)))
  = map (fun g => cell_fill (colour w) (showMax w) (group_datum g)) (svg_cells w) /\
  (forall (data : list DailyRecord) (label0 : string) (n : nat),
     map (fun g => rect_fill (group_rect g))
         (svg_cells (toggleMode (toggleMode (after_clicks n data label0))))
     = map (fun g => rect_fill (group_rect g))
           (svg_cells (after_clicks n data label0))).
Proof.
  assert (Hcomputed : forall v,
    map (fun g => rect_fill (group_rect g)) (svg_cells (toggleMode (toggleMode v)))
    = map (fun g => cell_fill (colour v) (showMax v) (group_datum g)) (svg_cells v)).
  { intros v. cbn [svg_cells toggleMode colour showMax].
    rewrite !map_map, negb_involutive. reflexivity. }
  split; [apply negb_involutive|]. split; [apply Hcomputed|].
  intros data label0 n. rewrite Hcomputed.
  pose proof (after_clicks_fill n data label0) as Hf.
  unfold fill_follows_mode in Hf. symmetry.
  apply map_ext_in. intros g Hg. rewrite Forall_forall in Hf.
  apply Hf. now apply list_elem_of_In.
Qed.

(** C6.  A call of toggleMode negates [showMax], sets the mode label
    to "Maximum" when [showMax] has become true and to "Minimum"
    otherwise, and gives every cell rectangle, through a transition of
    400 ms, the colour scale's value at the newly active field of its
    datum: at [monthlyMax] when [showMax] has become true, at
    [monthlyMin] otherwise.  On a page built by [main] that value is
    the interpolator at [(v - TEMP_MIN) / (TEMP_MAX - TEMP_MIN)] for a
    field [v] that is a number, and no fill otherwise.  The scales,
    the colour scale, the axes, the legend, and for every cell its
    datum (year, month, summary and days), position, size and
    mini-chart paths stay as they are, after one call and after any
    number of clicks. *)
Theorem toggle_frame (w : World) :
  showMax (toggleMode w) = negb (showMax w) /\
  mode_label (toggleMode w)
  = (if showMax (toggleMode w) then "Maximum" else "Minimum")%string /\
  scales (toggleMode w) = scales w /\
  colour (toggleMode w) = colour w /\
  svg_axes (toggleMode w) = svg_axes w /\
  svg_legend (toggleMode w) = svg_legend w /\
  map group_layout (svg_cells (toggleMode w)) = map group_layout (svg_cells w) /\
  Forall2
    (fun g g' =>
       rect_fill (group_rect g')
       = sequential_apply interpolateYlOrRd (colour w)
           (if negb (showMax w) then monthlyMax (summary (group_datum g))
            else monthlyMin (summary (group_datum g))) /\
       rect_fill (group_rect g')
       = cell_fill (colour w) (showMax (toggleMode w)) (group_datum g) /\
       rect_fill_transition (group_rect g') = Some 400)
    (svg_cells w) (svg_cells (toggleMode w)) /\
  (forall (data : list DailyRecord) (label0 : string) (n : nat),
     scales (after_clicks n data label0) = scales (main data label0) /\
     colour (after_clicks n data label0) = colour (main data label0) /\
     svg_axes (after_clicks n data label0) = svg_axes (main data label0) /\
     svg_legend (after_clicks n data label0) = svg_legend (main data label0) /\
     map group_layout (svg_cells (after_clicks n data label0))
     = map group_layout (svg_cells (main data label0))) /\
  (forall (data : list DailyRecord) (label0 : string) (n : nat),
     Forall
       (fun g' =>
          rect_fill (group_rect g')
          = match (if negb (showMax (after_clicks n data label0))
                   then monthlyMax (summary (group_datum g'))
                   else monthlyMin (summary (group_datum g'))) with
            | Some v =>
                if isNaN v then None
                else Some (interpolateYlOrRd
                             ((v - of_Z TEMP_MIN)
                              * (of_Z 1 / (of_Z TEMP_MAX - of_Z TEMP_MIN)))%num)
            | None => None
            end /\
          rect_fill_transition (group_rect g') = Some 400)
       (svg_cells (toggleMode (after_clicks n data label0)))).
Proof.
  repeat (split; [reflexivity|]).
  split; [apply toggleMode_layout|].
  split; [|split; [intros; apply after_clicks_frame|]].
  - cbn [svg_cells toggleMode showMax].
    apply Forall2_fmap_r, Forall_Forall2_diag, Forall_forall.
    intros g _. repeat split; reflexivity.
  - intros data label0 n.
    destruct (after_clicks_frame n data label0) as (_ & Hc & _).
    cbn [svg_cells toggleMode]. rewrite Forall_fmap. apply Forall_forall.
    intros g _. cbn [compose recolour group_rect group_datum transition_fill
                     rect_fill rect_fill_transition].
    split; [|reflexivity].
    unfold cell_fill. rewrite Hc.
    change (colour (main data label0)) with buildColourScale.
    apply buildColourScale_apply.
Qed.

(* ===================================================================== *)
(** ** Months without rows                                                *)
(* ===================================================================== *)

Lemma records_of_filtered_nil (data : list DailyRecord) (y m : N) :
  records_of y m data = [] -> records_of y m (filtered data) = [].
Proof.
  intros Hnil. destruct (records_of y m (filtered data)) as [|d l] eqn:E;
    [reflexivity|].
  assert (Hd : d ∈ records_of y m (filtered data))
    by (rewrite E; apply list_elem_of_here).
  apply records_of_elem in Hd as (Hd & Hy & Hm).
  apply filtered_elem in Hd.
  assert (Hin : d ∈ records_of y m data) by (apply records_of_elem; auto).
  rewrite Hnil in Hin. inversion Hin.
Qed.

(** C8.  When no row of the input falls in year [y] and month [m], the
    array [cells] has no element for [(y, m)] and the page shows no
    cell group for it, whatever the number of clicks; every element of
    [cells] and every cell group shown holds a non-empty [days]; and
    drawMiniCharts appends no path to a group whose [days] is empty. *)
Theorem no_cell_without_records (data : list DailyRecord) (label0 : string)
  (n : nat) (y m : N) :
  records_of y m data = [] ->
  (forall c, c ∈ build_cells (nested (loadData data)) (years (loadData data)) ->
     cell_key c <> (y, m)) /\
  (forall g, g ∈ svg_cells (after_clicks n data label0) ->
     cell_key (group_datum g) <> (y, m)) /\
  (forall c, c ∈ build_cells (nested (loadData data)) (years (loadData data)) ->
     days (summary c) <> []) /\
  (forall g, g ∈ svg_cells (after_clicks n data label0) ->
     days (summary (group_datum g)) <> []) /\
  (forall (bw bh : number) (d : Cell),
     days (summary d) = [] -> mini_chart bw bh d = []) /\
  (forall (bw bh : number) (gs : list CellGroup),
     Forall (fun g => days (summary (group_datum g)) = []) gs ->
     map group_paths (drawMiniCharts gs bw bh) = map group_paths gs).
Proof.
  intros Hnil.
  assert (Hkey : forall c,
    c ∈ build_cells (nested (loadData data)) (years (loadData data)) ->
    cell_key c <> (y, m)).
  { intros c Hc E. apply loadData_cells in Hc as (_ & _ & Hne & _).
    unfold cell_key in E. injection E as Ey Em. rewrite Ey, Em in Hne.
    apply Hne. now apply records_of_filtered_nil. }
  assert (Hdays : forall c,
    c ∈ build_cells (nested (loadData data)) (years (loadData data)) ->
    days (summary c) <> []).
  { intros c Hc. apply loadData_cells in Hc as (_ & _ & Hne & ->).
    now apply summariseMonth_nonempty. }
  assert (Hshown : forall g, g ∈ svg_cells (after_clicks n data label0) ->
    group_datum g ∈ build_cells (nested (loadData data)) (years (loadData data))).
  { intros g Hg. rewrite <- (after_clicks_datums n data label0).
    apply list_elem_of_fmap. exists g. split; [reflexivity|exact Hg]. }
  split; [exact Hkey|]. split; [intros g Hg; apply Hkey, Hshown, Hg|].
  split; [exact Hdays|]. split; [intros g Hg; apply Hdays, Hshown, Hg|].
  split.
  - intros bw bh d E. unfold mini_chart. now rewrite E.
  - intros bw bh gs Hall. unfold drawMiniCharts. rewrite map_map.
    apply map_ext_in. intros g Hg. cbn [group_paths].
    rewrite Forall_forall in Hall. apply list_elem_of_In in Hg.
    unfold mini_chart. rewrite (Hall g Hg). apply app_nil_r.
Qed.

(* ===================================================================== *)
(** ** The legend                                                         *)
(* ===================================================================== *)

(** C9.  The legend of the page is drawn with the colour scale the cell
    fills are computed with, the scale of buildColourScale over
    [[TEMP_MIN, TEMP_MAX]] = [[0, 40]]: its gradient, running from top to
    bottom, has the 11 stops [t = i / 10], [i = 0..10], the stop at [t]
    at offset [t * 100] percent with colour
    [colour(TEMP_MIN + (TEMP_MAX - TEMP_MIN) * t)]; its labels read
    "0 °C" at the top ([y = 10]) and "40 °C" at the bottom
    ([y = CELL_HEIGHT * 12]) of the bar; and the bar stands to the right
    of the grid, at [x = CELL_WIDTH * years.length + 30]. *)
Theorem legend_of_colour_scale (data : list DailyRecord) (label0 : string)
  (n : nat) :
  let w := after_clicks n data label0 in
  let yearCount := Z.of_nat (length (years (loadData data))) in
  colour w = buildColourScale /\
  seq_domain (colour w) = (of_Z 0, of_Z 40) /\
  fill_follows_mode w /\
  exists lg : Legend,
    svg_legend w = Some lg /\
    gradient_stops lg
    = map (fun i =>
             let t := (of_Z (Z.of_nat i) / of_Z 10)%num in
             mkStop (t * of_Z 100)%num
               (apply_colour (colour w)
                  (Some (of_Z TEMP_MIN + (of_Z TEMP_MAX - of_Z TEMP_MIN) * t)%num)))
          (seq 0 11) /\
    (10 <= length (gradient_stops lg))%nat /\
    gradient_from lg = ("0%", "0%")%string /\
    gradient_to lg = ("0%", "100%")%string /\
    bar_x lg = CELL_WIDTH * yearCount + 30 /\
    snd (band_range (xScale (scales w))) = of_Z (CELL_WIDTH * yearCount) /\
    bar_y lg = 0 /\
    bar_height lg = CELL_HEIGHT * 12 /\
    legend_labels lg
    = [ mkText "legend-label" (bar_x lg + bar_width lg + 5) 10 "0 °C";
        mkText "legend-label" (bar_x lg + bar_width lg + 5)
          (bar_y lg + bar_height lg) "40 °C" ].
Proof.
  intros w yearCount.
  destruct (after_clicks_frame n data label0) as (Hsc & Hc & _ & Hlg & _).
  fold w in Hsc, Hc, Hlg.
  split; [rewrite Hc; reflexivity|]. split; [rewrite Hc; reflexivity|].
  split; [apply after_clicks_fill|].
  exists (drawLegend buildColourScale (years (loadData data))).
  split; [rewrite Hlg; reflexivity|].
  rewrite Hsc, Hc.
  repeat (split; [reflexivity|]).
  split; [cbn; lia|].
  repeat (split; [reflexivity|]). reflexivity.
Qed.

(* ===================================================================== *)
(** ** The scales of the mini charts                                      *)
(* ===================================================================== *)

Lemma mini_chart_nonempty (bw bh : number) (d : Cell) :
  days (summary d) <> [] ->
  mini_chart bw bh d
  = [ mkPath "line-min" (days (summary d)) curveMonotoneX
        (line_points (xMini bw (days (summary d))) (yMini bh) min
           (days (summary d)));
      mkPath "line-max" (days (summary d)) curveMonotoneX
        (line_points (xMini bw (days (summary d))) (yMini bh) max
           (days (summary d))) ].
Proof.
  intros Hne. unfold mini_chart.
  destruct (days (summary d)) as [|x l]; [congruence|reflexivity].
Qed.

(** C7.  The local y-scale of a mini chart is [yMini(h)], which does
    not depend on the cell: its domain is [[TEMP_MIN, TEMP_MAX]] =
    [[0, 40]] and its range [[h - 4, 4]]; the local x-scale has domain
    [[0, days.length - 1]] and range [[4, w - 4]].  Every cell group of
    the page gets the paths of [mini_chart] for the one width and
    height [xScale.bandwidth()], [yScale.bandwidth()]; so for two cells
    with days of different lengths the paths are drawn with the same
    y-scale and with x-scales of different domains. *)
Theorem mini_chart_scales (bw bh : number) (d1 d2 : Cell) :
  days (summary d1) <> [] ->
  days (summary d2) <> [] ->
  length (days (summary d1)) <> length (days (summary d2)) ->
  Z.of_nat (length (days (summary d1))) < 2 ^ 53 ->
  Z.of_nat (length (days (summary d2))) < 2 ^ 53 ->
  (forall h : number,
     lin_domain (yMini h) = (of_Z TEMP_MIN, of_Z TEMP_MAX) /\
     lin_domain (yMini h) = (of_Z 0, of_Z 40) /\
     lin_range (yMini h) = ((h - of_Z 4)%num, of_Z 4)) /\
  (forall (w : number) (ds : list DailyRecord),
     lin_domain (xMini w ds) = (of_Z 0, of_Z (Z.of_nat (length ds) - 1)) /\
     lin_range (xMini w ds) = (of_Z 4, (w - of_Z 4)%num)) /\
  (forall d, d = d1 \/ d = d2 ->
     mini_chart bw bh d
     = [ mkPath "line-min" (days (summary d)) curveMonotoneX
           (line_points (xMini bw (days (summary d))) (yMini bh) min
              (days (summary d)));
         mkPath "line-max" (days (summary d)) curveMonotoneX
           (line_points (xMini bw (days (summary d))) (yMini bh) max
              (days (summary d))) ]) /\
  lin_domain (xMini bw (days (summary d1)))
  <> lin_domain (xMini bw (days (summary d2))) /\
  (forall (data : list DailyRecord) (label0 : string) (n : nat),
     Forall (fun g =>
               group_paths g
               = mini_chart
                   (bandwidth (xScale (scales (after_clicks n data label0))))
                   (bandwidth (yScale (scales (after_clicks n data label0))))
                   (group_datum g))
            (svg_cells (after_clicks n data label0))).
Proof.
  intros Hne1 Hne2 Hlen Hb1 Hb2.
  split; [intros h; repeat split|]. split; [intros w ds; repeat split|].
  split; [|split].
  - intros d [->| ->]; now apply mini_chart_nonempty.
  - cbn [lin_domain xMini]. intros E.
    assert (E' : of_Z (Z.of_nat (length (days (summary d1))) - 1)
                 = of_Z (Z.of_nat (length (days (summary d2))) - 1))
      by congruence.
    apply of_Z_inj in E'; lia.
  - intros data label0 n.
    destruct (after_clicks_frame n data label0) as (Hsc & _).
    rewrite Hsc, main_scales. cbn [xScale yScale].
    pose proof (after_clicks_layout n data label0) as Hl. cbn zeta in Hl.
    cbn [xScale yScale] in Hl.
    apply Forall2_Forall_r with (1 := Hl). apply Forall_forall.
    intros c _ g (_ & Hd & _ & _ & _ & _ & _ & Hp). now rewrite Hp, Hd.
Qed.

End Scene.

(* ===================================================================== *)
(** ** The theorems at sample data                                        *)
(* ===================================================================== *)

Lemma mini_chart_scales_witness :
  days (summary cell_jan) <> [] /\
  days (summary cell_feb) <> [] /\
  length (days (summary cell_jan)) <> length (days (summary cell_feb)) /\
  Z.of_nat (length (days (summary cell_jan))) < 2 ^ 53 /\
  Z.of_nat (length (days (summary cell_feb))) < 2 ^ 53 /\
  lin_domain (xMini (of_Z 95) (days (summary cell_jan)))
  <> lin_domain (xMini (of_Z 95) (days (summary cell_feb))).
Proof.
  assert (H1 : days (summary cell_jan) <> []) by discriminate.
  assert (H2 : days (summary cell_feb) <> []) by discriminate.
  assert (H3 : length (days (summary cell_jan))
               <> length (days (summary cell_feb))) by discriminate.
  assert (H4 : Z.of_nat (length (days (summary cell_jan))) < 2 ^ 53)
    by reflexivity.
  assert (H5 : Z.of_nat (length (days (summary cell_feb))) < 2 ^ 53)
    by reflexivity.
  repeat (split; [assumption|]).
  exact (proj1 (proj2 (proj2 (proj2
    (mini_chart_scales (interpolator := two_colours)
       (of_Z 95) (of_Z 66) cell_jan cell_feb H1 H2 H3 H4 H5))))).
Defined.

Lemma no_cell_without_records_witness :
  records_of 2023 1 [jan2; jan1] = [] /\
  forall g,
    g ∈ svg_cells (after_clicks (interpolator := two_colours) 1 [jan2; jan1]
                     "Maximum") ->
    cell_key (group_datum g) <> (2023%N, 1%N).
Proof.
  assert (H : records_of 2023 1 [jan2; jan1] = []) by reflexivity.
  split; [exact H|].
  exact (proj1 (proj2
    (no_cell_without_records (interpolator := two_colours)
       [jan2; jan1] "Maximum" 1 2023%N 1%N H))).
Defined.

(* ===================================================================== *)
(** ** Decimal strings and the default order                              *)
(* ===================================================================== *)

Lemma digits_value_snoc (l : list N) (d : N) :
  digits_value (l ++ [d]) = (10 * digits_value l + d)%N.
Proof. unfold digits_value. rewrite fold_left_app. reflexivity. Qed.

Lemma digits_value_decimal (n : N) : digits_value (decimal_digits n) = n.
Proof.
  induction n as [n IH] using (well_founded_induction N.lt_wf_0).
  destruct (N.ltb_spec n 10) as [Hlt|Hge].
  - rewrite decimal_digits_small by exact Hlt. unfold digits_value. simpl. lia.
  - rewrite decimal_digits_step, digits_value_snoc by exact Hge.
    rewrite IH by (apply N.div_lt; lia).
    symmetry. apply N.div_mod'.
Qed.

Lemma digit_char_inj (a b : N) :
  (a < 10)%N -> (b < 10)%N -> digit_char a = digit_char b -> a = b.
Proof.
  intros Ha Hb E. apply (f_equal N_of_ascii) in E. unfold digit_char in E.
  rewrite !N_ascii_embedding in E by lia. lia.
Qed.

Lemma map_digit_char_inj (l1 l2 : list N) :
  Forall (fun d => (d < 10)%N) l1 -> Forall (fun d => (d < 10)%N) l2 ->
  map digit_char l1 = map digit_char l2 -> l1 = l2.
Proof.
  intros H1. revert l2. induction H1 as [|x l1 Hx H1 IH]; intros l2 H2 E.
  - destruct l2; [reflexivity|discriminate].
  - destruct H2 as [|y l2 Hy H2]; [discriminate|].
    injection E as E1 E2. f_equal; [now apply digit_char_inj|now apply IH].
Qed.

Lemma Number_toString_inj (x y : N) :
  Number_toString x = Number_toString y -> x = y.
Proof.
  intros E. unfold Number_toString in E.
  apply (f_equal list_ascii_of_string) in E.
  rewrite !list_ascii_of_string_of_list_ascii in E.
  apply map_digit_char_inj in E; try apply decimal_digits_bound.
  rewrite <- (digits_value_decimal x), <- (digits_value_decimal y). now rewrite E.
Qed.

Lemma lex_compare_refl (l : list N) : lex_compare l l = Eq.
Proof.
  induction l as [|a l IH]; [reflexivity|]. simpl. now rewrite N.compare_refl.
Qed.

Lemma lex_compare_antisym (l1 l2 : list N) :
  lex_compare l2 l1 = CompOpp (lex_compare l1 l2).
Proof.
  revert l2. induction l1 as [|a l1 IH]; intros [|b l2]; try reflexivity.
  simpl. rewrite (N.compare_antisym a b).
  destruct (a ?= b)%N; simpl; auto.
Qed.

Lemma lex_compare_trans (l1 l2 l3 : list N) :
  lex_compare l1 l2 <> Gt -> lex_compare l2 l3 <> Gt -> lex_compare l1 l3 <> Gt.
Proof.
  revert l2 l3. induction l1 as [|a l1 IH]; intros [|b l2] [|c l3]; simpl;
    try congruence.
  destruct (N.compare_spec a b) as [E1|L1|G1]; try congruence;
    destruct (N.compare_spec b c) as [E2|L2|G2]; try congruence; intros H1 H2.
  - subst. rewrite N.compare_refl. eapply IH; eauto.
  - subst. destruct (N.compare_spec b c); [lia|congruence|lia].
  - subst. destruct (N.compare_spec a c); [lia|congruence|lia].
  - destruct (N.compare_spec a c); [lia|congruence|lia].
Qed.

Lemma default_compare_lex (x y : N) :
  default_compare x y <= 0
  <-> lex_compare (decimal_digits x) (decimal_digits y) <> Gt.
Proof.
  unfold default_compare, String.ltb, Number_toString.
  rewrite !string_compare_digits by apply decimal_digits_bound.
  rewrite (lex_compare_antisym (decimal_digits x) (decimal_digits y)).
  destruct (lex_compare (decimal_digits x) (decimal_digits y)); simpl;
    split; intros; try congruence; lia.
Qed.

Lemma string_le_trans (x y z : N) :
  string_le x y -> string_le y z -> string_le x z.
Proof.
  unfold string_le. rewrite !default_compare_lex. apply lex_compare_trans.
Qed.

Lemma string_le_total (x y : N) : string_le x y \/ string_le y x.
Proof.
  unfold string_le. rewrite !default_compare_lex.
  rewrite (lex_compare_antisym (decimal_digits x) (decimal_digits y)).
  destruct (lex_compare (decimal_digits x) (decimal_digits y)); simpl;
    [left|left|right]; congruence.
Qed.

(** The default comparison returns 0 for equal years only. *)
Lemma default_compare_zero (x y : N) : default_compare x y = 0 <-> x = y.
Proof.
  unfold default_compare, String.ltb. split.
  - intros H. apply Number_toString_inj, String.compare_eq_iff.
    rewrite (String.compare_antisym (Number_toString y) (Number_toString x)) in H.
    destruct (String.compare (Number_toString x) (Number_toString y));
      simpl in H; [reflexivity|discriminate|discriminate].
  - intros ->.
    assert (E : String.compare (Number_toString y) (Number_toString y) = Eq).
    { unfold Number_toString.
      rewrite string_compare_digits by apply decimal_digits_bound.
      apply lex_compare_refl. }
    now rewrite E.
Qed.

(** Insertion with a comparator that is a total preorder sorts. *)
Section SortTotal.
Context {A : Type} (c : A -> A -> Z).
Let le (a b : A) : Prop := c a b <= 0.
Hypothesis le_trans : forall a b d, le a b -> le b d -> le a d.
Hypothesis le_total : forall a b, le a b \/ le b a.

Lemma sort_insert_sorted_total (x : A) (l : list A) :
  StronglySorted le l -> StronglySorted le (sort_insert c x l).
Proof.
  induction 1 as [|y l Hs IH Hall]; simpl.
  - repeat constructor.
  - destruct (Z.leb_spec (c x y) 0) as [Hle|Hgt].
    + constructor; [now constructor|].
      constructor; [exact Hle|].
      eapply Forall_impl; [exact Hall|]. intros z Hz. now apply (le_trans x y z).
    + assert (Hyx : le y x) by (destruct (le_total x y) as [H|H]; [unfold le in H; lia|exact H]).
      constructor; [exact IH|].
      rewrite sort_insert_perm. constructor; [exact Hyx|exact Hall].
Qed.

Lemma Array_sort_sorted_total (l : list A) :
  StronglySorted le (Array_sort c l).
Proof.
  induction l as [|x l IH]; simpl; [constructor|now apply sort_insert_sorted_total].
Qed.
End SortTotal.

(** X1.  Whatever the years, [allYears] holds each distinct year of the
    input once, in ascending order of the decimal strings, and two
    years compare as equal only when they are the same year; so the
    order is strict. *)
Theorem allYears_string_sorted (data : list DailyRecord) :
  NoDup (allYears data) /\
  (forall y, y ∈ allYears data <-> exists d, d ∈ data /\ year_of d = y) /\
  StronglySorted (fun x y => string_le x y /\ x <> y) (allYears data) /\
  (forall x y, default_compare x y = 0 <-> x = y) /\
  (forall x y, Number_toString x = Number_toString y -> x = y).
Proof.
  split; [apply allYears_NoDup|]. split; [apply allYears_elem|].
  split; [|split; [apply default_compare_zero|apply Number_toString_inj]].
  pose proof (allYears_NoDup data) as Hnd.
  assert (Hs : StronglySorted string_le (allYears data))
    by (apply (Array_sort_sorted_total default_compare);
        [apply string_le_trans|apply string_le_total]).
  induction Hs as [|x l Hs IH Hall]; [constructor|].
  apply NoDup_cons in Hnd as [Hx Hnd]. constructor; [now apply IH|].
  rewrite Forall_forall in *. intros y Hy. split; [now apply Hall|].
  intros ->. contradiction.
Qed.

(* ===================================================================== *)
(** ** The window of years and the rows kept                              *)
(* ===================================================================== *)

Lemma Set_from_length_le (l : list N) : (length (Set_from l) <= length l)%nat.
Proof.
  unfold Set_from.
  assert (H : forall acc, (length (fold_left Set_add l acc) <= length acc + length l)%nat).
  { induction l as [|x l IH]; intros acc; simpl; [lia|].
    etransitivity; [apply IH|]. unfold Set_add.
    case_bool_decide; rewrite ?length_app; simpl; lia. }
  apply (H []).
Qed.

Lemma years_length (data : list DailyRecord) :
  length (years (loadData data))
  = Nat.min YEARS_COUNT (length (Set_from (map year_of data))).
Proof.
  cbn [years loadData]. unfold slice_last. rewrite length_drop.
  unfold allYears. rewrite Array_sort_length. lia.
Qed.

Lemma years_length_le (data : list DailyRecord) :
  (length (years (loadData data)) <= 10)%nat.
Proof. rewrite years_length. unfold YEARS_COUNT. lia. Qed.

(** X2.  The window [years] that loadData returns has no repetition, holds
    the last [YEARS_COUNT] of the distinct years, all of them when there
    are fewer, so never more than ten, and only years some row has; it
    is empty for an empty input only. *)
Theorem loadData_window (data : list DailyRecord) :
  NoDup (years (loadData data)) /\
  length (years (loadData data))
  = Nat.min YEARS_COUNT (length (Set_from (map year_of data))) /\
  (length (years (loadData data)) <= YEARS_COUNT)%nat /\
  (forall y, y ∈ years (loadData data) -> exists d, d ∈ data /\ year_of d = y) /\
  (years (loadData data) = [] <-> data = []).
Proof.
  pose proof (years_length data) as Hlen.
  split; [apply years_NoDup|]. split; [exact Hlen|]. split; [lia|]. split.
  - intros y Hy. apply allYears_elem.
    cbn [years loadData] in Hy. unfold slice_last in Hy.
    rewrite <- (take_drop (length (allYears data) - YEARS_COUNT) (allYears data)).
    apply elem_of_app. now right.
  - split.
    + intros E. rewrite E in Hlen. simpl in Hlen.
      destruct data as [|d data]; [reflexivity|].
      assert (Hin : year_of d ∈ Set_from (map year_of (d :: data)))
        by (apply Set_from_elem; simpl; apply list_elem_of_here).
      destruct (Set_from (map year_of (d :: data))); [inversion Hin|].
      unfold YEARS_COUNT in Hlen. simpl in Hlen. lia.
    + intros ->. reflexivity.
Qed.

Lemma head_ascending_le (l : list N) (s y : N) :
  ascending l -> head l = Some s -> y ∈ l -> (s <= y)%N.
Proof.
  intros Hasc Hs Hy. destruct l as [|x l]; [discriminate|].
  injection Hs as ->. apply StronglySorted_inv in Hasc as [_ Hall].
  apply elem_of_cons in Hy as [->|Hy]; [lia|].
  rewrite Forall_forall in Hall. specialize (Hall y Hy). lia.
Qed.

Lemma filtered_in_window (data : list DailyRecord) :
  same_digit_count data ->
  forall d, d ∈ filtered data
            <-> d ∈ data /\ year_of d ∈ years (loadData data).
Proof.
  intros Hsame.
  pose proof (allYears_ascending data Hsame) as Hasc.
  destruct (slice_last_most_recent YEARS_COUNT _ Hasc) as [Hwin (_ & Hsub & Hrecent)].
  change (slice_last YEARS_COUNT (allYears data)) with (years (loadData data))
    in Hwin, Hsub, Hrecent.
  intros d. unfold filtered. rewrite list_elem_of_In, filter_In, <- list_elem_of_In.
  split; intros [Hd H]; (split; [exact Hd|]).
  - destruct (head (years (loadData data))) as [s|] eqn:Hs; [|discriminate].
    simpl in H. apply N.leb_le in H.
    destruct (decide (year_of d ∈ years (loadData data))) as [Hin|Hout];
      [exact Hin|exfalso].
    assert (Hs' : s ∈ years (loadData data)).
    { destruct (years (loadData data)); [discriminate|].
      injection Hs as ->. apply list_elem_of_here. }
    assert (Hall : year_of d ∈ allYears data) by (apply allYears_elem; eauto).
    specialize (Hrecent s (year_of d) Hs' Hall Hout). lia.
  - destruct (head (years (loadData data))) as [s|] eqn:Hs.
    + simpl. apply N.leb_le. eapply head_ascending_le; eauto.
    + destruct (years (loadData data)); [inversion H|discriminate].
Qed.

(** X3.  When all years have as many digits, the rows loadData keeps
    (those with [year >= startYear]) are the rows whose year is in the
    window.  For rows of 999 and 1000 this fails: the window is
    [[1000, 999]], [startYear] is 1000, and the row of 999 is dropped
    although its year is selected. *)
Theorem filtered_is_window (data : list DailyRecord) :
  same_digit_count data ->
  (forall d, d ∈ filtered data
             <-> d ∈ data /\ year_of d ∈ years (loadData data)) /\
  (years (loadData (yearly years_999_1000)) = [1000; 999]%N /\
   filtered (yearly years_999_1000) = [new_year 1000]).
Proof.
  intros Hsame. split; [now apply filtered_in_window|].
  split; vm_compute; reflexivity.
Qed.

Lemma filtered_is_window_witness :
  same_digit_count (yearly years_2010_2023) /\
  forall d, d ∈ filtered (yearly years_2010_2023)
            <-> d ∈ yearly years_2010_2023
                /\ year_of d ∈ years (loadData (yearly years_2010_2023)).
Proof.
  assert (H : same_digit_count (yearly years_2010_2023))
    by (apply (same_digit_count_yearly _ 4); vm_compute; reflexivity).
  split; [exact H|].
  exact (proj1 (filtered_is_window (yearly years_2010_2023) H)).
Defined.

(* ===================================================================== *)
(** ** Rows and cells                                                     *)
(* ===================================================================== *)

(** X4.  The [days] of a cell are the kept rows of its year and month, no
    others; and every kept row whose year is in the window and whose
    month index is below 12 is among the [days] of the cell for its
    year and month. *)
Theorem cell_days (data : list DailyRecord) :
  (forall c d,
     c ∈ build_cells (nested (loadData data)) (years (loadData data)) ->
     (d ∈ days (summary c)
      <-> d ∈ filtered data /\ year_of d = year c /\ month_of d = month c)) /\
  (forall d,
     d ∈ filtered data ->
     year_of d ∈ years (loadData data) ->
     (month_of d < 12)%N ->
     exists c,
       c ∈ build_cells (nested (loadData data)) (years (loadData data)) /\
       cell_key c = (year_of d, month_of d) /\
       d ∈ days (summary c)).
Proof.
  split.
  - intros c d Hc. apply loadData_cells in Hc as (_ & _ & _ & ->).
    rewrite summariseMonth_perm. apply records_of_elem.
  - intros d Hd Hy Hm.
    set (c := mkCell (year_of d) (month_of d)
                (summariseMonth (records_of (year_of d) (month_of d) (filtered data)))).
    assert (Hrec : d ∈ records_of (year_of d) (month_of d) (filtered data))
      by (apply records_of_elem; auto).
    exists c. split; [|split; [reflexivity|]].
    + apply loadData_cells. cbn [year month summary c].
      split; [exact Hy|]. split; [now apply d3_range_elem|].
      split; [|reflexivity]. intros E. rewrite E in Hrec. inversion Hrec.
    + cbn [summary c]. now rewrite summariseMonth_perm.
Qed.

Lemma month_cell_keys_sublist (nested : gmap N (gmap N (list DailyRecord)))
  (y : N) (ms : list N) :
  map cell_key (flat_map (month_cell nested y) ms)
  `sublist_of` map (fun m => (y, m)) ms.
Proof.
  induction ms as [|m ms IH]; simpl; [constructor|].
  rewrite map_app. unfold month_cell at 1.
  destruct (nested !! y ≫= _); simpl.
  - now apply sublist_skip.
  - now apply sublist_cons.
Qed.

(** X5.  The cells come in row-major order, year after year in the order
    of the window and, within a year, by ascending month index: their
    keys are a sublist of the grid's keys; so there are at most twelve
    cells per year of the window and never more than 120 cell groups on
    the page. *)
Theorem cells_row_major (data : list DailyRecord) :
  map cell_key (build_cells (nested (loadData data)) (years (loadData data)))
  `sublist_of` grid_keys (years (loadData data)) /\
  (length (build_cells (nested (loadData data)) (years (loadData data)))
   <= 12 * length (years (loadData data)))%nat /\
  (length (build_cells (nested (loadData data)) (years (loadData data)))
   <= 120)%nat.
Proof.
  assert (Hsub : forall nested ys,
    map cell_key (build_cells nested ys) `sublist_of` grid_keys ys).
  { intros nested ys. unfold build_cells, grid_keys.
    induction ys as [|y ys IH]; cbn [flat_map map]; [constructor|].
    rewrite map_app. apply sublist_app; [apply month_cell_keys_sublist|exact IH]. }
  assert (Hlen : forall ys, length (grid_keys ys) = (12 * length ys)%nat).
  { intros ys. unfold grid_keys.
    induction ys as [|y ys IH]; cbn [flat_map]; [reflexivity|].
    rewrite length_app, IH, length_map. unfold d3_range.
    rewrite length_map, length_seq. unfold MONTHS_COUNT. cbn [length]. lia. }
  pose proof (Hsub (nested (loadData data)) (years (loadData data))) as H.
  pose proof (sublist_length _ _ H) as Hl. rewrite length_map, Hlen in Hl.
  pose proof (years_length_le data) as Hten.
  repeat split; [exact H|exact Hl|lia].
Qed.

(* ===================================================================== *)
(** ** No row is lost or drawn twice                                      *)
(* ===================================================================== *)

Lemma Permutation_of_eq {A} (x y : list A) : x = y -> x ≡ₚ y.
Proof. intros ->. reflexivity. Qed.

Lemma flat_map_filter_cons_out {A} (key : A -> N) (ks : list N) (a : A)
  (l : list A) :
  key a ∉ ks ->
  flat_map (fun k => List.filter (fun x => (key x =? k)%N) (a :: l)) ks
  = flat_map (fun k => List.filter (fun x => (key x =? k)%N) l) ks.
Proof.
  induction ks as [|k ks IH]; intros Hk; [reflexivity|].
  apply not_elem_of_cons in Hk as [Hne Hk]. cbn [flat_map].
  rewrite IH by exact Hk. f_equal. cbn [List.filter].
  now rewrite (proj2 (N.eqb_neq _ _) Hne).
Qed.

Lemma flat_map_filter_cons_in {A} (key : A -> N) (ks : list N) (a : A)
  (l : list A) :
  NoDup ks -> key a ∈ ks ->
  flat_map (fun k => List.filter (fun x => (key x =? k)%N) (a :: l)) ks
  ≡ₚ a :: flat_map (fun k => List.filter (fun x => (key x =? k)%N) l) ks.
Proof.
  induction ks as [|k ks IH]; intros Hnd Hin; [inversion Hin|].
  apply NoDup_cons in Hnd as [Hk Hnd]. cbn [flat_map].
  destruct (N.eq_dec (key a) k) as [E|Hne].
  - rewrite flat_map_filter_cons_out by (now rewrite E).
    cbn [List.filter]. now rewrite (proj2 (N.eqb_eq _ _) E).
  - apply elem_of_cons in Hin as [?|Hin]; [contradiction|].
    rewrite (IH Hnd Hin). cbn [List.filter].
    rewrite (proj2 (N.eqb_neq _ _) Hne). symmetry. apply Permutation_middle.
Qed.

Lemma flat_map_filter_key {A} (key : A -> N) (ks : list N) (l : list A) :
  NoDup ks ->
  flat_map (fun k => List.filter (fun x => (key x =? k)%N) l) ks
  ≡ₚ List.filter (fun x => bool_decide (key x ∈ ks)) l.
Proof.
  intros Hnd. induction l as [|a l IH].
  - clear Hnd. induction ks as [|k ks IHk]; [reflexivity|exact IHk].
  - destruct (decide (key a ∈ ks)) as [Hin|Hout].
    + rewrite flat_map_filter_cons_in, IH by assumption.
      cbn [List.filter]. now rewrite bool_decide_true.
    + rewrite flat_map_filter_cons_out, IH by assumption.
      cbn [List.filter]. now rewrite bool_decide_false.
Qed.

Lemma filter_comm {A} (p q : A -> bool) (l : list A) :
  List.filter p (List.filter q l) = List.filter q (List.filter p l).
Proof.
  induction l as [|a l IH]; [reflexivity|]. simpl.
  destruct (p a) eqn:Ep, (q a) eqn:Eq; simpl; rewrite ?Ep, ?Eq, IH; reflexivity.
Qed.

Lemma filter_filter {A} (p q : A -> bool) (l : list A) :
  List.filter p (List.filter q l) = List.filter (fun x => q x && p x) l.
Proof.
  induction l as [|a l IH]; [reflexivity|]. simpl.
  destruct (q a); simpl; [destruct (p a)|]; now rewrite IH.
Qed.

Lemma filter_all {A} (p : A -> bool) (l : list A) :
  Forall (fun x => p x = true) l -> List.filter p l = l.
Proof.
  induction 1 as [|a l Ha _ IH]; [reflexivity|]. simpl. now rewrite Ha, IH.
Qed.

Lemma month_cells_rows (values : list DailyRecord) (y : N) (ms : list N) :
  cell_rows (flat_map (month_cell (d3_group values year_of month_of) y) ms)
  ≡ₚ flat_map (fun m => records_of y m values) ms.
Proof.
  unfold cell_rows. induction ms as [|m ms IH]; [reflexivity|].
  cbn [flat_map]. rewrite List.flat_map_app. unfold month_cell at 1.
  rewrite d3_group_lookup.
  destruct (records_of y m values) as [|d l] eqn:E; [exact IH|].
  cbn [flat_map summary]. rewrite app_nil_r.
  apply Permutation_app; [apply summariseMonth_perm|exact IH].
Qed.

Lemma build_cells_rows (values : list DailyRecord) (ys : list N) :
  NoDup ys ->
  cell_rows (build_cells (d3_group values year_of month_of) ys)
  ≡ₚ List.filter (in_grid ys) values.
Proof.
  intros Hnd.
  transitivity
    (flat_map (fun y => List.filter (fun d => (year_of d =? y)%N)
                          (List.filter (fun d => bool_decide (month_of d ∈ d3_range MONTHS_COUNT))
                             values)) ys).
  - clear Hnd. unfold build_cells, cell_rows.
    induction ys as [|y ys IH]; [reflexivity|].
    cbn [flat_map]. rewrite List.flat_map_app.
    apply Permutation_app; [|exact IH].
    etransitivity; [apply month_cells_rows|].
    unfold records_of. rewrite flat_map_filter_key by apply d3_range_NoDup.
    apply Permutation_of_eq, filter_comm.
  - rewrite flat_map_filter_key by exact Hnd.
    apply Permutation_of_eq. rewrite filter_filter.
    apply filter_ext. intros d. unfold in_grid. apply andb_comm.
Qed.

(** X6.  No row is lost or drawn twice.  The [days] of all cells
    together are, up to order, the kept rows whose year is in the
    window and whose month index is below twelve, each as often as the
    input has it; so when all years have as many digits and all month
    indices are below twelve, the cells hold the kept rows, and the
    rows of the input with a year of the window, exactly. *)
Theorem rows_drawn_once (data : list DailyRecord) :
  let ld := loadData data in
  let cells := build_cells (nested ld) (years ld) in
  cell_rows cells ≡ₚ List.filter (in_grid (years ld)) (filtered data) /\
  (forall d, in_grid (years ld) d = true
             <-> year_of d ∈ years ld /\ (month_of d < 12)%N) /\
  (same_digit_count data ->
   Forall (fun d => (month_of d < 12)%N) data ->
   cell_rows cells ≡ₚ filtered data /\
   cell_rows cells
   ≡ₚ List.filter (fun d => bool_decide (year_of d ∈ years ld)) data).
Proof.
  intros ld cells.
  assert (Hgrid : forall d, in_grid (years ld) d = true
                            <-> year_of d ∈ years ld /\ (month_of d < 12)%N).
  { intros d. unfold in_grid.
    rewrite andb_true_iff, !bool_decide_eq_true, d3_range_elem. reflexivity. }
  assert (Hrows : cell_rows cells
                  ≡ₚ List.filter (in_grid (years ld)) (filtered data)).
  { unfold cells, ld. rewrite loadData_nested.
    apply build_cells_rows, years_NoDup. }
  split; [exact Hrows|]. split; [exact Hgrid|].
  intros Hsame Hmonths.
  pose proof (filtered_in_window data Hsame) as Hwin.
  rewrite Forall_forall in Hmonths.
  assert (Hkept : cell_rows cells ≡ₚ filtered data).
  { rewrite Hrows. apply Permutation_of_eq, filter_all, Forall_forall.
    intros d Hd. apply Hwin in Hd as [Hd Hy]. apply Hgrid. auto. }
  split; [exact Hkept|]. rewrite Hkept.
  apply Permutation_of_eq. unfold filtered at 1. apply List.filter_ext_in.
  intros d Hd. apply list_elem_of_In in Hd.
  specialize (Hwin d). unfold filtered in Hwin.
  rewrite list_elem_of_In, filter_In, <- list_elem_of_In in Hwin.
  fold ld in Hwin |- *.
  destruct (ge_start (year_of d) (head (years ld))) eqn:E; symmetry.
  - apply bool_decide_eq_true. now apply Hwin.
  - apply bool_decide_eq_false. intros Hy.
    assert (H : d ∈ data /\ false = true) by (apply Hwin; auto).
    destruct H as [_ H]. discriminate H.
Qed.

(* ===================================================================== *)
(** ** More on the aggregation                                            *)
(* ===================================================================== *)

Lemma leb_trans (x y z : number) :
  leb x y = true -> leb y z = true -> leb x z = true.
Proof. intros H1 H2. float_order. Qed.

Lemma leb_numeric (x y : number) : leb x y = true -> numeric x /\ numeric y.
Proof. unfold numeric. intros H. split; float_order. Qed.

(** X7.  When every record of a non-empty array has [min <= max], the
    monthly minimum is at most the monthly maximum. *)
Theorem monthly_min_le_max (ds : list DailyRecord) :
  ds <> [] ->
  Forall (fun d => leb (min d) (max d) = true) ds ->
  exists mn mx,
    monthlyMin (summariseMonth ds) = Some mn /\
    monthlyMax (summariseMonth ds) = Some mx /\
    leb mn mx = true.
Proof.
  intros Hne Hle.
  assert (Hnum : Forall numeric_record ds).
  { eapply Forall_impl; [exact Hle|]. intros d Hd.
    apply leb_numeric in Hd as [? ?]. now split. }
  destruct (d3_min_is_minimum ds min Hne) as (mn & Emn & _ & Hmn).
  { eapply Forall_impl; [exact Hnum|]. now intros d [_ ?]. }
  destruct (d3_max_is_maximum ds max Hne) as (mx & Emx & _ & Hmx).
  { eapply Forall_impl; [exact Hnum|]. now intros d [? _]. }
  exists mn, mx. split; [exact Emn|]. split; [exact Emx|].
  destruct ds as [|d ds]; [congruence|].
  apply Forall_cons in Hle as [Hd _].
  apply (leb_trans mn (min d)); [apply Hmn; simpl; apply list_elem_of_here|].
  apply (leb_trans (min d) (max d)); [exact Hd|].
  apply Hmx. simpl. apply list_elem_of_here.
Qed.

Lemma monthly_min_le_max_witness :
  [jan2; jan1] <> [] /\
  Forall (fun d => leb (min d) (max d) = true) [jan2; jan1] /\
  exists mn mx,
    monthlyMin (summariseMonth [jan2; jan1]) = Some mn /\
    monthlyMax (summariseMonth [jan2; jan1]) = Some mx /\
    leb mn mx = true.
Proof.
  assert (H1 : [jan2; jan1] <> []) by discriminate.
  assert (H2 : Forall (fun d => leb (min d) (max d) = true) [jan2; jan1])
    by (repeat constructor).
  split; [exact H1|]. split; [exact H2|].
  exact (monthly_min_le_max [jan2; jan1] H1 H2).
Defined.

Lemma Array_sort_fix {A} (key : A -> Z) (l : list A) :
  StronglySorted (fun a b => key a <= key b) l ->
  Array_sort (fun a b => key a - key b) l = l.
Proof.
  intros Hs. apply (sorted_stable_unique key); [apply Array_sort_sorted|exact Hs|].
  intros k. apply Array_sort_stable.
Qed.

(** X8.  Sorting is idempotent.  Calling [summariseMonth] a second time
    on the array it has just sorted leaves the store as it is, and the
    [days] of the sorted days are these days again. *)
Theorem summariseMonth_twice (h : Heap.store) (a : Heap.ref)
  (l : list DailyRecord) :
  h !! a = Some l ->
  days (summariseMonth (days (summariseMonth l))) = days (summariseMonth l) /\
  exists h1 s1 s2,
    Heap.summariseMonth h a = Some (h1, s1) /\
    Heap.summariseMonth h1 a = Some (h1, s2) /\
    Heap.obj_days s1 = a /\ Heap.obj_days s2 = a /\
    h1 !! a = Some (days (summariseMonth l)).
Proof.
  intros Hl.
  assert (Hfix : days (summariseMonth (days (summariseMonth l)))
                 = days (summariseMonth l)).
  { apply (Array_sort_fix (fun d => valueOf (date d))), summariseMonth_sorted. }
  split; [exact Hfix|].
  destruct (heap_summariseMonth_spec h a l Hl)
    as (h1 & s1 & E1 & Hd1 & _ & _ & Hh1 & _).
  destruct (heap_summariseMonth_spec h1 a _ Hh1)
    as (h2 & s2 & E2 & Hd2 & _ & _ & Hh2 & Hother).
  assert (h2 = h1).
  { apply map_eq. intros b. destruct (decide (b = a)) as [->|Hb].
    - now rewrite Hh2, Hfix, Hh1.
    - now apply Hother. }
  subst h2. exists h1, s1, s2. auto.
Qed.

Lemma summariseMonth_twice_witness :
  sample_store !! 1%positive = Some [jan2; jan1] /\
  days (summariseMonth (days (summariseMonth [jan2; jan1])))
  = days (summariseMonth [jan2; jan1]).
Proof.
  assert (H : sample_store !! 1%positive = Some [jan2; jan1])
    by apply lookup_singleton_eq.
  split; [exact H|].
  exact (proj1 (summariseMonth_twice sample_store 1%positive [jan2; jan1] H)).
Defined.

(* ===================================================================== *)
(** ** Geometry of the band scales                                        *)
(* ===================================================================== *)

Lemma strictly_increasing_sound (l : list number) :
  strictly_increasing l = true ->
  StronglySorted (fun a b => ltb a b = true) l.
Proof.
  induction l as [|x l IH]; simpl; intros H; [constructor|].
  apply andb_prop in H as [H1 H2]. constructor; [now apply IH|].
  apply Forall_forall. intros y Hy. rewrite forallb_forall in H1.
  apply H1. now apply list_elem_of_In.
Qed.

Lemma bands_disjoint_sound (bw hi : number) (l : list number) :
  bands_disjoint bw hi l = true ->
  forall (i j : nat) (a b : number),
    (i < j)%nat -> l !! i = Some a -> l !! j = Some b ->
    leb (a + bw)%num b = true /\ leb (b + bw)%num hi = true.
Proof.
  induction l as [|x l IH]; intros H i j a b Hij Ha Hb; [discriminate|].
  cbn [bands_disjoint] in H.
  apply andb_prop in H as [H12 H3]. apply andb_prop in H12 as [H1 H2].
  assert (Hend : forall k c, l !! k = Some c -> leb (c + bw)%num hi = true).
  { clear -H3. revert H3. induction l as [|z l IHl]; intros H3 k c Hk;
      [discriminate|].
    cbn [bands_disjoint] in H3.
    apply andb_prop in H3 as [H12 H3]. apply andb_prop in H12 as [H1 _].
    destruct k as [|k]; [injection Hk as <-; exact H1|].
    now apply (IHl H3 k). }
  destruct j as [|j]; [lia|]. cbn in Hb.
  destruct i as [|i].
  - injection Ha as <-. split; [|now apply (Hend j)].
    rewrite forallb_forall in H2. apply H2.
    apply list_elem_of_In. now apply list_elem_of_lookup_2 in Hb.
  - cbn in Ha. apply (IH H3 i j); [lia|exact Ha|exact Hb].
Qed.

Lemma band_geometry_ext (s s' : ScaleBand) :
  length (band_domain s) = length (band_domain s') ->
  band_range s = band_range s' ->
  band_paddingInner s = band_paddingInner s' ->
  band_paddingOuter s = band_paddingOuter s' ->
  band_align s = band_align s' ->
  band_values s = band_values s' /\ bandwidth s = bandwidth s'.
Proof.
  intros Hn Hr Hi Ho Ha.
  unfold band_values, bandwidth, band_start, band_step, band_lo, band_hi,
    band_reverse, band_n.
  now rewrite Hn, Hr, Hi, Ho, Ha.
Qed.

Lemma d3_range_length (n : nat) : length (d3_range n) = n.
Proof. unfold d3_range. now rewrite length_map, length_seq. Qed.

Lemma xScale_geometry (ys : list N) :
  NoDup ys ->
  band_values (make_xScale ys) = band_values (make_xScale (d3_range (length ys))) /\
  bandwidth (make_xScale ys) = bandwidth (make_xScale (d3_range (length ys))) /\
  band_range (make_xScale ys) = band_range (make_xScale (d3_range (length ys))) /\
  length (band_domain (make_xScale ys))
  = length (band_domain (make_xScale (d3_range (length ys)))).
Proof.
  intros Hnd.
  assert (Hlen : length (band_domain (make_xScale ys))
                 = length (band_domain (make_xScale (d3_range (length ys))))).
  { cbn [band_domain make_xScale scaleBand].
    rewrite !Set_from_distinct by (try apply d3_range_NoDup; assumption).
    now rewrite d3_range_length. }
  assert (Hr : band_range (make_xScale ys)
               = band_range (make_xScale (d3_range (length ys))))
    by (cbn [band_range make_xScale scaleBand]; now rewrite d3_range_length).
  destruct (band_geometry_ext (make_xScale ys)
              (make_xScale (d3_range (length ys)))) as [H1 H2]; auto.
Qed.

Lemma xScale_bands (n : nat) :
  (n <= 10)%nat -> bands_in_range (make_xScale (d3_range n)) = true.
Proof.
  intros Hn.
  do 11 (destruct n as [|n]; [vm_compute; reflexivity|]). lia.
Qed.

Lemma index_of_lookup (x : N) (l : list N) (i : nat) :
  index_of x l = Some i -> l !! i = Some x.
Proof.
  revert i. induction l as [|y l IH]; intros i H; [discriminate|].
  simpl in H. destruct (N.eqb_spec x y) as [->|Hne].
  - injection H as <-. reflexivity.
  - destruct (index_of x l) as [k|]; [|discriminate].
    injection H as <-. simpl. now apply IH.
Qed.

Lemma bands_disjoint_end (bw hi : number) (l : list number) :
  bands_disjoint bw hi l = true ->
  forall (k : nat) (c : number),
    l !! k = Some c -> leb (c + bw)%num hi = true.
Proof.
  induction l as [|z l IH]; intros H k c Hk; [discriminate|].
  cbn [bands_disjoint] in H.
  apply andb_prop in H as [H12 H3]. apply andb_prop in H12 as [H1 _].
  destruct k as [|k]; [injection Hk as <-; exact H1|].
  now apply (IH H3 k).
Qed.

Lemma bands_in_range_sound (s : ScaleBand) :
  bands_in_range s = true ->
  (forall (i : nat) (a : number),
     band_values s !! i = Some a ->
     leb (fst (band_range s)) a = true /\
     leb (a + bandwidth s)%num (snd (band_range s)) = true /\
     ltb (of_Z 0) (bandwidth s) = true) /\
  (forall (i j : nat) (a b : number),
     (i < j)%nat ->
     band_values s !! i = Some a ->
     band_values s !! j = Some b ->
     leb (a + bandwidth s)%num b = true).
Proof.
  intros Hok. unfold bands_in_range in Hok.
  apply andb_prop in Hok as [H12 H3]. apply andb_prop in H12 as [H1 H2].
  split.
  - intros i a Ha. split; [|split].
    + rewrite forallb_forall in H1. apply H1.
      apply list_elem_of_In. now apply list_elem_of_lookup_2 in Ha.
    + now apply (bands_disjoint_end _ _ _ H2 i).
    + apply orb_prop in H3 as [H3|H3]; [exact H3|].
      apply Nat.eqb_eq in H3.
      apply lookup_lt_Some in Ha. rewrite band_values_length in Ha. lia.
  - intros i j a b Hij Ha Hb.
    now destruct (bands_disjoint_sound _ _ _ H2 i j a b Hij Ha Hb).
Qed.

(** X9.  The bands of the band scales stay in the grid and never
    overlap, in the arithmetic of doubles and for any input.  The
    x-scale has one slot per year of the window, the y-scale twelve,
    and the position the scale gives a year of the window is one of
    these slots.  For both scales, every band (a single one too)
    starts at or after the start of the range, ends at or before its
    end and has a positive width, and a band that starts at an earlier
    slot ends at or before the next slot starts.  With no year at all
    the x-scale has no slot and its bandwidth is 0. *)
Theorem bands_do_not_overlap (data : list DailyRecord) :
  let xs := make_xScale (years (loadData data)) in
  Forall
    (fun s =>
       (forall (i : nat) (a : number),
          band_values s !! i = Some a ->
          leb (fst (band_range s)) a = true /\
          leb (a + bandwidth s)%num (snd (band_range s)) = true /\
          ltb (of_Z 0) (bandwidth s) = true) /\
       (forall (i j : nat) (a b : number),
          (i < j)%nat ->
          band_values s !! i = Some a ->
          band_values s !! j = Some b ->
          leb (a + bandwidth s)%num b = true))
    [xs; make_yScale] /\
  length (band_values xs) = length (years (loadData data)) /\
  length (band_values make_yScale) = 12%nat /\
  (forall y, y ∈ years (loadData data) ->
     exists (i : nat) (a : number),
       years (loadData data) !! i = Some y /\
       band_values xs !! i = Some a /\
       band_apply xs y = Some a) /\
  (years (loadData data) = [] ->
   band_values xs = [] /\ bandwidth xs = of_Z 0).
Proof.
  intros xs.
  destruct (xScale_geometry (years (loadData data)) (years_NoDup data))
    as (Ev & Ew & Er & _).
  fold xs in Ev, Ew, Er.
  pose proof (bands_in_range_sound _
                (xScale_bands _ (years_length_le data))) as [Hx1 Hx2].
  rewrite <- Ev, <- Ew in Hx1, Hx2. rewrite <- Er in Hx1.
  assert (Hy : bands_in_range make_yScale = true) by (vm_compute; reflexivity).
  apply bands_in_range_sound in Hy.
  split.
  { constructor; [split; [exact Hx1|exact Hx2]|].
    constructor; [exact Hy|constructor]. }
  split; [unfold xs; now rewrite band_values_length, xScale_domain|].
  split; [reflexivity|]. split.
  - intros y Hin.
    destruct (index_of_elem y _ Hin) as (i & Ei & Hi).
    assert (Hlen : (i < length (band_values xs))%nat)
      by (unfold xs; now rewrite band_values_length, xScale_domain).
    apply lookup_lt_is_Some in Hlen as [a Ha].
    exists i, a. split; [now apply index_of_lookup|]. split; [exact Ha|].
    unfold band_apply, xs. rewrite xScale_domain, Ei. exact Ha.
  - intros E. unfold xs. rewrite E. split; vm_compute; reflexivity.
Qed.

(* ===================================================================== *)
(** ** More on the page                                                   *)
(* ===================================================================== *)

Lemma lists_all_NaN (ds : list DailyRecord) :
  Forall (fun d => isNaN (max d) = true) ds ->
  monthlyMax (summariseMonth ds) = None.
Proof.
  intros Hnan.
  pose proof (summariseMonth_max_of_numbers ds) as Hm. cbn zeta in Hm.
  assert (Hf : List.filter (fun d => negb (isNaN (max d))) ds = []).
  { clear Hm. induction Hnan as [|d ds Hd _ IH]; [reflexivity|].
    simpl. rewrite Hd. exact IH. }
  rewrite Hf in Hm.
  destruct (monthlyMax (summariseMonth ds)) as [mx|]; [|reflexivity].
  destruct Hm as [Hin _]. inversion Hin.
Qed.

Section Page.
Context {interpolator : Interpolator}.

Lemma shown_cells (n : nat) (data : list DailyRecord) (label0 : string)
  (g : CellGroup) :
  g ∈ svg_cells (after_clicks n data label0) ->
  group_datum g ∈ build_cells (nested (loadData data)) (years (loadData data)).
Proof.
  intros Hg. rewrite <- (after_clicks_datums n data label0).
  apply list_elem_of_fmap. exists g. split; [reflexivity|exact Hg].
Qed.

Lemma apply_colour_number (c : ScaleSequential) (v : number) :
  numeric v -> is_Some (apply_colour c (Some v)).
Proof.
  unfold numeric, apply_colour, sequential_apply. intros ->. eauto.
Qed.

(** X10.  When the temperatures of all rows are numbers, every cell
    rectangle of the page has a fill, in either mode and after any
    number of clicks. *)
Theorem cells_have_fill (data : list DailyRecord) (label0 : string) (n : nat) :
  Forall numeric_record data ->
  Forall (fun g => is_Some (rect_fill (group_rect g)))
         (svg_cells (after_clicks n data label0)).
Proof.
  intros Hnum. pose proof (after_clicks_fill n data label0) as Hf.
  unfold fill_follows_mode in Hf. rewrite Forall_forall in Hf.
  rewrite Forall_forall in Hnum. apply Forall_forall.
  intros g Hg. rewrite (Hf g Hg).
  apply shown_cells, loadData_cells in Hg as (_ & _ & Hne & Hs).
  unfold cell_fill. rewrite Hs.
  set (l := records_of (year (group_datum g)) (month (group_datum g)) (filtered data)) in *.
  assert (Hl : Forall numeric_record l).
  { apply Forall_forall. intros d Hd. apply Hnum.
    apply records_of_elem in Hd as (Hd & _). now apply filtered_elem. }
  destruct (d3_max_is_maximum l max Hne) as (mx & Emx & Hmx & _).
  { eapply Forall_impl; [exact Hl|]. now intros d [? _]. }
  destruct (d3_min_is_minimum l min Hne) as (mn & Emn & Hmn & _).
  { eapply Forall_impl; [exact Hl|]. now intros d [_ ?]. }
  cbn [monthlyMax monthlyMin summariseMonth]. rewrite Emx, Emn.
  apply list_elem_of_fmap in Hmx as (d1 & -> & Hd1).
  apply list_elem_of_fmap in Hmn as (d2 & -> & Hd2).
  rewrite Forall_forall in Hl.
  destruct (showMax _); apply apply_colour_number; [apply (Hl d1 Hd1)|apply (Hl d2 Hd2)].
Qed.

(** X11.  A month of the window whose rows all have a [max] that is [NaN]
    still gets its cell, but the cell has no monthly maximum and, when
    the page is drawn, no fill attribute. *)
Theorem NaN_month_without_fill (data : list DailyRecord) (label0 : string)
  (y m : N) :
  records_of y m (filtered data) <> [] ->
  y ∈ years (loadData data) ->
  (m < 12)%N ->
  Forall (fun d => isNaN (max d) = true) (records_of y m (filtered data)) ->
  exists g,
    g ∈ svg_cells (main data label0) /\
    cell_key (group_datum g) = (y, m) /\
    monthlyMax (summary (group_datum g)) = None /\
    rect_fill (group_rect g) = None.
Proof.
  intros Hne Hy Hm Hnan.
  set (c := mkCell y m (summariseMonth (records_of y m (filtered data)))).
  assert (Hc : c ∈ build_cells (nested (loadData data)) (years (loadData data))).
  { apply loadData_cells. cbn [year month summary c].
    split; [exact Hy|]. split; [now apply d3_range_elem|]. now split. }
  rewrite <- (after_clicks_datums 0 data label0) in Hc.
  apply list_elem_of_fmap in Hc as (g & Hg & Hin).
  change (after_clicks 0 data label0) with (main data label0) in Hin.
  exists g. split; [exact Hin|]. rewrite <- Hg. split; [reflexivity|].
  assert (E : monthlyMax (summary c) = None) by (apply lists_all_NaN, Hnan).
  split; [exact E|].
  pose proof (main_fill data label0) as Hf. unfold fill_follows_mode in Hf.
  rewrite Forall_forall in Hf. rewrite (Hf g Hin), <- Hg.
  unfold cell_fill. cbn [showMax main drawAxes]. now rewrite E.
Qed.

(** X12.  After the first click the page has two states: a third call of
    toggleMode gives the page of the first, so the page after [n + 3]
    clicks is the page after [n + 1]; [showMax] holds after an even
    number of clicks, and from the first click on the mode label says
    "Maximum" exactly when it holds. *)
Theorem toggle_two_states (w : World) :
  toggleMode (toggleMode (toggleMode w)) = toggleMode w /\
  (forall (data : list DailyRecord) (label0 : string) (n : nat),
     after_clicks (S (S (S n))) data label0 = after_clicks (S n) data label0 /\
     showMax (after_clicks n data label0) = Nat.even n /\
     mode_label (after_clicks (S n) data label0)
     = (if Nat.even (S n) then "Maximum" else "Minimum")%string /\
     mode_label (after_clicks 0 data label0) = label0).
Proof.
  assert (H3 : forall v, toggleMode (toggleMode (toggleMode v)) = toggleMode v).
  { intros v. unfold toggleMode at 1 2 3 4.
    cbn [showMax colour scales svg_axes svg_cells svg_legend mode_label].
    rewrite !map_map, negb_involutive. f_equal. }
  split; [apply H3|]. intros data label0 n.
  split; [rewrite !after_clicks_S; apply H3|].
  split; [apply after_clicks_showMax|]. split; [|reflexivity].
  rewrite after_clicks_S. cbn [mode_label toggleMode].
  rewrite after_clicks_showMax, Nat.even_succ, <- Nat.negb_even. reflexivity.
Qed.

(** X13.  Every cell group of the page has exactly two paths, the one of
    class "line-min" before the one of class "line-max"; both are
    bound to the cell's [days], have one point per day, and have their
    points at the same x positions. *)
Theorem mini_chart_paths (data : list DailyRecord) (label0 : string) (n : nat) :
  Forall
    (fun g =>
       exists pmin pmax,
         group_paths g = [pmin; pmax] /\
         path_class pmin = "line-min"%string /\
         path_class pmax = "line-max"%string /\
         path_datum pmin = days (summary (group_datum g)) /\
         path_datum pmax = days (summary (group_datum g)) /\
         length (path_points pmin) = length (days (summary (group_datum g))) /\
         length (path_points pmax) = length (days (summary (group_datum g))) /\
         map fst (path_points pmin) = map fst (path_points pmax) /\
         days (summary (group_datum g)) <> [])
    (svg_cells (after_clicks n data label0)).
Proof.
  pose proof (after_clicks_layout n data label0) as Hl. cbn zeta in Hl.
  apply Forall2_Forall_r with (1 := Hl). apply Forall_forall.
  intros c Hc g (_ & Hd & _ & _ & _ & _ & _ & Hp).
  apply loadData_cells in Hc as (_ & _ & Hne & Hs).
  assert (Hdays : days (summary c) <> [])
    by (rewrite Hs; now apply summariseMonth_nonempty).
  rewrite Hp, Hd, (mini_chart_nonempty _ _ c Hdays).
  eexists _, _. split; [reflexivity|]. cbn [path_class path_datum path_points].
  repeat (split; [reflexivity|]).
  unfold line_points. rewrite !length_imap.
  repeat (split; [reflexivity|]). split; [|exact Hdays].
  change (map fst ?l) with (fst <$> l). rewrite !fmap_imap. reflexivity.
Qed.

End Page.

Lemma cells_have_fill_witness :
  Forall numeric_record [jan2; jan1] /\
  Forall (fun g => is_Some (rect_fill (group_rect g)))
         (svg_cells (after_clicks (interpolator := two_colours) 1 [jan2; jan1]
                       "Maximum")).
Proof.
  assert (H : Forall numeric_record [jan2; jan1])
    by (repeat constructor).
  split; [exact H|].
  exact (cells_have_fill (interpolator := two_colours) [jan2; jan1] "Maximum" 1 H).
Defined.

Lemma NaN_month_without_fill_witness :
  records_of 2023 1 (filtered [nan_row]) <> [] /\
  2023%N ∈ years (loadData [nan_row]) /\
  (1 < 12)%N /\
  Forall (fun d => isNaN (max d) = true) (records_of 2023 1 (filtered [nan_row])) /\
  exists g,
    g ∈ svg_cells (main (interpolator := two_colours) [nan_row] "Maximum") /\
    cell_key (group_datum g) = (2023%N, 1%N) /\
    monthlyMax (summary (group_datum g)) = None /\
    rect_fill (group_rect g) = None.
Proof.
  assert (H1 : records_of 2023 1 (filtered [nan_row]) <> []) by discriminate.
  assert (H2 : 2023%N ∈ years (loadData [nan_row])) by in_list.
  assert (H3 : (1 < 12)%N) by lia.
  assert (H4 : Forall (fun d => isNaN (max d) = true)
                      (records_of 2023 1 (filtered [nan_row])))
    by (repeat constructor).
  repeat (split; [assumption|]).
  exact (NaN_month_without_fill (interpolator := two_colours) [nan_row]
           "Maximum" 2023%N 1%N H1 H2 H3 H4).
Defined.

(* ===================================================================== *)
(** ** Axes, legend and canvas                                            *)
(* ===================================================================== *)

Lemma month_index (m : N) :
  (m < 12)%N -> index_of m (d3_range MONTHS_COUNT) = Some (N.to_nat m).
Proof.
  intros Hm.
  assert (H : m ∈ d3_range MONTHS_COUNT) by now apply d3_range_elem.
  apply list_elem_of_In in H. simpl in H.
  repeat (destruct H as [<-|H]; [reflexivity|]). destruct H.
Qed.

Lemma month_name_defined (m : N) :
  (m < 12)%N ->
  MONTH_NAMES !! N.to_nat m = Some (month_name m) /\ month_name m ∈ MONTH_NAMES.
Proof.
  intros Hm.
  assert (H : m ∈ d3_range MONTHS_COUNT) by now apply d3_range_elem.
  apply list_elem_of_In in H. simpl in H.
  repeat (destruct H as [<-|H]; [split; [reflexivity|in_list]|]). destruct H.
Qed.

Section Furniture.
Context {interpolator : Interpolator}.

(** X14.  The page has two axes, made with the scales the cells are placed
    by.  The top axis has one tick per year of the window, labelled
    with the year's decimal string, no two alike; the left axis has the
    twelve month names in calendar order.  Every cell group lines up
    with its labels: the slot of the x-scale it is translated to is
    the slot of the tick that carries its year, and the slot of the
    y-scale is that of the tick that carries the name of its month. *)
Theorem axis_ticks (data : list DailyRecord) (label0 : string) (n : nat) :
  let w := after_clicks n data label0 in
  exists top_axis left_axis,
    svg_axes w = [top_axis; left_axis] /\
    axis_orient top_axis = Top /\
    axis_scale top_axis = xScale (scales w) /\
    axis_labels top_axis = map Number_toString (years (loadData data)) /\
    NoDup (axis_labels top_axis) /\
    axis_orient left_axis = Left /\
    axis_scale left_axis = yScale (scales w) /\
    axis_labels left_axis = MONTH_NAMES /\
    Forall
      (fun g =>
         let d := group_datum g in
         exists i,
           years (loadData data) !! i = Some (year d) /\
           axis_labels top_axis !! i = Some (Number_toString (year d)) /\
           fst (group_translate g) = band_values (xScale (scales w)) !! i /\
           axis_labels left_axis !! N.to_nat (month d) = Some (month_name (month d)) /\
           month_name (month d) ∈ MONTH_NAMES /\
           snd (group_translate g)
           = band_values (yScale (scales w)) !! N.to_nat (month d))
      (svg_cells w).
Proof.
  intros w.
  destruct (after_clicks_frame n data label0) as (Hsc & _ & Hax & _).
  fold w in Hsc, Hax. rewrite Hsc, Hax, main_scales. cbn [xScale yScale].
  assert (Hdom : band_domain (make_xScale (years (loadData data)))
                 = years (loadData data)) by apply xScale_domain.
  eexists _, _. split; [reflexivity|]. cbn [axis_orient axis_scale axis_labels].
  split; [reflexivity|]. split; [reflexivity|].
  split; [now rewrite Hdom|]. split.
  { rewrite Hdom. apply NoDup_fmap_2_strong; [|apply years_NoDup].
    intros x y _ _. apply Number_toString_inj. }
  split; [reflexivity|]. split; [reflexivity|]. split; [reflexivity|].
  pose proof (after_clicks_layout n data label0) as Hl. cbn zeta in Hl.
  cbn [xScale yScale] in Hl.
  apply Forall2_Forall_r with (1 := Hl). apply Forall_forall.
  intros c Hc g (_ & Hd & Htr & _). cbn zeta. rewrite Hd, Htr. cbn [fst snd].
  apply build_cells_elem in Hc as (Hy & Hm & _).
  apply d3_range_elem in Hm. change (N.of_nat MONTHS_COUNT) with 12%N in Hm.
  destruct (index_of_elem (year c) (years (loadData data)) Hy) as (i & Ei & _).
  exists i. pose proof (index_of_lookup _ _ _ Ei) as Hi.
  split; [exact Hi|]. split.
  { rewrite Hdom, list_lookup_fmap, Hi. reflexivity. }
  split.
  { unfold band_apply. now rewrite Hdom, Ei. }
  destruct (month_name_defined (month c) Hm) as [Hn1 Hn2].
  split; [exact Hn1|]. split; [exact Hn2|].
  unfold band_apply. cbn [band_domain make_yScale scaleBand].
  change (Set_from (d3_range MONTHS_COUNT)) with (d3_range MONTHS_COUNT).
  now rewrite (month_index (month c) Hm).
Qed.

(** X15.  The offsets of the legend's eleven stops are exactly 0, 10, ...,
    100 percent; the arguments at which the stops evaluate the
    interpolator ascend strictly from exactly 0 to exactly 1; and the
    colour scale gives [TEMP_MIN] the interpolator's value at 0 and
    [TEMP_MAX] its value at 1, the colours of the first and the last
    stop. *)
Theorem legend_extremes (data : list DailyRecord) (label0 : string) (n : nat) :
  exists lg : Legend,
    svg_legend (after_clicks n data label0) = Some lg /\
    map stop_offset_percent (gradient_stops lg)
    = map (fun i => of_Z (10 * Z.of_nat i)) (seq 0 11) /\
    map stop_color (gradient_stops lg)
    = map (fun a => Some (interpolateYlOrRd a)) legend_arguments /\
    head legend_arguments = Some (of_Z 0) /\
    last legend_arguments = Some (of_Z 1) /\
    StronglySorted (fun a b => ltb a b = true) legend_arguments /\
    apply_colour buildColourScale (Some (of_Z TEMP_MIN))
    = Some (interpolateYlOrRd (of_Z 0)) /\
    apply_colour buildColourScale (Some (of_Z TEMP_MAX))
    = Some (interpolateYlOrRd (of_Z 1)).
Proof.
  destruct (after_clicks_frame n data label0) as (_ & _ & _ & Hlg & _).
  exists (drawLegend buildColourScale (years (loadData data))).
  split; [rewrite Hlg; reflexivity|].
  cbn [gradient_stops drawLegend]. rewrite !map_map.
  split; [vm_compute; reflexivity|].
  split.
  { unfold legend_arguments. rewrite map_map. apply map_ext_in.
    intros i Hi. apply in_seq in Hi. cbn [stop_color legend_stop].
    unfold apply_colour, sequential_apply.
    assert (Hi' : (i <= 10)%nat) by (unfold legend_steps in Hi; lia).
    clear Hi.
    do 11 (destruct i as [|i]; [reflexivity|]). lia. }
  split; [vm_compute; reflexivity|]. split; [vm_compute; reflexivity|].
  split; [apply strictly_increasing_sound; vm_compute; reflexivity|].
  split; reflexivity.
Qed.

(** X16.  The canvas createSvg makes holds the grid and the legend for any
    input: the grid, at most ten columns wide, ends at or before the
    right margin and exactly at the bottom margin; the legend bar
    starts 30 to the right of the grid's last column, is as high as
    the grid, and ends, like the start of its labels, inside the
    canvas. *)
Theorem canvas_holds_grid_and_legend (data : list DailyRecord) :
  let ys := years (loadData data) in
  let lg := drawLegend buildColourScale ys in
  let grid_width := CELL_WIDTH * Z.of_nat (length ys) in
  let grid_height := CELL_HEIGHT * Z.of_nat MONTHS_COUNT in
  snd (band_range (make_xScale ys)) = of_Z grid_width /\
  snd (band_range make_yScale) = of_Z grid_height /\
  fst (svg_translate createSvg) + grid_width
  <= svg_width createSvg - margin_right MARGIN /\
  snd (svg_translate createSvg) + grid_height
  = svg_height createSvg - margin_bottom MARGIN /\
  bar_x lg = grid_width + 30 /\
  bar_y lg = 0 /\ bar_height lg = grid_height /\
  fst (svg_translate createSvg) + bar_x lg + bar_width lg <= svg_width createSvg /\
  Forall (fun t => bar_x lg + bar_width lg < text_x t /\
                   fst (svg_translate createSvg) + text_x t < svg_width createSvg /\
                   0 <= text_y t <= grid_height)
         (legend_labels lg).
Proof.
  intros ys lg grid_width grid_height.
  pose proof (years_length_le data) as Hten. fold ys in Hten.
  assert (Hw : 0 <= grid_width <= 1000) by (unfold grid_width, CELL_WIDTH; lia).
  split; [reflexivity|]. split; [reflexivity|].
  cbn [svg_translate svg_width svg_height createSvg fst snd bar_x bar_y
       bar_width bar_height legend_labels lg drawLegend].
  fold grid_width.
  change (CELL_HEIGHT * Z.of_nat MONTHS_COUNT) with 840.
  change WIDTH with 1210. change HEIGHT with 910.
  change (margin_left MARGIN) with 90. change (margin_top MARGIN) with 50.
  change (margin_right MARGIN) with 120. change (margin_bottom MARGIN) with 20.
  unfold grid_height. change (CELL_HEIGHT * Z.of_nat MONTHS_COUNT) with 840.
  repeat (split; [lia|]).
  repeat constructor; cbn [text_x text_y]; lia.
Qed.

End Furniture.

(* ===================================================================== *)
(** ** Mini charts and tooltip on the page                                *)
(* ===================================================================== *)

Lemma xMini_single (k : nat) (r : DailyRecord) :
  (1 <= k <= 10)%nat ->
  linear_apply (xMini (bandwidth (make_xScale (d3_range k))) [r]) (of_Z 0)
  = Some (bandwidth (make_xScale (d3_range k)) / of_Z 2)%num.
Proof.
  intros Hk. unfold xMini. cbn [length].
  destruct k as [|k]; [lia|].
  do 10 (destruct k as [|k]; [vm_compute; reflexivity|]). lia.
Qed.

Lemma linear_apply_NaN (s : ScaleLinear) (v : number) :
  isNaN v = true -> to_number (linear_apply s v) = S754_nan.
Proof. intros H. unfold linear_apply. now rewrite H. Qed.

Lemma string_app_inj (s1 s2 t1 t2 : string) :
  String.length s1 = String.length s2 ->
  (s1 +:+ t1 = s2 +:+ t2)%string -> s1 = s2 /\ t1 = t2.
Proof.
  revert s2. induction s1 as [|a s1 IH]; intros [|b s2] Hlen E;
    try discriminate; [now split|].
  simpl in Hlen, E. injection E as -> E. injection Hlen as Hlen.
  destruct (IH s2 Hlen E) as [-> ->]. now split.
Qed.

Lemma string_app_length (s t : string) :
  String.length (s +:+ t) = (String.length s + String.length t)%nat.
Proof. induction s as [|a s IH]; simpl; [reflexivity|now rewrite IH]. Qed.

Lemma month_cases (P : N -> Prop) :
  Forall P (d3_range MONTHS_COUNT) -> forall m, (m < 12)%N -> P m.
Proof.
  intros H m Hm. rewrite Forall_forall in H. apply H. now apply d3_range_elem.
Qed.

Lemma month_text (m : N) :
  (m < 12)%N ->
  String.length (padStart 2 "0" (Number_toString (m + 1))) = 2%nat /\
  forall m', (m' < 12)%N ->
    padStart 2 "0" (Number_toString (m' + 1))
    = padStart 2 "0" (Number_toString (m + 1)) -> m' = m.
Proof.
  revert m. apply month_cases.
  let l := eval vm_compute in (d3_range MONTHS_COUNT) in
  change (d3_range MONTHS_COUNT) with l.
  repeat (constructor;
    [split; [reflexivity|];
     refine (month_cases
               (fun m' => padStart 2 "0" (Number_toString (m' + 1)) = _ -> m' = _) _);
     let l := eval vm_compute in (d3_range MONTHS_COUNT) in
     change (d3_range MONTHS_COUNT) with l;
     repeat (constructor;
       [intros E; first [reflexivity|vm_compute in E; discriminate E]|]);
     constructor|]).
  constructor.
Qed.

Lemma month_text_value (m : N) :
  (m < 12)%N ->
  padStart 2 "0" (Number_toString (m + 1))
  = (if (m + 1 <? 10)%N then "0" +:+ Number_toString (m + 1)
     else Number_toString (m + 1))%string /\
  month_numbers !! N.to_nat m = Some (padStart 2 "0" (Number_toString (m + 1))).
Proof.
  revert m. apply month_cases.
  let l := eval vm_compute in (d3_range MONTHS_COUNT) in
  change (d3_range MONTHS_COUNT) with l.
  repeat (constructor; [split; reflexivity|]). constructor.
Qed.

Section Pointer.
Context {interpolator : Interpolator}.

Lemma shown_cell_slot (n : nat) (data : list DailyRecord) (label0 : string)
  (g : CellGroup) :
  g ∈ svg_cells (after_clicks n data label0) ->
  (1 <= length (years (loadData data)) <= 10)%nat /\
  (month (group_datum g) < 12)%N /\
  days (summary (group_datum g)) <> [] /\
  group_paths g
  = mini_chart (bandwidth (make_xScale (d3_range (length (years (loadData data))))))
               (bandwidth make_yScale) (group_datum g).
Proof.
  intros Hg.
  pose proof (after_clicks_layout n data label0) as Hl. cbn zeta in Hl.
  cbn [xScale yScale] in Hl.
  assert (Hp : group_paths g
               = mini_chart (bandwidth (make_xScale (years (loadData data))))
                   (bandwidth make_yScale) (group_datum g)).
  { apply Forall2_Forall_r with (Q := fun g =>
      group_paths g
      = mini_chart (bandwidth (make_xScale (years (loadData data))))
          (bandwidth make_yScale) (group_datum g)) in Hl.
    - rewrite Forall_forall in Hl. now apply Hl.
    - apply Forall_forall. intros c _ g' (_ & -> & _ & _ & _ & _ & _ & ->).
      reflexivity. }
  destruct (xScale_geometry (years (loadData data)) (years_NoDup data))
    as (_ & Hbw & _).
  rewrite Hbw in Hp.
  apply shown_cells in Hg. apply loadData_cells in Hg as (Hy & Hm & Hne & Hs).
  split.
  { split; [|apply years_length_le].
    destruct (years (loadData data)); [inversion Hy|simpl; lia]. }
  split; [now apply d3_range_elem in Hm|].
  split; [rewrite Hs; now apply summariseMonth_nonempty|exact Hp].
Qed.

(** X17.  Where the lines of a mini chart are anchored on the page.  In
    every cell group the point of day [i] has the same x position on
    both paths; a daily value equal to [TEMP_MIN] is drawn on the
    bottom padding line (bandwidth minus 4), one equal to [TEMP_MAX] on
    the top padding line (4), which lies above it; a daily value that
    is [NaN] gives a [NaN] coordinate; and the point of a month with a
    single day sits at half the cell's width. *)
Theorem mini_chart_anchors (data : list DailyRecord) (label0 : string)
  (n : nat) (g : CellGroup) :
  let w := after_clicks n data label0 in
  let bw := bandwidth (xScale (scales w)) in
  let bh := bandwidth (yScale (scales w)) in
  g ∈ svg_cells w ->
  ltb (of_Z 4) (bh - of_Z 4)%num = true /\
  exists pmin pmax,
    group_paths g = [pmin; pmax] /\
    forall (i : nat) (r : DailyRecord),
      days (summary (group_datum g)) !! i = Some r ->
      exists x ymin ymax,
        path_points pmin !! i = Some (x, ymin) /\
        path_points pmax !! i = Some (x, ymax) /\
        (min r = of_Z TEMP_MIN -> ymin = (bh - of_Z 4)%num) /\
        (max r = of_Z TEMP_MIN -> ymax = (bh - of_Z 4)%num) /\
        (min r = of_Z TEMP_MAX -> ymin = of_Z 4) /\
        (max r = of_Z TEMP_MAX -> ymax = of_Z 4) /\
        (isNaN (min r) = true -> ymin = S754_nan) /\
        (isNaN (max r) = true -> ymax = S754_nan) /\
        (days (summary (group_datum g)) = [r] -> x = (bw / of_Z 2)%num).
Proof.
  intros w bw bh Hg.
  destruct (after_clicks_frame n data label0) as (Hsc & _).
  unfold bw, bh, w. rewrite Hsc, main_scales. cbn [xScale yScale].
  destruct (xScale_geometry (years (loadData data)) (years_NoDup data))
    as (_ & -> & _).
  destruct (shown_cell_slot n data label0 g Hg) as (Hk & _ & Hne & Hp).
  split; [vm_compute; reflexivity|].
  rewrite Hp, (mini_chart_nonempty _ _ _ Hne).
  eexists _, _. split; [reflexivity|]. cbn [path_points].
  intros i r Hr. unfold line_points.
  eexists _, _, _. rewrite !list_lookup_imap, Hr. cbn [fmap option_fmap option_map].
  split; [reflexivity|]. split; [reflexivity|].
  split; [intros ->; vm_compute; reflexivity|].
  split; [intros ->; vm_compute; reflexivity|].
  split; [intros ->; vm_compute; reflexivity|].
  split; [intros ->; vm_compute; reflexivity|].
  split; [apply linear_apply_NaN|]. split; [apply linear_apply_NaN|].
  intros E. rewrite E in Hr |- *.
  destruct i as [|i]; [|destruct i; discriminate Hr].
  change (Z.of_nat 0) with 0. now rewrite (xMini_single _ r Hk).
Qed.

(** X18.  The tooltip agrees with the cell under the pointer.  On the page
    after any number of clicks, the value the mouseover handler prints
    for a cell is the active field of the cell, [monthlyMax] after an
    even number of clicks and [monthlyMin] after an odd number, the
    one whose colour fills the cell's rectangle; its label is "Max"
    after an even number of clicks and "Min" after an odd number; and
    its heading is the year, a dash and the number of the month, that
    is the month index plus one, with a leading zero when it is below
    ten: "01" for January up to "12" for December.  No cell of the
    page with another year or month has the same heading. *)
Theorem tooltip_matches_cell (data : list DailyRecord) (label0 : string)
  (n : nat) (g : CellGroup) :
  let w := after_clicks n data label0 in
  let d := group_datum g in
  let t := mouseover w d in
  g ∈ svg_cells w ->
  tooltip_opacity t = 1 /\
  html_value t
  = (if Nat.even n then monthlyMax (summary d) else monthlyMin (summary d)) /\
  rect_fill (group_rect g) = apply_colour (colour w) (html_value t) /\
  html_label t = (if Nat.even n then "Max" else "Min")%string /\
  (exists mm,
     html_heading t = (Number_toString (year d) +:+ "-" +:+ mm)%string /\
     mm = (if (month d + 1 <? 10)%N then "0" +:+ Number_toString (month d + 1)
           else Number_toString (month d + 1))%string /\
     month_numbers !! N.to_nat (month d) = Some mm /\
     String.length mm = 2%nat) /\
  (forall g',
     g' ∈ svg_cells w ->
     html_heading (mouseover w (group_datum g')) = html_heading t ->
     cell_key (group_datum g') = cell_key d).
Proof.
  intros w d t Hg.
  split; [reflexivity|].
  split. { cbn [t html_value mouseover]. unfold w. now rewrite after_clicks_showMax. }
  pose proof (after_clicks_fill n data label0) as Hf.
  unfold fill_follows_mode in Hf. rewrite Forall_forall in Hf.
  split; [exact (Hf g Hg)|].
  split. { cbn [t html_label mouseover]. unfold w. now rewrite after_clicks_showMax. }
  destruct (shown_cell_slot n data label0 g Hg) as (_ & Hm & _).
  fold d in Hm.
  destruct (month_text _ Hm) as [Hlen Hinj].
  destruct (month_text_value _ Hm) as [Hval Htab].
  split.
  { exists (padStart 2 "0" (Number_toString (month d + 1))).
    split; [reflexivity|]. split; [exact Hval|]. split; [exact Htab|exact Hlen]. }
  intros g' Hg' E. cbn [t html_heading mouseover] in E.
  destruct (shown_cell_slot n data label0 g' Hg') as (_ & Hm' & _).
  destruct (month_text _ Hm') as [Hlen' _].
  assert (Hl : String.length (Number_toString (year (group_datum g')))
               = String.length (Number_toString (year d))).
  { apply (f_equal String.length) in E.
    rewrite !string_app_length, Hlen, Hlen' in E. lia. }
  apply (string_app_inj _ _ _ _ Hl) in E as [Ey E].
  apply Number_toString_inj in Ey.
  injection E as E. apply Hinj in E; [|exact Hm'].
  unfold cell_key. now rewrite Ey, E.
Qed.

End Pointer.

Lemma mini_chart_anchors_witness :
  group_jan ∈ svg_cells (after_clicks (interpolator := two_colours) 0
                           [jan2; jan1] "Maximum") /\
  ltb (of_Z 4)
      (bandwidth (yScale (scales (after_clicks (interpolator := two_colours) 0
                                    [jan2; jan1] "Maximum"))) - of_Z 4)%num
  = true.
Proof.
  assert (H : group_jan ∈ svg_cells (after_clicks (interpolator := two_colours) 0
                                       [jan2; jan1] "Maximum"))
    by (vm_compute; apply list_elem_of_here).
  split; [exact H|].
  exact (proj1 (mini_chart_anchors (interpolator := two_colours)
                  [jan2; jan1] "Maximum" 0 group_jan H)).
Defined.

Lemma tooltip_matches_cell_witness :
  group_jan ∈ svg_cells (after_clicks (interpolator := two_colours) 0
                           [jan2; jan1] "Maximum") /\
  html_heading (mouseover (after_clicks (interpolator := two_colours) 0
                             [jan2; jan1] "Maximum") (group_datum group_jan))
  = "2023-01"%string /\
  html_label (mouseover (after_clicks (interpolator := two_colours) 0
                           [jan2; jan1] "Maximum") (group_datum group_jan))
  = "Max"%string.
Proof.
  assert (H : group_jan ∈ svg_cells (after_clicks (interpolator := two_colours) 0
                                       [jan2; jan1] "Maximum"))
    by (vm_compute; apply list_elem_of_here).
  split; [exact H|]. split; [reflexivity|].
  exact (proj1 (proj2 (proj2 (proj2
    (tooltip_matches_cell (interpolator := two_colours)
       [jan2; jan1] "Maximum" 0 group_jan H))))).
Defined.
